(** * Knot DNS query-serving core: a shallow embedding and its properties

    The development follows the translation units gathered in
    [src/server/name-server.c]:

    - [NameServer]: [ns_answer_request] (the early name server, RCU read
      section around the zone lookup);
    - [Notify]: [notify_produce], [send_notify] (outbound NOTIFY), and
      [NotifyEvent]: [event_notify];
    - [UdpHandler]: [udp_state_active], [udp_handle], [udp_pktinfo_handle],
      [udp_recvfrom_send] (the datagram pipeline), and [UdpRecvmmsg]:
      [udp_recvmmsg_init], [udp_recvmmsg_recv], [udp_recvmmsg_handle],
      [udp_recvmmsg_send] (the batch receive path);
    - [Quic]: [knot_quic_table_new], [knot_quic_conn_hash],
      [knot_quic_table_add], [knot_quic_table_find] (the connection table);
    - [Params], [ParamsNames]: [cmp_prefix], [best_param],
      [get_reverse_name], [get_fqd_name], [params_parse_type],
      [params_parse_wait], [params_parse_num], [params_parse_tsig] (the
      parameters of the utilities).

    Integers of the C code are [Z] with their width written out where it
    matters; pointers into shared memory are keys of a [gmap] store, NULL is
    [None]. *)

From Stdlib Require Import ZArith List Lia Bool.
From stdpp Require Import base option list gmap.
Import ListNotations.
Open Scope Z_scope.

(** ** Early exits and traces

    The C functions below return from the middle of their body and call
    into libraries whose order of invocation is what several properties are
    about.  [M] threads a state [S] and stops at the first [Return] or
    failed [assert]. *)

Inductive result (A : Type) : Type :=
| Next (a : A)          (* fall through to the next statement *)
| Return (r : Z)        (* [return r;] *)
| Abort.                (* a failed [assert], the process is aborted *)
Arguments Next {A} a.
Arguments Return {A} r.
Arguments Abort {A}.

Definition M (S A : Type) : Type := S -> result A * S.

#[global] Instance M_ret {S} : MRet (M S) := fun A a s => (Next a, s).
#[global] Instance M_bind {S} : MBind (M S) := fun A B k c s =>
  match c s with
  | (Next a, s') => k a s'
  | (Return r, s') => (Return r, s')
  | (Abort, s') => (Abort, s')
  end.
Definition return_ {S A} (r : Z) : M S A := fun s => (Return r, s).
Definition assert_ {S} (b : bool) : M S unit :=
  fun s => if b then (Next tt, s) else (Abort, s).
Definition modify {S} (f : S -> S) : M S unit := fun s => (Next tt, f s).

(** ** [ns_answer_request] *)

Module NameServer.

(** The packet of [dns-simple.h], as far as [ns_answer_request] reads it:
    a header with a flag word and counts, the questions, the answers. *)
Record dnss_header := {
  id : Z; flags : Z; qdcount : Z; ancount : Z; nscount : Z; arcount : Z }.
Record dnss_question := { qname : list Z; qtype : Z; qclass : Z }.
Definition rr := list Z.
Record dnss_packet := {
  header : dnss_header;
  questions : list dnss_question;
  answers : list rr }.

(** [query->questions[0]]; the code reads it once [qdcount > 0]. *)
Definition question0 (p : dnss_packet) : dnss_question :=
  hd {| qname := []; qtype := 0; qclass := 0 |} (questions p).

(** What the caller sees of [response_wire] and [*rsize]. *)
Record outbuf := { response_wire : list Z; rsize : Z }.

Inductive event :=
| EvRcuReadLock
| EvRcuReadUnlock
| EvZdbFindName (name : list Z)
| EvZnFindRrset (type : Z)                 (* dereferences the node *)
| EvCreateEmptyPacket
| EvCreateResponse (answers : option (list rr)) (* copies the rrset *)
| EvCreateErrorResponse
| EvWireFormat (p : dnss_packet) (res : Z)
| EvDestroyPacket.

Record world := { trace : list event; out : outbuf }.

Definition emit (e : event) : M world unit :=
  modify (fun w => {| trace := trace w ++ [e]; out := out w |}).

(** The functions of [dns-simple.h], [zone-database.h], [zone-node.h] and
    ldns that [ns_answer_request] calls; none of them is defined in this
    translation unit.  A NULL result is [None]; an [int] status comes with
    the object the call updates through its pointer argument.  The zone
    database and the node are opaque to [ns_answer_request]. *)
Class Libraries (zdb_database zn_node : Type) := {
  dnss_parse_query : list Z -> option dnss_packet;
  ldns_dname_new_frm_data : list Z -> list Z;
  zdb_find_name : zdb_database -> list Z -> option zn_node;
  zn_find_rrset : zn_node -> Z -> option (list rr);
  dnss_create_empty_packet : option dnss_packet;
  dnss_create_response :
    dnss_packet -> option (list rr) -> Z -> dnss_packet -> Z * dnss_packet;
  dnss_create_error_response : dnss_packet -> dnss_packet -> Z * dnss_packet;
  dnss_wire_format : dnss_packet -> outbuf -> Z * outbuf }.

Record ns_nameserver (zdb_database : Type) := { zone_db : zdb_database }.
Arguments zone_db {zdb_database} _.

Section WithLibraries.

Context {zdb_database zn_node : Type} {L : Libraries zdb_database zn_node}.

(** [ldns_rr_list_rr_count], 0 on a NULL list. *)
Definition ldns_rr_list_rr_count (l : option (list rr)) : Z :=
  match l with Some rrs => Z.of_nat (length rrs) | None => 0 end.

Definition rcu_read_lock : M world unit := emit EvRcuReadLock.
Definition rcu_read_unlock : M world unit := emit EvRcuReadUnlock.
Definition dnss_destroy_packet : M world unit := emit EvDestroyPacket.

Definition call_zdb_find_name (db : zdb_database) (n : list Z)
  : M world (option zn_node) :=
  emit (EvZdbFindName n) ;; mret (zdb_find_name db n).

Definition call_zn_find_rrset (node : zn_node) (t : Z)
  : M world (option (list rr)) :=
  emit (EvZnFindRrset t) ;; mret (zn_find_rrset node t).

Definition call_create_empty_packet : M world (option dnss_packet) :=
  emit EvCreateEmptyPacket ;; mret dnss_create_empty_packet.

Definition call_create_response (q : dnss_packet) (a : option (list rr))
    (n : Z) (r : dnss_packet) : M world (Z * dnss_packet) :=
  emit (EvCreateResponse a) ;; mret (dnss_create_response q a n r).

Definition call_create_error_response (q r : dnss_packet)
  : M world (Z * dnss_packet) :=
  emit EvCreateErrorResponse ;; mret (dnss_create_error_response q r).

(** [dnss_wire_format(p, response_wire, rsize)]: the status, and whatever
    the call left in the caller's buffer. *)
Definition call_wire_format (p : dnss_packet) : M world Z :=
  fun w =>
    let '(res, o) := dnss_wire_format p (out w) in
    (Next res, {| trace := trace w ++ [EvWireFormat p res]; out := o |}).

Definition ns_answer_request (nameserver : ns_nameserver zdb_database)
    (query_wire : list Z) : M world unit :=
  match dnss_parse_query query_wire with
  | None => return_ (-1)
  | Some query =>
    if qdcount (header query) <=? 0 then return_ (-1) else
    (* start of RCU read critical section *)
    rcu_read_lock;;
    let qname_ldns := ldns_dname_new_frm_data (qname (question0 query)) in
    node ← call_zdb_find_name (zone_db nameserver) qname_ldns;
    response ← call_create_empty_packet;
    match response with
    | None =>
      dnss_destroy_packet;; rcu_read_unlock;; return_ (-1)
    | Some response =>
      response ←
        match node with
        | None =>
          r ← call_create_response query None 0 response;
          if negb (fst r =? 0) then
            dnss_destroy_packet;; dnss_destroy_packet;;
            rcu_read_unlock;; return_ (-1)
          else mret (snd r)
        | Some node =>
          answers ← call_zn_find_rrset node (qtype (question0 query));
          r ← call_create_response query answers
                (ldns_rr_list_rr_count answers) response;
          if negb (fst r =? 0) then
            dnss_destroy_packet;; dnss_destroy_packet;;
            rcu_read_unlock;; return_ (-1)
          else mret (snd r)
        end;
      (* end of RCU read critical section (all data copied) *)
      rcu_read_unlock;;
      res ← call_wire_format response;
      (if negb (res =? 0) then
         r ← call_create_error_response query response;
         if negb (fst r =? 0) then
           dnss_destroy_packet;; dnss_destroy_packet;; return_ (-1)
         else
           res ← call_wire_format (snd r);
           assert_ (negb (res =? 0))
       else mret tt);;
      dnss_destroy_packet;; dnss_destroy_packet;;
      return_ 0
    end
  end.

(** One call, from an empty trace and the caller's buffer. *)
Definition run_ns_answer_request (ns : ns_nameserver zdb_database) (query_wire : list Z)
    (o : outbuf) : result unit * world :=
  ns_answer_request ns query_wire {| trace := []; out := o |}.

(** The response the RCU section builds, as a function of the lookups:
    the rrset of the queried type when the name has a node, an empty
    answer otherwise. *)
Definition built_response (ns : ns_nameserver zdb_database)
    (query response : dnss_packet) : Z * dnss_packet :=
  let qname_ldns := ldns_dname_new_frm_data (qname (question0 query)) in
  match zdb_find_name (zone_db ns) qname_ldns with
  | None => dnss_create_response query None 0 response
  | Some node =>
    let answers := zn_find_rrset node (qtype (question0 query)) in
    dnss_create_response query answers (ldns_rr_list_rr_count answers)
      response
  end.

End WithLibraries.

(** *** Reading a trace *)

(** The lease discipline along a trace, [held] telling whether the read
    lock is held and [built] whether the response has been built: the lock
    is not taken twice, it is released only when held, the zone database
    and the node are touched only under it (the lookup, [zn_find_rrset],
    and the copy of the rrset in [dnss_create_response]), the response is
    encoded only once it has been built and the lock released, and nothing
    is held at the end. *)
Fixpoint lease_ok (held built : bool) (t : list event) : bool :=
  match t with
  | [] => negb held
  | EvRcuReadLock :: t => negb held && lease_ok true built t
  | EvRcuReadUnlock :: t => held && lease_ok false built t
  | EvZdbFindName _ :: t => held && lease_ok held built t
  | EvZnFindRrset _ :: t => held && lease_ok held built t
  | EvCreateResponse _ :: t => held && lease_ok held true t
  | EvWireFormat _ _ :: t => negb held && built && lease_ok held built t
  | _ :: t => lease_ok held built t
  end.

Definition is_lock (e : event) : bool :=
  match e with EvRcuReadLock => true | _ => false end.
Definition is_unlock (e : event) : bool :=
  match e with EvRcuReadUnlock => true | _ => false end.

Definition count (f : event -> bool) (t : list event) : nat :=
  length (filter (fun e => f e = true) t).

(** The packets handed to [dnss_wire_format], in order, with its status. *)
Fixpoint wire_formats (t : list event) : list (dnss_packet * Z) :=
  match t with
  | [] => []
  | EvWireFormat p res :: t => (p, res) :: wire_formats t
  | _ :: t => wire_formats t
  end.

(** *** Header flag word (RFC 1035, 4.1.1) *)

Definition FLAG_QR : Z := 0x8000.
Definition FLAG_AA : Z := 0x0400.
Definition FLAG_TC : Z := 0x0200.
Definition RCODE_SERVFAIL : Z := 2.
Definition rcode (h : dnss_header) : Z := Z.land (flags h) 0xF.
Definition tc (h : dnss_header) : bool := Z.testbit (flags h) 9.

(** The size policy in the words of the specification: "set TC (truncated)
    and re-encode keeping only the header and the question". *)
Definition truncated (p : dnss_packet) : dnss_packet :=
  {| header := {| id := id (header p);
                  flags := Z.lor (flags (header p)) FLAG_TC;
                  qdcount := qdcount (header p);
                  ancount := 0; nscount := 0; arcount := 0 |};
     questions := questions p;
     answers := [] |}.

(** *** A small implementation of the libraries

    [dns-simple.c], [zone-database.c] and [zone-node.c] are not part of the
    sources at hand.  The instance below is used to run [ns_answer_request]
    on concrete datagrams. *)

Module Reference.

Definition be16 (hi lo : Z) : Z := Z.lor (Z.shiftl hi 8) lo.
Definition put16 (v : Z) : list Z := [Z.land (Z.shiftr v 8) 0xFF; Z.land v 0xFF].

(** Labels up to and including the root label; [None] when the wire ends
    first. *)
Fixpoint parse_name (fuel : nat) (w : list Z) : option (list Z * list Z) :=
  match fuel, w with
  | O, _ | _, [] => None
  | S fuel, len :: w' =>
    if len =? 0 then Some ([0], w')
    else
      let n := Z.to_nat len in
      if (length w' <? n)%nat then None
      else match parse_name fuel (drop n w') with
           | Some (name, rest) => Some (len :: take n w' ++ name, rest)
           | None => None
           end
  end.

(** Modelled from the spec: [parse(buf) → message | ParseError] of the
    wire codec, for a header and at most one question ([dns-simple.c] is
    missing). *)
Definition parse_query (w : list Z) : option dnss_packet :=
  match w with
  | i1 :: i0 :: f1 :: f0 :: q1 :: q0 :: a1 :: a0 :: n1 :: n0 :: r1 :: r0 :: body =>
    let h := {| id := be16 i1 i0; flags := be16 f1 f0;
                qdcount := be16 q1 q0; ancount := be16 a1 a0;
                nscount := be16 n1 n0; arcount := be16 r1 r0 |} in
    if qdcount h =? 0 then
      Some {| header := h; questions := []; answers := [] |}
    else
      match parse_name (length body) body with
      | Some (name, t1 :: t0 :: c1 :: c0 :: _) =>
        Some {| header := h;
                questions := [{| qname := name; qtype := be16 t1 t0;
                                 qclass := be16 c1 c0 |}];
                answers := [] |}
      | _ => None
      end
  | _ => None
  end.

Definition encode (p : dnss_packet) : list Z :=
  let h := header p in
  put16 (id h) ++ put16 (flags h) ++ put16 (qdcount h) ++ put16 (ancount h)
  ++ put16 (nscount h) ++ put16 (arcount h)
  ++ concat (map (fun q => qname q ++ put16 (qtype q) ++ put16 (qclass q))
               (questions p))
  ++ concat (answers p).

(** Modelled from the spec: [encode(message, buf) → len | EncodeError];
    the encoding either fits the space announced in [*rsize] and is
    written, or the call fails ([dns-simple.c] is missing). *)
Definition wire_format (p : dnss_packet) (o : outbuf) : Z * outbuf :=
  let w := encode p in
  if rsize o <? Z.of_nat (length w) then (-1, o)
  else (0, {| response_wire := w; rsize := Z.of_nat (length w) |}).

Definition empty_packet : dnss_packet :=
  {| header := {| id := 0; flags := 0; qdcount := 0; ancount := 0;
                  nscount := 0; arcount := 0 |};
     questions := []; answers := [] |}.

Definition create_response (q : dnss_packet) (a : option (list rr)) (n : Z)
    (r : dnss_packet) : Z * dnss_packet :=
  (0, {| header := {| id := id (header q);
                      flags := Z.lor FLAG_QR FLAG_AA;
                      qdcount := qdcount (header q);
                      ancount := n; nscount := 0; arcount := 0 |};
         questions := questions q;
         answers := default [] a |}).

(** The error response is the one the code announces when the first
    encoding fails: "Response too long, returning SERVFAIL response." *)
Definition create_error_response (q r : dnss_packet) : Z * dnss_packet :=
  (0, {| header := {| id := id (header q);
                      flags := Z.lor FLAG_QR RCODE_SERVFAIL;
                      qdcount := qdcount (header q);
                      ancount := 0; nscount := 0; arcount := 0 |};
         questions := questions q;
         answers := [] |}).

(** A zone database as a list of names with their nodes, a node as a
    list of types with their rrsets. *)
Definition node := list (Z * list rr).
Definition database := list (list Z * node).

Definition find_name (db : database) (n : list Z) : option node :=
  snd <$> find (fun e => bool_decide (fst e = n)) db.
Definition find_rrset (nd : node) (t : Z) : option (list rr) :=
  snd <$> find (fun e => fst e =? t) nd.

#[export] Instance libraries : Libraries database node := {|
  dnss_parse_query := parse_query;
  ldns_dname_new_frm_data := fun n => n;
  zdb_find_name := find_name;
  zn_find_rrset := find_rrset;
  dnss_create_empty_packet := Some empty_packet;
  dnss_create_response := create_response;
  dnss_create_error_response := create_error_response;
  dnss_wire_format := wire_format |}.

(** [a.example.], with an A record and an oversized TXT rrset. *)
Definition a_example : list Z :=
  [1; 97; 7; 101; 120; 97; 109; 112; 108; 101; 0].
Definition zone : database :=
  [(a_example, [(1, [[192; 0; 2; 1]]); (16, [repeat 120 600])])].
Definition server : ns_nameserver database := {| zone_db := zone |}.

(** A query for [a.example.] of the given type, id 0x1234. *)
Definition query_for (t : Z) : list Z :=
  [0x12; 0x34; 0; 0; 0; 1; 0; 0; 0; 0; 0; 0] ++ a_example ++ put16 t ++ [0; 1].

Definition buffer : outbuf := {| response_wire := []; rsize := 512 |}.

(** The query of a type as parsed; for TXT, the response built for it and
    the error response to it. *)
Definition txt_query_of (t : Z) : dnss_packet :=
  {| header := {| id := 0x1234; flags := 0; qdcount := 1; ancount := 0;
                  nscount := 0; arcount := 0 |};
     questions := [{| qname := a_example; qtype := t; qclass := 1 |}];
     answers := [] |}.
Definition txt_query : dnss_packet := txt_query_of 16.
Definition txt_response : dnss_packet :=
  snd (create_response txt_query (Some [repeat 120 600]) 1 empty_packet).
Definition txt_error_response : dnss_packet :=
  snd (create_error_response txt_query txt_response).

End Reference.

End NameServer.

(** ** libknot: error codes, layer states, packets

    [libknot/errcode.h], [knot/query/layer.h] and [libknot/packet/pkt.h]
    are not part of the sources at hand; what the handlers and the NOTIFY
    code use of them is set down here. *)

Module Libknot.

Definition KNOT_EOK : Z := 0.
Definition KNOT_ENOMEM : Z := -12.
Definition KNOT_WIRE_HEADER_SIZE : Z := 12.
Definition KNOT_WIRE_MAX_PKTSIZE : Z := 65535.
Definition KNOT_OPCODE_NOTIFY : Z := 4.
Definition KNOT_RCODE_NOERROR : Z := 0.
Definition KNOT_RCODE_FORMERR : Z := 1.
Definition KNOT_CLASS_IN : Z := 1.
Definition KNOT_RRTYPE_SOA : Z := 6.
Definition KNOT_RRTYPE_OPT : Z := 41.

(** Modelled from the spec: the layer states, "a uniform state machine
    with states {PRODUCE, CONSUME, DONE, FAIL, RESET}". *)
Inductive knot_layer_state :=
| KNOT_STATE_CONSUME
| KNOT_STATE_PRODUCE
| KNOT_STATE_RESET
| KNOT_STATE_DONE
| KNOT_STATE_FAIL.

#[global] Instance knot_layer_state_eq_dec : EqDecision knot_layer_state.
Proof. solve_decision. Defined.

Definition knot_dname_t := list Z.

Record knot_rrset_t := {
  owner : knot_dname_t; rtype : Z; rclass : Z; ttl : Z; rdata : list Z }.

Inductive knot_section_t := KNOT_ANSWER | KNOT_AUTHORITY | KNOT_ADDITIONAL.

#[global] Instance knot_section_t_eq_dec : EqDecision knot_section_t.
Proof. solve_decision. Defined.

(** Modelled from the spec: the DNS message, "an ordered triple of
    (header, question, sections).  Header carries a 16-bit ID, opcode,
    response/authoritative/truncated/rd/ra flags, rcode [...].  A question
    is (name, type, class).  Sections (answer, authority, additional) are
    ordered sequences of resource records", together with the buffer the
    packet lives in ([wire], [max_size]), the bytes in use ([size]) and the
    [parsed_bytes] count of the codec ([parsed]). *)
Record knot_pkt_t := {
  wire : list Z;
  max_size : Z;
  size : Z;
  parsed : Z;
  wire_id : Z;
  wire_qr : bool;
  wire_opcode : Z;
  wire_aa : bool;
  wire_tc : bool;
  wire_rcode : Z;
  question : option (knot_dname_t * Z * Z);   (* qname, qclass, qtype *)
  current : knot_section_t;
  answer : list knot_rrset_t;
  authority : list knot_rrset_t;
  additional : list knot_rrset_t }.

Definition rrset_wire_size (rr : knot_rrset_t) : Z :=
  Z.of_nat (length (owner rr)) + 10 + Z.of_nat (length (rdata rr)).

(** Modelled from the spec: a message laid over a caller's buffer,
    [knot_pkt_new(wire, len, mm)]; the packet spans the whole buffer and
    nothing is parsed yet ([libknot/packet/pkt.c] is missing). *)
Definition knot_pkt_new (buf : list Z) (len : Z) : knot_pkt_t :=
  {| wire := buf; max_size := len; size := len; parsed := 0;
     wire_id := 0; wire_qr := false; wire_opcode := 0; wire_aa := false;
     wire_tc := false; wire_rcode := 0; question := None;
     current := KNOT_ANSWER; answer := []; authority := [];
     additional := [] |}.

(** Modelled from the spec: [knot_pkt_clear], back to an empty message that
    holds a header only ([libknot/packet/pkt.c] is missing). *)
Definition knot_pkt_clear (pkt : knot_pkt_t) : knot_pkt_t :=
  {| wire := wire pkt; max_size := max_size pkt;
     size := KNOT_WIRE_HEADER_SIZE; parsed := 0;
     wire_id := 0; wire_qr := false; wire_opcode := 0; wire_aa := false;
     wire_tc := false; wire_rcode := 0; question := None;
     current := KNOT_ANSWER; answer := []; authority := [];
     additional := [] |}.

(** Modelled from the spec: the setters of the header fields, "a 16-bit ID,
    opcode, response/authoritative/truncated/rd/ra flags, rcode"
    ([libknot/packet/wire.h] is missing). *)
Definition knot_wire_set_id (pkt : knot_pkt_t) (i : Z) : knot_pkt_t :=
  {| wire := wire pkt; max_size := max_size pkt; size := size pkt;
     parsed := parsed pkt; wire_id := i; wire_qr := wire_qr pkt;
     wire_opcode := wire_opcode pkt; wire_aa := wire_aa pkt;
     wire_tc := wire_tc pkt; wire_rcode := wire_rcode pkt;
     question := question pkt; current := current pkt;
     answer := answer pkt; authority := authority pkt;
     additional := additional pkt |}.

(** Modelled from the spec: sets the response flag of the header
    ([libknot/packet/wire.h] is missing). *)
Definition knot_wire_set_qr (pkt : knot_pkt_t) : knot_pkt_t :=
  {| wire := wire pkt; max_size := max_size pkt; size := size pkt;
     parsed := parsed pkt; wire_id := wire_id pkt; wire_qr := true;
     wire_opcode := wire_opcode pkt; wire_aa := wire_aa pkt;
     wire_tc := wire_tc pkt; wire_rcode := wire_rcode pkt;
     question := question pkt; current := current pkt;
     answer := answer pkt; authority := authority pkt;
     additional := additional pkt |}.

(** Modelled from the spec: sets the opcode of the header
    ([libknot/packet/wire.h] is missing). *)
Definition knot_wire_set_opcode (pkt : knot_pkt_t) (op : Z) : knot_pkt_t :=
  {| wire := wire pkt; max_size := max_size pkt; size := size pkt;
     parsed := parsed pkt; wire_id := wire_id pkt; wire_qr := wire_qr pkt;
     wire_opcode := op; wire_aa := wire_aa pkt;
     wire_tc := wire_tc pkt; wire_rcode := wire_rcode pkt;
     question := question pkt; current := current pkt;
     answer := answer pkt; authority := authority pkt;
     additional := additional pkt |}.

(** Modelled from the spec: sets the authoritative flag of the header
    ([libknot/packet/wire.h] is missing). *)
Definition knot_wire_set_aa (pkt : knot_pkt_t) : knot_pkt_t :=
  {| wire := wire pkt; max_size := max_size pkt; size := size pkt;
     parsed := parsed pkt; wire_id := wire_id pkt; wire_qr := wire_qr pkt;
     wire_opcode := wire_opcode pkt; wire_aa := true;
     wire_tc := wire_tc pkt; wire_rcode := wire_rcode pkt;
     question := question pkt; current := current pkt;
     answer := answer pkt; authority := authority pkt;
     additional := additional pkt |}.

(** Modelled from the spec: sets the rcode of the header
    ([libknot/packet/wire.h] is missing). *)
Definition knot_wire_set_rcode (pkt : knot_pkt_t) (rc : Z) : knot_pkt_t :=
  {| wire := wire pkt; max_size := max_size pkt; size := size pkt;
     parsed := parsed pkt; wire_id := wire_id pkt; wire_qr := wire_qr pkt;
     wire_opcode := wire_opcode pkt; wire_aa := wire_aa pkt;
     wire_tc := wire_tc pkt; wire_rcode := rc;
     question := question pkt; current := current pkt;
     answer := answer pkt; authority := authority pkt;
     additional := additional pkt |}.

(** [pkt->parsed = n]. *)
Definition set_parsed (pkt : knot_pkt_t) (n : Z) : knot_pkt_t :=
  {| wire := wire pkt; max_size := max_size pkt; size := size pkt;
     parsed := n; wire_id := wire_id pkt; wire_qr := wire_qr pkt;
     wire_opcode := wire_opcode pkt; wire_aa := wire_aa pkt;
     wire_tc := wire_tc pkt; wire_rcode := wire_rcode pkt;
     question := question pkt; current := current pkt;
     answer := answer pkt; authority := authority pkt;
     additional := additional pkt |}.

(** Modelled from the spec: [knot_pkt_put_question] writes the question
    "(name, type, class)", only into a packet that holds a bare header and
    only if the question fits; the packet is left as it was otherwise
    ([libknot/packet/pkt.c] is missing). *)
Definition knot_pkt_put_question (pkt : knot_pkt_t) (qname : knot_dname_t)
    (qclass qtype : Z) : knot_pkt_t :=
  let qsize := Z.of_nat (length qname) + 4 in
  if negb (size pkt =? KNOT_WIRE_HEADER_SIZE) then pkt
  else if max_size pkt <? size pkt + qsize then pkt
  else
    {| wire := wire pkt; max_size := max_size pkt; size := size pkt + qsize;
       parsed := parsed pkt; wire_id := wire_id pkt; wire_qr := wire_qr pkt;
       wire_opcode := wire_opcode pkt; wire_aa := wire_aa pkt;
       wire_tc := wire_tc pkt; wire_rcode := wire_rcode pkt;
       question := Some (qname, qclass, qtype); current := current pkt;
       answer := answer pkt; authority := authority pkt;
       additional := additional pkt |}.

(** Modelled from the spec: [knot_pkt_begin] selects the section, of
    "answer, authority, additional", that [knot_pkt_put] appends to
    ([libknot/packet/pkt.c] is missing). *)
Definition knot_pkt_begin (pkt : knot_pkt_t) (s : knot_section_t)
  : knot_pkt_t :=
  {| wire := wire pkt; max_size := max_size pkt; size := size pkt;
     parsed := parsed pkt; wire_id := wire_id pkt; wire_qr := wire_qr pkt;
     wire_opcode := wire_opcode pkt; wire_aa := wire_aa pkt;
     wire_tc := wire_tc pkt; wire_rcode := wire_rcode pkt;
     question := question pkt; current := s;
     answer := answer pkt; authority := authority pkt;
     additional := additional pkt |}.

(** Modelled from the spec: [knot_pkt_put] appends the rrset to the current
    section, sections being "ordered sequences of resource records", when
    it fits the buffer; the packet is left as it was otherwise, and the
    callers below ignore its status ([libknot/packet/pkt.c] is missing). *)
Definition knot_pkt_put (pkt : knot_pkt_t) (rr : knot_rrset_t) : knot_pkt_t :=
  if max_size pkt <? size pkt + rrset_wire_size rr then pkt
  else
    let put s l := if decide (current pkt = s) then l ++ [rr] else l in
    {| wire := wire pkt; max_size := max_size pkt;
       size := size pkt + rrset_wire_size rr;
       parsed := parsed pkt; wire_id := wire_id pkt; wire_qr := wire_qr pkt;
       wire_opcode := wire_opcode pkt; wire_aa := wire_aa pkt;
       wire_tc := wire_tc pkt; wire_rcode := wire_rcode pkt;
       question := question pkt; current := current pkt;
       answer := put KNOT_ANSWER (answer pkt);
       authority := put KNOT_AUTHORITY (authority pkt);
       additional := put KNOT_ADDITIONAL (additional pkt) |}.

(** Modelled from the spec: the extended rcode of a response,
    [knot_pkt_ext_rcode]; 0 for a missing packet ([libknot/packet/pkt.c] is
    missing). *)
Definition knot_pkt_ext_rcode (pkt : option knot_pkt_t) : Z :=
  match pkt with Some p => wire_rcode p | None => 0 end.

(** *** The layer ([knot_layer_t], [knot_layer_api_t])

    A layer carries its state and its private data; the API is a table of
    functions, any of which may be missing.  Each function is handed the
    layer and returns the next state, with the data and the packet as it
    leaves them. *)
Record knot_layer_t (D : Type) := {
  state : knot_layer_state;
  data : D }.
Arguments state {D} _.
Arguments data {D} _.

Class knot_layer_api_t (D P : Type) := {
  api_begin : option (knot_layer_t D -> P -> D * knot_layer_state);
  api_consume :
    option (knot_layer_t D -> knot_pkt_t -> D * knot_layer_state);
  api_produce :
    option (knot_layer_t D -> knot_pkt_t ->
            D * knot_pkt_t * knot_layer_state);
  api_finish : option (knot_layer_t D -> D * knot_layer_state) }.

Section Layer.

Context {D P : Type} {api : knot_layer_api_t D P}.

(** Modelled from the spec: "[begin(params)] → initial state",
    "[consume(incoming_pkt)] → next state", "[produce(outgoing_pkt)] →
    next state", "[finish()] → releases any layer-local state".  The
    layer takes the state the function returns; a function missing from
    the table leaves the layer as it is. *)
Definition knot_layer_begin (l : knot_layer_t D) (params : P)
  : knot_layer_t D :=
  match api_begin with
  | Some f => let '(d, st) := f l params in {| state := st; data := d |}
  | None => l
  end.

(** Modelled from the spec: "[consume(incoming_pkt)] → next state"
    ([knot/query/layer.h] is missing). *)
Definition knot_layer_consume (l : knot_layer_t D) (pkt : knot_pkt_t)
  : knot_layer_t D :=
  match api_consume with
  | Some f => let '(d, st) := f l pkt in {| state := st; data := d |}
  | None => l
  end.

(** Modelled from the spec: "[produce(outgoing_pkt)] → next state"
    ([knot/query/layer.h] is missing). *)
Definition knot_layer_produce (l : knot_layer_t D) (pkt : knot_pkt_t)
  : knot_layer_t D * knot_pkt_t :=
  match api_produce with
  | Some f =>
    let '(d, pkt', st) := f l pkt in ({| state := st; data := d |}, pkt')
  | None => (l, pkt)
  end.

(** Modelled from the spec: "[finish()] → releases any layer-local state"
    ([knot/query/layer.h] is missing). *)
Definition knot_layer_finish (l : knot_layer_t D) : knot_layer_t D :=
  match api_finish with
  | Some f => let '(d, st) := f l in {| state := st; data := d |}
  | None => l
  end.

End Layer.

End Libknot.

(** ** Outbound NOTIFY ([notify_produce], [send_notify]) *)

Module Notify.

Import Libknot.

(** [query_edns_data_t] of [knot/query/query.h]. *)
Record query_edns_data_t := { max_payload : Z; do_flag : bool }.

(** NOTIFY message processing data. *)
Record notify_data := {
  zone : knot_dname_t;
  soa : option knot_rrset_t;        (* a pointer, NULL when there is none *)
  remote : Z;
  edns : query_edns_data_t }.

(** What surrounds the NOTIFY code: the random message id of
    [query_init_pkt], the allocations, the requestor that runs the layer
    against the remote and hands back its status and the response (NULL
    when none arrived), the serial of an SOA rdata, and the flag of
    [knot/zone/timers.h]. *)
Class Environment := {
  dnssec_random_uint16_t : Z;
  pkt_alloc : Z -> option knot_pkt_t;                (* knot_pkt_new(NULL, len, NULL) *)
  knot_request_make : Z -> Z -> knot_pkt_t -> option knot_pkt_t;
  knot_requestor_exec :
    notify_data -> knot_pkt_t -> Z -> Z * option knot_pkt_t;
  query_edns_data_init : query_edns_data_t;
  knot_soa_serial : list Z -> Z;
  LAST_NOTIFIED_SERIAL_VALID : Z }.

Section WithEnvironment.

Context {E : Environment}.

(** Modelled from the spec: [query_init_pkt], an empty message with a fresh
    id ([knot/query/query.c] is missing). *)
Definition query_init_pkt (pkt : knot_pkt_t) : knot_pkt_t :=
  knot_wire_set_id (knot_pkt_clear pkt) dnssec_random_uint16_t.

(** Modelled from the spec: "if EDNS was present, emit OPT in additional
    mirroring negotiated payload size and setting version 0"; the OPT
    record has the root name as owner, the payload size as class, and
    the version and flags in the TTL ([knot/query/query.c] is
    missing). *)
Definition query_put_edns (pkt : knot_pkt_t) (e : query_edns_data_t)
  : knot_pkt_t :=
  let opt_rr := {| owner := [0]; rtype := KNOT_RRTYPE_OPT;
                   rclass := max_payload e;
                   ttl := if do_flag e then 0x8000 else 0;
                   rdata := [] |} in
  knot_pkt_put (knot_pkt_begin pkt KNOT_ADDITIONAL) opt_rr.

Definition notify_begin (layer : knot_layer_t notify_data)
    (params : notify_data) : notify_data * knot_layer_state :=
  (params, KNOT_STATE_PRODUCE).

Definition notify_produce (layer : knot_layer_t notify_data)
    (pkt : knot_pkt_t) : notify_data * knot_pkt_t * knot_layer_state :=
  let data := data layer in
  (* mandatory: NOTIFY opcode, AA flag, SOA qtype *)
  let pkt := query_init_pkt pkt in
  let pkt := knot_wire_set_opcode pkt KNOT_OPCODE_NOTIFY in
  let pkt := knot_wire_set_aa pkt in
  let pkt :=
    knot_pkt_put_question pkt (zone data) KNOT_CLASS_IN KNOT_RRTYPE_SOA in
  (* unsecure hint: new SOA *)
  let pkt :=
    match soa data with
    | Some s => knot_pkt_put (knot_pkt_begin pkt KNOT_ANSWER) s
    | None => pkt
    end in
  let pkt := query_put_edns pkt (edns data) in
  (data, pkt, KNOT_STATE_CONSUME).

Definition notify_consume (layer : knot_layer_t notify_data)
    (pkt : knot_pkt_t) : notify_data * knot_layer_state :=
  (data layer, KNOT_STATE_DONE).

#[export] Instance NOTIFY_API : knot_layer_api_t notify_data notify_data := {|
  api_begin := Some notify_begin;
  api_produce := Some notify_produce;
  api_consume := Some notify_consume;
  api_finish := None |}.

Record zone_t := {
  name : knot_dname_t;
  last_notified_serial : Z }.     (* [zone->timers.last_notified_serial] *)

Record conf_remote_t := { addr : Z; via : Z }.

(** The three log lines of [send_notify]. *)
Inductive log_entry :=
| LogInfoSerial (serial : Z)              (* "serial %u" *)
| LogWarningFailed (ret : Z)              (* "failed (%s)" *)
| LogWarningRcode (rcode : Z).  (* "server responded with error '%s'" *)

Definition send_notify (zone : zone_t) (soa : knot_rrset_t)
    (slave : conf_remote_t) (timeout : Z) : Z * zone_t * list log_entry :=
  let data := {| Notify.zone := name zone; Notify.soa := Some soa;
                 remote := addr slave;
                 edns := query_edns_data_init |} in
  match pkt_alloc KNOT_WIRE_MAX_PKTSIZE with
  | None => (KNOT_ENOMEM, zone, [])
  | Some pkt =>
    match knot_request_make (addr slave) (via slave) pkt with
    | None => (KNOT_ENOMEM, zone, [])
    | Some req =>
      let '(ret, resp) := knot_requestor_exec data req timeout in
      if (ret =? KNOT_EOK) && (knot_pkt_ext_rcode resp =? 0) then
        (ret,
         {| name := name zone;
            last_notified_serial :=
              Z.lor (knot_soa_serial (rdata soa))
                    LAST_NOTIFIED_SERIAL_VALID |},
         [LogInfoSerial (knot_soa_serial (rdata soa))])
      else if knot_pkt_ext_rcode resp =? 0 then
        (ret, zone, [LogWarningFailed ret])
      else
        (ret, zone, [LogWarningRcode (knot_pkt_ext_rcode resp)])
    end
  end.

(** The success branch of [send_notify], read off its log. *)
Definition notified (r : Z * zone_t * list log_entry) : bool :=
  match snd r with
  | [LogInfoSerial _] => true
  | _ => false
  end.

End WithEnvironment.

(** *** A concrete environment

    Remote 1 answers REFUSED (rcode 5), remote 2 never answers, the
    exchange times out and the response packet of the request stays empty,
    every other remote answers NOERROR. *)
Module Reference.

Definition refused : knot_pkt_t :=
  knot_wire_set_rcode (knot_wire_set_qr
    (knot_pkt_clear (knot_pkt_new [] KNOT_WIRE_MAX_PKTSIZE))) 5.
Definition noerror : knot_pkt_t :=
  knot_wire_set_qr (knot_pkt_clear (knot_pkt_new [] KNOT_WIRE_MAX_PKTSIZE)).
Definition unanswered : knot_pkt_t :=
  knot_pkt_clear (knot_pkt_new [] KNOT_WIRE_MAX_PKTSIZE).

(** The serial is the first 32-bit field after the two names of an SOA
    rdata; here both names are the root. *)
Definition soa_serial (rd : list Z) : Z :=
  match rd with
  | _ :: _ :: b3 :: b2 :: b1 :: b0 :: _ =>
    Z.lor (Z.shiftl b3 24) (Z.lor (Z.shiftl b2 16) (Z.lor (Z.shiftl b1 8) b0))
  | _ => 0
  end.

#[export] Instance environment : Environment := {|
  dnssec_random_uint16_t := 0xBEEF;
  pkt_alloc := fun len => Some (knot_pkt_clear (knot_pkt_new [] len));
  knot_request_make := fun dst src pkt => Some pkt;
  knot_requestor_exec := fun d req timeout =>
    if remote d =? 1 then (KNOT_EOK, Some refused)
    else if remote d =? 2 then (-110, Some unanswered)
    else (KNOT_EOK, Some noerror);
  query_edns_data_init := {| max_payload := 1232; do_flag := false |};
  knot_soa_serial := soa_serial;
  LAST_NOTIFIED_SERIAL_VALID := Z.shiftl 1 32 |}.

Definition example : knot_dname_t := [7; 101; 120; 97; 109; 112; 108; 101; 0].
Definition example_soa : knot_rrset_t :=
  {| owner := example; rtype := KNOT_RRTYPE_SOA; rclass := KNOT_CLASS_IN;
     ttl := 3600;
     rdata := [0; 0; 0; 0; 0; 42; 0; 0; 14; 16; 0; 0; 3; 132;
               0; 9; 58; 128; 0; 0; 1; 44] |}.
Definition example_zone : zone_t :=
  {| name := example; last_notified_serial := 0 |}.
Definition example_data : notify_data :=
  {| zone := example; soa := Some example_soa; remote := 3;
     edns := {| max_payload := 1232; do_flag := false |} |}.

End Reference.

End Notify.

(** ** The datagram pipeline ([udp_handle], [udp_pktinfo_handle]) *)

Module UdpHandler.

Import Libknot.

Definition KNOTD_QUERY_FLAG_NO_AXFR : Z := 1.
Definition KNOTD_QUERY_FLAG_NO_IXFR : Z := 2.
Definition KNOTD_QUERY_FLAG_LIMIT_SIZE : Z := 4.

(** Query processing parameters. *)
Record knotd_qdata_params_t := {
  remote : Z;
  flags : Z;
  socket : Z;
  thread_id : Z }.

(** UDP context data. *)
Record udp_context_t (D : Type) := {
  layer : knot_layer_t D;       (* query processing layer *)
  udp_thread_id : Z }.
Arguments layer {D} _.
Arguments udp_thread_id {D} _.

Record iovec := { iov_base : list Z; iov_len : Z }.

Definition udp_state_active (state : knot_layer_state) : bool :=
  bool_decide (state = KNOT_STATE_PRODUCE)
  || bool_decide (state = KNOT_STATE_FAIL).

(** The calls [udp_handle] makes into the layer and the memory pool. *)
Inductive call :=
| CallBegin (params : knotd_qdata_params_t)
| CallConsume (query : knot_pkt_t)
| CallProduce
| CallFinish
| CallFlush.

(** [knot_pkt_parse(pkt, 0)] of the wire codec: its status, and the packet
    with the parsed header and question and the count of parsed bytes. *)
Class Codec := { knot_pkt_parse : knot_pkt_t -> Z * knot_pkt_t }.

(** What [udp_handle] leaves behind: the context, the TX vector, the
    answer packet (it lives in the TX buffer, which outlasts the flush of
    the per-query memory), and the calls made. *)
Record handled (D : Type) := {
  udp_after : udp_context_t D;
  tx_after : iovec;
  ans_after : knot_pkt_t;
  calls : list call }.
Arguments udp_after {D} _.
Arguments tx_after {D} _.
Arguments ans_after {D} _.
Arguments calls {D} _.

Section Handle.

Context {D : Type} {api : knot_layer_api_t D knotd_qdata_params_t}
        {codec : Codec}.

(** [while (udp_state_active(udp->layer.state)) knot_layer_produce(...)];
    [None] when the fuel runs out before the layer leaves PRODUCE and
    FAIL. *)
Fixpoint produce_loop (fuel : nat) (l : knot_layer_t D) (ans : knot_pkt_t)
    (cs : list call) : option (knot_layer_t D * knot_pkt_t * list call) :=
  if udp_state_active (state l) then
    match fuel with
    | O => None
    | S fuel =>
      let '(l, ans) := knot_layer_produce l ans in
      produce_loop fuel l ans (cs ++ [CallProduce])
    end
  else Some (l, ans, cs).

(** The input packet as [udp_handle] hands it to the layer. *)
Definition input_packet (rx : iovec) : knot_pkt_t :=
  let query := knot_pkt_new (iov_base rx) (iov_len rx) in
  let '(ret, query) := knot_pkt_parse query in
  if negb (ret =? KNOT_EOK) && (0 <? parsed query)
  then (* parsing failed (e.g. 2x OPT) *)
    set_parsed query (parsed query - 1)
  else query.

Definition udp_handle (fuel : nat) (udp : udp_context_t D) (fd : Z)
    (ss : Z) (rx tx : iovec) : option (handled D) :=
  (* Create query processing parameter. *)
  let params := {| remote := ss;
                   flags := Z.lor KNOTD_QUERY_FLAG_NO_AXFR
                              (Z.lor KNOTD_QUERY_FLAG_NO_IXFR
                                     KNOTD_QUERY_FLAG_LIMIT_SIZE);
                   socket := fd;
                   thread_id := udp_thread_id udp |} in
  (* Start query processing. *)
  let l := knot_layer_begin (layer udp) params in
  (* Create packets. *)
  let ans := knot_pkt_new (iov_base tx) (iov_len tx) in
  (* Input packet. *)
  let query := input_packet rx in
  let l := knot_layer_consume l query in
  (* Process answer. *)
  match produce_loop fuel l ans [CallBegin params; CallConsume query] with
  | None => None
  | Some (l, ans, cs) =>
    (* Send response only if finished successfully. *)
    let tx := if decide (state l = KNOT_STATE_DONE)
              then {| iov_base := iov_base tx; iov_len := size ans |}
              else {| iov_base := iov_base tx; iov_len := 0 |} in
    (* Reset after processing. *)
    let l := knot_layer_finish l in
    (* Flush per-query memory. *)
    Some {| udp_after := {| layer := l;
                            udp_thread_id := udp_thread_id udp |};
            tx_after := tx;
            ans_after := ans;
            calls := cs ++ [CallFinish; CallFlush] |}
  end.

(** The layer and the answer after [n] calls of [knot_layer_produce]. *)
Fixpoint produce_n (n : nat) (l : knot_layer_t D) (ans : knot_pkt_t)
  : knot_layer_t D * knot_pkt_t :=
  match n with
  | O => (l, ans)
  | S n => let '(l, ans) := knot_layer_produce l ans in produce_n n l ans
  end.

End Handle.

(** [udp_recvfrom_send]: the datagram handed to [sendmsg], if any. *)
Definition udp_recvfrom_send (tx : iovec) (ans : knot_pkt_t)
  : option (knot_pkt_t * Z) :=
  if 0 <? iov_len tx then Some (ans, iov_len tx) else None.

(** *** Ancillary data ([udp_pktinfo_handle])

    Control buffers live in a store shared by the RX and the TX message
    header: [msg_control] is an address into it, NULL is [None].  A buffer
    holds one control message, which is what [cmsg_pktinfo_t] has room
    for.  The embedding is that of a build with [__linux__] or [__APPLE__]
    defined, where the PKTINFO block is compiled in; the constants are
    those of Linux. *)

Definition IPPROTO_IP : Z := 0.
Definition IP_PKTINFO : Z := 8.
Definition IPPROTO_IPV6 : Z := 41.
Definition IPV6_PKTINFO : Z := 50.
Definition sizeof_cmsghdr : Z := 16.

Record in_pktinfo := {
  ipi_ifindex : Z;        (* interface index *)
  ipi_spec_dst : Z;       (* local address: the source of what is sent *)
  ipi_addr : Z }.         (* header destination address *)

Record in6_pktinfo := {
  ipi6_addr : Z;          (* src/dst IPv6 address *)
  ipi6_ifindex : Z }.     (* send/recv interface index *)

(** [CMSG_DATA(cmsg)], by what the kernel stored there. *)
Inductive cmsg_payload :=
| Data_in_pktinfo (info : in_pktinfo)
| Data_in6_pktinfo (info : in6_pktinfo)
| Data_other (bytes : list Z).

Record cmsghdr := {
  cmsg_len : Z;
  cmsg_level : Z;
  cmsg_type : Z;
  cmsg_data : cmsg_payload }.

Record msghdr := {
  msg_namelen : Z;
  msg_control : option positive;
  msg_controllen : Z }.

Definition CMSG_FIRSTHDR (m : msghdr) : option positive :=
  if sizeof_cmsghdr <=? msg_controllen m then msg_control m else None.

(** The TX header and the store after the call; [None] when the call
    reads through a dangling [msg_control], or reads a payload as a
    structure it is not. *)
Definition udp_pktinfo_handle (rx tx : msghdr) (mem : gmap positive cmsghdr)
  : option (msghdr * gmap positive cmsghdr) :=
  let tx :=
    {| msg_namelen := msg_namelen tx;
       msg_controllen := msg_controllen rx;
       msg_control :=
         if 0 <? msg_controllen rx then msg_control rx
         else None (* BSD has problem with zero length and not-null pointer *)
    |} in
  match CMSG_FIRSTHDR tx with
  | None => Some (tx, mem)
  | Some c =>
    cmsg ← mem !! c;
    (* Unset the ifindex to not bypass the routing tables. *)
    if (cmsg_level cmsg =? IPPROTO_IP) && (cmsg_type cmsg =? IP_PKTINFO) then
      match cmsg_data cmsg with
      | Data_in_pktinfo info =>
        let info := {| ipi_spec_dst := ipi_addr info;
                       ipi_ifindex := 0;
                       ipi_addr := ipi_addr info |} in
        Some (tx, <[c := {| cmsg_len := cmsg_len cmsg;
                            cmsg_level := cmsg_level cmsg;
                            cmsg_type := cmsg_type cmsg;
                            cmsg_data := Data_in_pktinfo info |}]> mem)
      | _ => None
      end
    else if (cmsg_level cmsg =? IPPROTO_IPV6)
            && (cmsg_type cmsg =? IPV6_PKTINFO) then
      match cmsg_data cmsg with
      | Data_in6_pktinfo info =>
        let info := {| ipi6_addr := ipi6_addr info; ipi6_ifindex := 0 |} in
        Some (tx, <[c := {| cmsg_len := cmsg_len cmsg;
                            cmsg_level := cmsg_level cmsg;
                            cmsg_type := cmsg_type cmsg;
                            cmsg_data := Data_in6_pktinfo info |}]> mem)
      | _ => None
      end
    else Some (tx, mem)
  end.

(** *** The query processor

    [knot/nameserver/process_query.c] is not part of the sources at hand.
    The answer to a well-formed query is left to [answer_query]. *)

Record knotd_qdata_t := {
  query : option knot_pkt_t;
  rcode : Z }.

Section ProcessQuery.

Variable answer_query : knot_pkt_t -> knot_pkt_t -> knot_pkt_t.

(** Modelled from the spec: "[begin(params)] → initial state, typically
    CONSUME for server-side". *)
Definition process_query_begin (l : knot_layer_t knotd_qdata_t)
    (params : knotd_qdata_params_t) : knotd_qdata_t * knot_layer_state :=
  ({| query := None; rcode := KNOT_RCODE_NOERROR |}, KNOT_STATE_CONSUME).

(** Modelled from the spec: the query processor's [consume], "if parse
    failed past the header: produce FORMERR with the received ID", and
    for a parse error "produce FORMERR when enough was parsed to extract
    the ID; otherwise drop the datagram silently"
    ([knot/nameserver/process_query.c] is missing).  The processor sees
    the parse through the [parsed_bytes] count the codec leaves in the
    packet: short of the header, the datagram is dropped and the layer
    stays as it was; the header or more but short of the packet, FORMERR
    and FAIL, "a terminal error that may still produce a response"; else
    PRODUCE. *)
Definition process_query_in (l : knot_layer_t knotd_qdata_t)
    (pkt : knot_pkt_t) : knotd_qdata_t * knot_layer_state :=
  if parsed pkt <? KNOT_WIRE_HEADER_SIZE then (data l, state l)
  else if parsed pkt <? size pkt then
    ({| query := Some pkt; rcode := KNOT_RCODE_FORMERR |}, KNOT_STATE_FAIL)
  else
    ({| query := Some pkt; rcode := KNOT_RCODE_NOERROR |},
     KNOT_STATE_PRODUCE).

(** Modelled from the spec: the error response, "FORMERR with the received
    ID", "question echoed empty": a bare header with the id of the query,
    QR and the rcode. *)
Definition error_response (q ans : knot_pkt_t) (rc : Z) : knot_pkt_t :=
  knot_wire_set_rcode
    (knot_wire_set_qr (knot_wire_set_id (knot_pkt_clear ans) (wire_id q)))
    rc.

(** Modelled from the spec: the query processor's [produce]; in FAIL it
    emits the error response and the layer is DONE, in PRODUCE it emits
    the answer. *)
Definition process_query_out (l : knot_layer_t knotd_qdata_t)
    (ans : knot_pkt_t) : knotd_qdata_t * knot_pkt_t * knot_layer_state :=
  match query (data l) with
  | None => (data l, ans, KNOT_STATE_RESET)
  | Some q =>
    if decide (state l = KNOT_STATE_FAIL) then
      (data l, error_response q ans (rcode (data l)), KNOT_STATE_DONE)
    else (data l, answer_query q ans, KNOT_STATE_DONE)
  end.

(** Modelled from the spec: "[finish()] → releases any layer-local
    state". *)
Definition process_query_finish (l : knot_layer_t knotd_qdata_t)
  : knotd_qdata_t * knot_layer_state :=
  ({| query := None; rcode := KNOT_RCODE_NOERROR |}, KNOT_STATE_RESET).

Definition process_query_layer
  : knot_layer_api_t knotd_qdata_t knotd_qdata_params_t := {|
  api_begin := Some process_query_begin;
  api_consume := Some process_query_in;
  api_produce := Some process_query_out;
  api_finish := Some process_query_finish |}.

End ProcessQuery.

(** *** A concrete codec and query processor *)

Module Reference.

Definition KNOT_EMALF : Z := -994.

(** Modelled from the spec: "any octet sequence is either a well-formed
    message up to some prefix, or an error located at a byte offset";
    here for a header followed by at most one question.  Nothing is
    parsed of a datagram shorter than a header; a question that does not
    parse leaves the count at the header. *)
Definition pkt_parse (pkt : knot_pkt_t) : Z * knot_pkt_t :=
  if size pkt <? KNOT_WIRE_HEADER_SIZE then (KNOT_EMALF, pkt)
  else
    let w := take (Z.to_nat (size pkt)) (wire pkt) in
    let pkt := knot_wire_set_id pkt
                 (Z.lor (Z.shiftl (nth 0 w 0) 8) (nth 1 w 0)) in
    let body := drop 12 w in
    match body with
    | [] => (KNOT_EOK, set_parsed pkt (size pkt))
    | _ =>
      match NameServer.Reference.parse_name (length body) body with
      | Some (_, [_; _; _; _]) => (KNOT_EOK, set_parsed pkt (size pkt))
      | _ => (KNOT_EMALF, set_parsed pkt KNOT_WIRE_HEADER_SIZE)
      end
    end.

#[export] Instance codec : Codec := {| knot_pkt_parse := pkt_parse |}.

(** An empty NOERROR answer to every well-formed query. *)
Definition answer (q ans : knot_pkt_t) : knot_pkt_t :=
  error_response q ans KNOT_RCODE_NOERROR.

Definition context : udp_context_t knotd_qdata_t :=
  {| layer := {| state := KNOT_STATE_RESET;
                 data := {| query := None; rcode := 0 |} |};
     udp_thread_id := 0 |}.

(** Three bytes, less than a header. *)
Definition rx_runt : iovec := {| iov_base := [0x12; 0x34; 0]; iov_len := 3 |}.
(** A well-formed query without a question. *)
Definition rx_header : iovec :=
  {| iov_base := [0x12; 0x34; 0; 0; 0; 0; 0; 0; 0; 0; 0; 0]; iov_len := 12 |}.
Definition tx_empty : iovec :=
  {| iov_base := repeat 0 64; iov_len := KNOT_WIRE_MAX_PKTSIZE |}.

(** An IPv4 and an IPv6 PKTINFO as received on interface 3. *)
Definition cmsg4 : cmsghdr :=
  {| cmsg_len := 28; cmsg_level := IPPROTO_IP; cmsg_type := IP_PKTINFO;
     cmsg_data := Data_in_pktinfo
       {| ipi_ifindex := 3; ipi_spec_dst := 0x0A000001;
          ipi_addr := 0xC0000201 |} |}.
Definition cmsg6 : cmsghdr :=
  {| cmsg_len := 36; cmsg_level := IPPROTO_IPV6; cmsg_type := IPV6_PKTINFO;
     cmsg_data := Data_in6_pktinfo
       {| ipi6_addr := 0x20010DB8; ipi6_ifindex := 3 |} |}.
Definition rx_msg (len : Z) : msghdr :=
  {| msg_namelen := 16; msg_control := Some 1%positive;
     msg_controllen := len |}.
Definition tx_msg : msghdr :=
  {| msg_namelen := 16; msg_control := Some 1%positive;
     msg_controllen := 40 |}.

End Reference.

End UdpHandler.

(** ** The QUIC connection table *)

Module Quic.

Definition NGTCP2_MAX_CIDLEN : Z := 20.

(** [ngtcp2_cid]: a length and an array of [NGTCP2_MAX_CIDLEN] bytes. *)
Record ngtcp2_cid := { datalen : Z; data : list Z }.

(** [data[i]]. *)
Definition byte_at (d : list Z) (i : Z) : Z := nth (Z.to_nat i) d 0.

(** Two things the hash leaves to the platform: the byte order in which
    [*it1] reads a [uint64_t], and the value of [*it2 << n], an [int]
    shifted by up to 56 bits and then widened to [uint64_t], which C does
    not define once [n] reaches the width of [int]. *)
Inductive byte_order := LittleEndian | BigEndian.
Class Platform := { order : byte_order; shl_int : Z -> Z -> Z }.

Definition load_le (bs : list Z) : Z :=
  fold_right (fun b acc => Z.lor b (Z.shiftl acc 8)) 0 bs.

Section Hash.

Context {platform : Platform}.

(** The [uint64_t] read at [data + i]. *)
Definition load64 (d : list Z) (i : Z) : Z :=
  let bs := map (fun j => byte_at d (i + j)) (seqZ 0 8) in
  match order with
  | LittleEndian => load_le bs
  | BigEndian => load_le (rev bs)
  end.

(** [for (it1 = data; it1 < end && (end - it1) >= 8; ++it1) hash ^= *it1;]
    with [it1] and [end] as offsets into [data]. *)
Fixpoint hash_words (fuel : nat) (d : list Z) (end_ it1 hash : Z)
  : option (Z * Z) :=
  if (it1 <? end_) && (8 <=? end_ - it1) then
    match fuel with
    | O => None
    | S fuel => hash_words fuel d end_ (it1 + 8) (Z.lxor hash (load64 d it1))
    end
  else Some (hash, it1).

(** [for (it2 = it1; it2 < end; ++it2) hash ^= *it2 << (shift-- * 8);] *)
Fixpoint hash_tail (fuel : nat) (d : list Z) (end_ it2 shift hash : Z)
  : option Z :=
  if it2 <? end_ then
    match fuel with
    | O => None
    | S fuel =>
      hash_tail fuel d end_ (it2 + 1) (shift - 1)
        (Z.lxor hash (shl_int (byte_at d it2) (shift * 8)))
    end
  else Some hash.

(** [None] would be a loop running past the length of the id. *)
Definition knot_quic_conn_hash (dcid : ngtcp2_cid) : option Z :=
  let size := Z.min (datalen dcid) NGTCP2_MAX_CIDLEN in
  '(hash, it1) ← hash_words (Z.to_nat size) (data dcid) size 0 0;
  hash_tail (Z.to_nat size) (data dcid) size it1 (8 - 1) hash.

(** The hash in the words of the specification, "xor-fold of 8-byte
    chunks plus a trailing-bytes fold": the words of the whole chunks,
    then the trailing bytes, each moved to its place from the top byte
    down, folded with xor. *)
Definition xor_fold (l : list Z) : Z := fold_left Z.lxor l 0.

Definition hash_spec (dcid : ngtcp2_cid) : Z :=
  let size := Z.min (datalen dcid) NGTCP2_MAX_CIDLEN in
  let chunks := map (fun k => load64 (data dcid) (8 * k))
                  (seqZ 0 (size / 8)) in
  let trailing :=
    map (fun j => shl_int (byte_at (data dcid) (8 * (size / 8) + j))
                    ((7 - j) * 8))
      (seqZ 0 (size mod 8)) in
  xor_fold (chunks ++ trailing).

End Hash.

(** *** The table

    Connections live in a heap, [conns] holds the heads of the chains and
    [next] links a chain; NULL is [None]. *)
Record knot_quic_conn_t := {
  dcid : ngtcp2_cid;
  conn : option positive;           (* [ngtcp2_conn *] *)
  next : option positive }.

Record knot_quic_table_t := {
  size : Z;
  usage : Z;
  inbufs_total : Z;
  conns : list (option positive) }.

(** [calloc] of one connection: a fresh address, or NULL. *)
Definition calloc (ok : bool) (heap : gmap positive knot_quic_conn_t)
  : option positive :=
  if ok then Some (fresh (dom heap)) else None.

Definition knot_quic_table_new (ok : bool) (size : Z)
  : option knot_quic_table_t :=
  if ok then
    Some {| size := size; usage := 0; inbufs_total := 0;
            conns := replicate (Z.to_nat size) None |}
  else None.

(** [rq->conns = knot_quic_table_new(100);] in [quic_recvfrom_init]. *)
Definition quic_recvfrom_init_conns (ok : bool) : option knot_quic_table_t :=
  knot_quic_table_new ok 100.

(** "Next power of two ≥ configured capacity", in the words of the
    specification. *)
Definition next_pow2 (n : Z) : Z := if n <=? 1 then 1 else 2 ^ Z.log2_up n.

(** [ngtcp2_cid_init]: the first [datalen] bytes, in an array that
    [calloc] zeroed; [None] is its failed assertion
    [datalen <= NGTCP2_MAX_CIDLEN]. *)
Definition ngtcp2_cid_init (d : list Z) (len : Z) : option ngtcp2_cid :=
  if len <=? NGTCP2_MAX_CIDLEN then
    Some {| datalen := len;
            data := map (fun i => if i <? len then byte_at d i else 0)
                      (seqZ 0 NGTCP2_MAX_CIDLEN) |}
  else None.

(** [ngtcp2_cid_eq]: equal lengths and equal bytes up to the length. *)
Definition ngtcp2_cid_eq (a b : ngtcp2_cid) : bool :=
  (datalen a =? datalen b)
  && forallb (fun i => byte_at (data a) i =? byte_at (data b) i)
       (seqZ 0 (datalen a)).

Section Table.

Context {platform : Platform}.

(** [table->conns[hash % table->size]]; [None] when the size is 0 or the
    slot lies outside the array. *)
Definition bucket (table : knot_quic_table_t) (h : Z) : option nat :=
  if size table =? 0 then None
  else
    let i := Z.to_nat (h mod size table) in
    if (i <? length (conns table))%nat then Some i else None.

(** The connection added (NULL when [calloc] fails), the heap and the
    table after the call; [None] when the call faults. *)
Definition knot_quic_table_add (ok : bool)
    (heap : gmap positive knot_quic_conn_t) (table : knot_quic_table_t)
    (id : ngtcp2_cid)
  : option (option positive * gmap positive knot_quic_conn_t
            * knot_quic_table_t) :=
  match calloc ok heap with
  | None => Some (None, heap, table)
  | Some c =>
    cid ← ngtcp2_cid_init (data id) (datalen id);
    h ← knot_quic_conn_hash cid;
    hash ← bucket table h;
    head ← conns table !! hash;
    let new := {| dcid := cid; conn := None; next := head |} in
    Some (Some c, <[c := new]> heap,
          {| size := size table; usage := usage table;
             inbufs_total := inbufs_total table;
             conns := <[hash := Some c]> (conns table) |})
  end.

(** [while (conn != NULL) { if (ngtcp2_cid_eq(...)) break; conn =
    conn->next; }]; [None] when the fuel runs out or the chain leaves the
    heap. *)
Fixpoint find_chain (fuel : nat) (heap : gmap positive knot_quic_conn_t)
    (c : option positive) (id : ngtcp2_cid) : option (option positive) :=
  match c with
  | None => Some None
  | Some a =>
    match fuel with
    | O => None
    | S fuel =>
      e ← heap !! a;
      if ngtcp2_cid_eq (dcid e) id then Some (Some a)
      else find_chain fuel heap (next e) id
    end
  end.

Definition knot_quic_table_find (fuel : nat)
    (heap : gmap positive knot_quic_conn_t) (table : knot_quic_table_t)
    (id : ngtcp2_cid) : option (option positive) :=
  h ← knot_quic_conn_hash id;
  hash ← bucket table h;
  head ← conns table !! hash;
  find_chain fuel heap head id.

End Table.

(** *** A platform and some connection ids *)

Module Reference.

(** x86-64: little endian; a 32-bit shift whose count is taken modulo 32
    and whose result is sign-extended to 64 bits. *)
Definition shl_x86 (b n : Z) : Z :=
  let r := Z.land (Z.shiftl b (n mod 32)) 0xFFFFFFFF in
  if Z.testbit r 31 then Z.lor r 0xFFFFFFFF00000000 else r.

#[export] Instance x86_64 : Platform :=
  {| order := LittleEndian; shl_int := shl_x86 |}.

(** A 10-byte id in a buffer whose other bytes are not zero. *)
Definition cid10 : ngtcp2_cid :=
  {| datalen := 10;
     data := [1; 2; 3; 4; 5; 6; 7; 8; 9; 10; 255; 255; 255; 255; 255;
              255; 255; 255; 255; 255] |}.
Definition table100 : knot_quic_table_t :=
  {| size := 100; usage := 0; inbufs_total := 0;
     conns := replicate 100 None |}.

End Reference.

End Quic.

(** ** Chains of the connection table *)

Module QuicChains.

Import Quic.

(** The connections linked from a slot, in the order [next] gives them. *)
Inductive chain (heap : gmap positive knot_quic_conn_t)
  : option positive -> list positive -> Prop :=
| chain_nil : chain heap None []
| chain_cons a e l :
    heap !! a = Some e -> chain heap (next e) l ->
    chain heap (Some a) (a :: l).

(** A table whose array has the length its size says and whose slots all
    lead through live connections to NULL. *)
Definition table_wf (heap : gmap positive knot_quic_conn_t)
    (table : knot_quic_table_t) : Prop :=
  0 < size table
  ∧ length (conns table) = Z.to_nat (size table)
  ∧ ∀ i head, conns table !! i = Some head → ∃ l, chain heap head l.

End QuicChains.

(** ** Command line parameters of the utilities ([utils/common/params.c])

    A C string is the list of its bytes before the terminator. *)

Module Params.

Definition KNOT_EOK : Z := 0.
Definition KNOT_ENOMEM : Z := -12.
Definition KNOT_EINVAL : Z := -22.
Definition KNOT_ENOTSUP : Z := -95.
Definition INT_MAX : Z := 2147483647.
Definition INT32_MAX : Z := 2147483647.
Definition UINT32_MAX : Z := 4294967295.
Definition KNOT_RRTYPE_IXFR : Z := 251.

(** [s[i]]: a byte of the string, the terminator right after it, and
    nothing that may be read beyond. *)
Definition char_at (s : list Z) (i : nat) : option Z :=
  match s !! i with
  | Some c => Some c
  | None => if (i =? length s)%nat then Some 0 else None
  end.

(** A [size_t] returned as [int]. *)
Definition int_of_size (n : nat) : Z :=
  let z := Z.of_nat n mod 2 ^ 32 in
  if z <? 2 ^ 31 then z else z - 2 ^ 32.

(** [while (str[i + rest] != '\0') rest++;] *)
Fixpoint count_rest (fuel : nat) (str : list Z) (i rest : nat) : option nat :=
  c ← char_at str (i + rest);
  if negb (c =? 0) then
    match fuel with
    | O => None
    | S fuel => count_rest fuel str i (S rest)
    end
  else Some rest.

(** The loop of [cmp_prefix] from offset [i]; [None] is a read beyond a
    terminator. *)
Fixpoint cmp_prefix_from (fuel : nat) (pref : list Z) (pref_len : nat)
    (str : list Z) (i : nat) : option Z :=
  p ← char_at pref i;
  s ← char_at str i;
  (* Different characters => NOT prefix. *)
  if negb (p =? s) then Some (-1)
  else
    let i := S i in
    (* Pref IS a prefix of pref. *)
    if (i =? pref_len)%nat then
      rest ← count_rest (length str) str i 0;
      Some (int_of_size rest)
    else
      (* Pref is longer then ref => NOT prefix. *)
      s ← char_at str i;
      if s =? 0 then Some (-1)
      else
        match fuel with
        | O => None
        | S fuel => cmp_prefix_from fuel pref pref_len str i
        end.

Definition cmp_prefix (pref : list Z) (pref_len : nat) (str : list Z)
  : option Z :=
  cmp_prefix_from (length str) pref pref_len str 0.

(** The three locals of [best_param]. *)
Record best := { best_pos : Z; best_match : Z; matches : nat }.

(** [for (int i = 0; tbl[i].name != NULL; i++)] over the names of the
    table; the [break] of [case 0] leaves the [switch], not the loop. *)
Fixpoint best_param_loop (str : list Z) (str_len : nat)
    (tbl : list (list Z)) (i : Z) (b : best) : option best :=
  match tbl with
  | [] => Some b
  | name :: tbl =>
    ret ← cmp_prefix str str_len name;
    let b :=
      if ret =? -1 then b
      else if ret =? 0 then {| best_pos := i; best_match := 0; matches := 1 |}
      else
        {| best_pos := if ret <? best_match b then i else best_pos b;
           best_match := if ret <? best_match b then ret else best_match b;
           matches := S (matches b) |} in
    best_param_loop str str_len tbl (i + 1) b
  end.

(** The value returned and what is written to [*unique], if anything. *)
Definition best_param (str : option (list Z)) (str_len : nat)
    (tbl : option (list (list Z))) : option (Z * option bool) :=
  match str, tbl with
  | Some str, Some tbl =>
    if (str_len =? 0)%nat then Some (KNOT_EINVAL, None)
    else
      b ← best_param_loop str str_len tbl 0
             {| best_pos := -1; best_match := INT_MAX; matches := 0 |};
      Some match matches b with
           | O => (KNOT_ENOTSUP, None)
           | 1%nat => (best_pos b, Some true)
           | _ => (best_pos b, Some false)
           end
  | _, _ => Some (KNOT_EINVAL, None)
  end.

(** [get_fqd_name]: NULL for NULL and when the allocation fails; [None]
    is the read of [name[name_len - 1]] in front of an empty string. *)
Definition get_fqd_name (alloc_ok : bool) (name : option (list Z))
  : option (option (list Z)) :=
  match name with
  | None => Some None
  | Some name =>
    let name_len := length name in
    last ← (if (name_len =? 0)%nat then None
            else char_at name (name_len - 1));
    (* If the name is FQDN, make a copy. *)
    if last =? 46 then Some (if alloc_ok then Some name else None)
    (* Else make a copy and append a trailing dot. *)
    else Some (if alloc_ok then Some (name ++ [46]) else None)
  end.

(** The part of the C library and of libknot that the parsers call: the
    number read and the offset where reading stopped, for [strtoll] and
    [strtoull] in base 10; the type of a mnemonic, if it is one. *)
Class Library := {
  strtoll : list Z -> Z * nat;
  strtoull : list Z -> Z * nat;
  knot_rrtype_from_string : list Z -> option Z;
  (* an [unsigned long long] *)
  strtoull_range : ∀ s, 0 ≤ fst (strtoull s) < 2 ^ 64 }.

(** A [long long] stored into an [int32_t], into a [uint32_t]. *)
Definition to_int32 (z : Z) : Z :=
  let w := z mod 2 ^ 32 in if w <? 2 ^ 31 then w else w - 2 ^ 32.
Definition to_uint32 (z : Z) : Z := z mod 2 ^ 32.

(** [strcspn(value, "=")]. *)
Fixpoint strcspn_eq (value : list Z) : nat :=
  match value with
  | [] => O
  | c :: value => if c =? 61 then O else S (strcspn_eq value)
  end.

Section WithLibrary.

Context {library : Library}.

(** The status, and [*dst] after the call. *)
Definition params_parse_wait (value : option (list Z)) (dst : option Z)
  : Z * option Z :=
  match value, dst with
  | Some value, Some d =>
    (* Convert string to number. *)
    let '(num, end_) := strtoll value in
    (* Check for bad string (empty or incorrect). *)
    if (end_ =? 0)%nat || negb (default 0 (char_at value end_) =? 0)
    then (KNOT_EINVAL, dst)
    else
      let num :=
        if num <? 1 then 1
        (* Reduce maximal value. Poll takes signed int in milliseconds. *)
        else if INT32_MAX <? num then INT32_MAX / 1000
        else num in
      (KNOT_EOK, Some (to_int32 num))
  | _, _ => (KNOT_EINVAL, dst)
  end.

Definition params_parse_num (value : option (list Z)) (dst : option Z)
  : Z * option Z :=
  match value, dst with
  | Some value, Some d =>
    (* Convert string to number. *)
    let '(num, end_) := strtoll value in
    (* Check for bad string. *)
    if (end_ =? 0)%nat || negb (default 0 (char_at value end_) =? 0)
    then (KNOT_EINVAL, dst)
    else
      let num :=
        if UINT32_MAX <? num then UINT32_MAX
        else if num <? 0 then 0
        else num in
      (KNOT_EOK, Some (to_uint32 num))
  | _, _ => (KNOT_EINVAL, dst)
  end.

(** The status, [*rtype] and [*xfr_serial] after the call. *)
Definition params_parse_type (value : option (list Z))
    (rtype xfr_serial : option Z) : Z * option Z * option Z :=
  match value, rtype, xfr_serial with
  | Some value, Some _, Some _ =>
    let param_pos := strcspn_eq value in
    (* There is no additional parameter. *)
    if (param_pos =? length value)%nat then
      match knot_rrtype_from_string value with
      | None => (KNOT_EINVAL, rtype, xfr_serial)
      | Some t =>
        (* IXFR requires serial parameter. *)
        if t =? KNOT_RRTYPE_IXFR then (KNOT_EINVAL, Some t, xfr_serial)
        else (KNOT_EOK, Some t, xfr_serial)
      end
    else
      let type_char := take param_pos value in
      match knot_rrtype_from_string type_char with
      | None => (KNOT_EINVAL, rtype, xfr_serial)
      | Some t =>
        (* Additional parameter is accepted for IXFR only. *)
        if t =? KNOT_RRTYPE_IXFR then
          let param_str := drop (1 + param_pos) value in
          (* Convert string to serial. *)
          let '(serial, end_) := strtoull param_str in
          (* Check for bad serial string. *)
          if (end_ =? 0)%nat
             || negb (default 0 (char_at param_str end_) =? 0)
             || (UINT32_MAX <? serial)
          then (KNOT_EINVAL, Some t, xfr_serial)
          else (KNOT_EOK, Some t, Some (to_uint32 serial))
        else (KNOT_EINVAL, Some t, xfr_serial)
      end
  | _, _, _ => (KNOT_EINVAL, rtype, xfr_serial)
  end.

End WithLibrary.

End Params.

(** *** A small C library

    Decimal numbers with an optional minus sign, and a few mnemonics. *)

Module ParamsReference.

Import Params.

(** The digits at the head of a string, as a number, and their count. *)
Fixpoint digits (s : list Z) (acc : Z) : Z * nat :=
  match s with
  | c :: s =>
    if (48 <=? c) && (c <=? 57)
    then let '(v, n) := digits s (10 * acc + (c - 48)) in (v, S n)
    else (acc, O)
  | [] => (acc, O)
  end.

Definition strtoll_digits (s : list Z) : Z * nat :=
  match s with
  | 45 :: s' =>
    let '(v, n) := digits s' 0 in
    if (n =? 0)%nat then (0, O) else (- v, S n)
  | _ => digits s 0
  end.

Definition strtoull_digits (s : list Z) : Z * nat :=
  let '(v, n) := digits s 0 in (0 `max` (v `min` (2 ^ 64 - 1)), n).

(** A, SOA, TXT, IXFR and AXFR. *)
Definition rrtype_of (s : list Z) : option Z :=
  if decide (s = [65]) then Some 1
  else if decide (s = [83; 79; 65]) then Some 6
  else if decide (s = [84; 88; 84]) then Some 16
  else if decide (s = [73; 88; 70; 82]) then Some 251
  else if decide (s = [65; 88; 70; 82]) then Some 252
  else None.

#[export] Instance library : Library.
Proof.
  refine {| strtoll := strtoll_digits; strtoull := strtoull_digits;
            knot_rrtype_from_string := rrtype_of |}.
  intros s. unfold strtoull_digits. destruct (digits s 0) as [v n].
  cbn [fst]. lia.
Defined.

End ParamsReference.

(** ** Reverse names and TSIG keys ([get_reverse_name],
    [params_parse_tsig]) *)

Module ParamsNames.

Import Params.

(** "in-addr.arpa." and "ip6.arpa." *)
Definition IPV4_REVERSE_DOMAIN : list Z :=
  [105; 110; 45; 97; 100; 100; 114; 46; 97; 114; 112; 97; 46].
Definition IPV6_REVERSE_DOMAIN : list Z :=
  [105; 112; 54; 46; 97; 114; 112; 97; 46].

(** [sizeof(buf)] *)
Definition sizeof_buf : Z := 128.

(** The digit of [d] as [printf] writes it, in lower case. *)
Definition digit_char (d : Z) : Z := if d <? 10 then 48 + d else 87 + d.

(** A number in a base, the way [%u] and [%x] print it: no sign, no
    leading zero, one digit at least. *)
Fixpoint fmt_base (fuel : nat) (base n : Z) (acc : list Z) : list Z :=
  let acc := digit_char (n mod base) :: acc in
  match fuel with
  | O => acc
  | S fuel => if n / base =? 0 then acc else fmt_base fuel base (n / base) acc
  end.

(** [%u] and [%x] of an [unsigned], of ten and of eight digits at most. *)
Definition fmt_u (n : Z) : list Z := fmt_base 9 10 n [].
Definition fmt_x (n : Z) : list Z := fmt_base 7 16 n [].

(** [ntohl] of the four bytes [inet_pton] stores, in the order it stores
    them. *)
Definition ntohl (s_addr : list Z) : Z :=
  Z.lor (Z.shiftl (nth 0 s_addr 0) 24)
    (Z.lor (Z.shiftl (nth 1 s_addr 0) 16)
       (Z.lor (Z.shiftl (nth 2 s_addr 0) 8) (nth 3 s_addr 0))).

(** [inet_pton(AF_INET, name, &addr4) == 1] and [inet_pton(AF_INET6, name,
    &addr6) == 1], with the bytes of the address. *)
Class Inet := {
  inet_pton4 : list Z -> option (list Z);
  inet_pton6 : list Z -> option (list Z);
  inet_pton4_bytes name a :
    inet_pton4 name = Some a →
    length a = 4%nat ∧ Forall (λ b, 0 ≤ b < 256) a;
  inet_pton6_bytes name a :
    inet_pton6 name = Some a →
    length a = 16%nat ∧ Forall (λ b, 0 ≤ b < 256) a }.

(** [for (int i = 15; i >= 0; i--)], with [todo] bytes to go: what has
    been printed and the room that is left, or [None] where the function
    returns NULL. *)
Fixpoint reverse6 (todo : nat) (s6_addr : list Z) (buf : list Z) (len : Z)
  : option (list Z * Z) :=
  match todo with
  | O => Some (buf, len)
  | S i =>
    let left := Z.shiftr (Z.land (nth i s6_addr 0) 0xF0) 4 in
    let right := Z.land (nth i s6_addr 0) 0x0F in
    let s := fmt_x right ++ [46] ++ fmt_x left ++ [46] in
    let ret := Z.of_nat (length s) in
    if (ret <? 0) || (len <=? ret) then None
    else reverse6 i s6_addr (buf ++ s) (len - ret)
  end.

(** NULL is [None], for the name and for the result. *)
Definition get_reverse_name `{Inet} (alloc_ok : bool)
    (name : option (list Z)) : option (list Z) :=
  name ← name;
  (* Check name for IPv4 address, IPv6 address or other. *)
  match inet_pton4 name with
  | Some addr4 =>
    let num := ntohl addr4 in
    (* Create IPv4 reverse FQD name. *)
    let buf :=
      fmt_u (Z.land (Z.shiftr num 0) 0xFF) ++ [46]
      ++ fmt_u (Z.land (Z.shiftr num 8) 0xFF) ++ [46]
      ++ fmt_u (Z.land (Z.shiftr num 16) 0xFF) ++ [46]
      ++ fmt_u (Z.land (Z.shiftr num 24) 0xFF) ++ [46]
      ++ IPV4_REVERSE_DOMAIN in
    let ret := Z.of_nat (length buf) in
    if (ret <? 0) || (sizeof_buf <=? ret) then None
    else if alloc_ok then Some buf else None
  | None =>
    match inet_pton6 name with
    | Some addr6 =>
      (* Create IPv6 reverse name. *)
      r ← reverse6 16 addr6 [] sizeof_buf;
      let '(buf, len) := r in
      (* Add IPv6 reverse domain. *)
      let ret := Z.of_nat (length IPV6_REVERSE_DOMAIN) in
      if (ret <? 0) || (len <=? ret) then None
      else if alloc_ok then Some (buf ++ IPV6_REVERSE_DOMAIN) else None
    | None => None
    end
  end.

(** *** TSIG keys *)

Definition KNOT_TSIG_ALG_HMAC_MD5 : Z := 157.

Record knot_key_params_t := {
  key_name : option (list Z);      (* a [knot_dname_t *] *)
  key_algorithm : Z;
  key_secret : list Z }.           (* a [knot_binary_t] *)

(** What [params_parse_tsig] calls in libknot: the id of an algorithm
    name in [knot_tsig_alg_names], the domain name of a string (NULL when
    it is none), its lower case, and the status of the base64 decoder with
    the secret it leaves. *)
Class TsigLibrary := {
  knot_lookup_by_name : list Z -> option Z;
  knot_dname_from_str : list Z -> option (list Z);
  knot_dname_to_lower : list Z -> list Z;
  knot_binary_from_base64 : list Z -> list Z -> Z * list Z }.

(** [strchr(s, ':')] and the cut at it: the string before the colon and
    the string behind it, if there is a colon. *)
Fixpoint cut_colon (s : list Z) : list Z * option (list Z) :=
  match s with
  | [] => ([], None)
  | c :: s =>
    if c =? 58 then ([], Some s)
    else let '(h, k) := cut_colon s in (c :: h, k)
  end.

(** The status and [*key_params] after the call. *)
Definition params_parse_tsig `{TsigLibrary} (alloc_ok : bool)
    (value : option (list Z)) (key_params : option knot_key_params_t)
  : Z * option knot_key_params_t :=
  match value, key_params with
  | Some value, Some kp =>
    (* Invalidate previous key. *)
    if bool_decide (is_Some (key_name kp)) then (KNOT_EINVAL, key_params)
    else if negb alloc_ok then (KNOT_ENOMEM, key_params)
    else
      (* Separate to avoid multiple allocs. *)
      let '(h, k) := cut_colon value in
      let s := match k with
               | Some k => snd (cut_colon k)
               | None => None
               end in
      let k := option_map (λ k, fst (cut_colon k)) k in
      (* Determine algorithm. *)
      let kp := {| key_name := key_name kp;
                   key_algorithm := KNOT_TSIG_ALG_HMAC_MD5;
                   key_secret := key_secret kp |} in
      match s, k with
      | Some s, Some k =>
        match knot_lookup_by_name h with
        | Some alg =>
          let kp := {| key_name := key_name kp; key_algorithm := alg;
                       key_secret := key_secret kp |} in
          (* Set key name and secret. *)
          let '(r, secret) := knot_binary_from_base64 s (key_secret kp) in
          (if r =? KNOT_EOK then KNOT_EOK else r,
           Some {| key_name := knot_dname_to_lower <$> knot_dname_from_str k;
                   key_algorithm := key_algorithm kp;
                   key_secret := secret |})
        | None => (KNOT_EINVAL, Some kp)
        end
      | _, _ =>
        (* Ignore first part, push down. *)
        match k with
        | None => (KNOT_EINVAL, Some kp)
        | Some s =>
          (* Set key name and secret. *)
          let '(r, secret) := knot_binary_from_base64 s (key_secret kp) in
          (if r =? KNOT_EOK then KNOT_EOK else r,
           Some {| key_name := knot_dname_to_lower <$> knot_dname_from_str h;
                   key_algorithm := key_algorithm kp;
                   key_secret := secret |})
        end
      end
  | _, _ => (KNOT_EINVAL, key_params)
  end.

End ParamsNames.

(** *** Two addresses, one algorithm *)

Module ParamsNamesReference.

Import Params ParamsNames.

(** "192.0.2.1" and "2001:db8::1" *)
Definition name4 : list Z := [49; 57; 50; 46; 48; 46; 50; 46; 49].
Definition name6 : list Z :=
  [50; 48; 48; 49; 58; 100; 98; 56; 58; 58; 49].

#[export] Instance inet : Inet.
Proof.
  refine {| inet_pton4 := λ name,
              if decide (name = name4) then Some [192; 0; 2; 1] else None;
            inet_pton6 := λ name,
              if decide (name = name6)
              then Some [0x20; 0x01; 0x0d; 0xb8; 0; 0; 0; 0;
                         0; 0; 0; 0; 0; 0; 0; 1]
              else None |}.
  - intros name a. destruct (decide (name = name4)); [|discriminate].
    intros [= <-]. split; [reflexivity|]. repeat (constructor; [lia|]).
    constructor.
  - intros name a. destruct (decide (name = name6)); [|discriminate].
    intros [= <-]. split; [reflexivity|]. repeat (constructor; [lia|]).
    constructor.
Defined.

(** "hmac-sha256" *)
Definition hmac_sha256 : list Z :=
  [104; 109; 97; 99; 45; 115; 104; 97; 50; 53; 54].

Definition is_base64 (c : Z) : bool :=
  ((65 <=? c) && (c <=? 90)) || ((97 <=? c) && (c <=? 122))
  || ((48 <=? c) && (c <=? 57)) || (c =? 43) || (c =? 47) || (c =? 61).

(** The decoder checks the alphabet and keeps the text. *)
#[export] Instance tsig : TsigLibrary := {|
  knot_lookup_by_name := λ s,
    if decide (s = hmac_sha256) then Some 163 else None;
  knot_dname_from_str := λ s, if decide (s = []) then None else Some s;
  knot_dname_to_lower :=
    map (λ c, if (65 <=? c) && (c <=? 90) then c + 32 else c);
  knot_binary_from_base64 := λ s old,
    if forallb is_base64 s then (KNOT_EOK, s) else (KNOT_EINVAL, old) |}.

End ParamsNamesReference.

(** ** Packets of [ns_answer_request] *)

Module NameServerPackets.

Import NameServer.

Definition is_destroy (e : event) : bool :=
  match e with EvDestroyPacket => true | _ => false end.

End NameServerPackets.

(** ** The NOTIFY event ([event_notify]) *)

Module NotifyEvent.

Import Libknot Notify.

(** The general error of [libknot/errcode.h]. *)
Definition KNOT_ERROR : Z := -1000.

(** What [event_notify] reads of the configuration: the I/O timeout of the
    cache and the [notify] remotes of the zone in the order the mixed
    iterator yields them, each with its addresses in order
    ([conf_zone_get], [conf_mix_iter_init], [conf_mix_iter_next],
    [conf_id_get], [conf_val_count] and [conf_remote] of
    [knot/conf/conf.h], which is missing). *)
Record conf_t := {
  srv_tcp_remote_io_timeout : Z;
  notify : list (list conf_remote_t) }.

(** What [event_notify] reads of the contents of the zone: whether they
    are empty and the SOA rrset of the apex, [node_rrset(apex,
    KNOT_RRTYPE_SOA)] ([knot/zone/contents.h] is missing). *)
Record zone_contents_t := {
  is_empty : bool;
  apex_soa : knot_rrset_t }.

(** [zone_contents_is_empty], true of NULL
    ([knot/zone/contents.c] is missing). *)
Definition zone_contents_is_empty (contents : option zone_contents_t) : bool :=
  match contents with
  | None => true
  | Some c => is_empty c
  end.

Section WithEnvironment.

Context {E : Environment}.

(** [for (int i = 0; i < addr_count; i++)] from address [i] on: [ret]
    after the loop, the zone and the lines logged. *)
Fixpoint notify_addrs (zone : zone_t) (soa : knot_rrset_t)
    (addrs : list conf_remote_t) (timeout : Z) (ret : Z)
  : Z * zone_t * list log_entry :=
  match addrs with
  | [] => (ret, zone, [])
  | slave :: addrs =>
    let '(ret, zone, log) := send_notify zone soa slave timeout in
    if ret =? KNOT_EOK then (ret, zone, log)
    else
      let '(ret, zone, log') := notify_addrs zone soa addrs timeout ret in
      (ret, zone, log ++ log')
  end.

(** [while (iter.id->code == KNOT_EOK)] over the remotes left: [failed]
    after the loop, the zone and the lines logged. *)
Fixpoint notify_remotes (zone : zone_t) (soa : knot_rrset_t)
    (remotes : list (list conf_remote_t)) (timeout : Z) (failed : bool)
  : bool * zone_t * list log_entry :=
  match remotes with
  | [] => (failed, zone, [])
  | addrs :: remotes =>
    let '(ret, zone, log) := notify_addrs zone soa addrs timeout KNOT_EOK in
    let failed := if negb (ret =? KNOT_EOK) then true else failed in
    let '(failed, zone, log') :=
      notify_remotes zone soa remotes timeout failed in
    (failed, zone, log ++ log')
  end.

(** The status, the zone after the event and the lines logged. *)
Definition event_notify (conf : conf_t) (zone : zone_t)
    (contents : option zone_contents_t) : Z * zone_t * list log_entry :=
  match contents with
  | Some c =>
    if zone_contents_is_empty contents then (KNOT_EOK, zone, [])
    else
      (* NOTIFY content *)
      let timeout := srv_tcp_remote_io_timeout conf in
      let soa := apex_soa c in
      (* send NOTIFY to each remote, use working address *)
      let '(failed, zone, log) :=
        notify_remotes zone soa (notify conf) timeout false in
      (if failed then KNOT_ERROR else KNOT_EOK, zone, log)
  | None => (KNOT_EOK, zone, [])
  end.

End WithEnvironment.

End NotifyEvent.

(** ** The batch receive path ([udp_recvmmsg_*])

    The build with [ENABLE_RECVMMSG].  The two arrays of message headers
    and of I/O vectors are lists indexed by the slot; [msgs[i][k]] points
    to [iov[i][k]] and to [addrs[k]] from [udp_recvmmsg_init] on.  A read
    beyond an array is [None]. *)

Module UdpRecvmmsg.

Import Libknot UdpHandler.

Definition sizeof_sockaddr_storage : Z := 128.
(** [CMSG_SPACE(sizeof(struct in6_pktinfo))] on Linux, 64 bit. *)
Definition sizeof_cmsg_pktinfo_t : Z := 40.

Record mmsghdr := {
  msg_hdr : msghdr;
  msg_len : Z }.          (* an [unsigned] *)

(** UDP recvmmsg() request struct. *)
Record udp_recvmmsg := {
  fd : Z;
  addrs : list Z;
  iov_rx : list iovec;          (* [iov[RX]] *)
  iov_tx : list iovec;          (* [iov[TX]] *)
  msgs_rx : list mmsghdr;       (* [msgs[RX]] *)
  msgs_tx : list mmsghdr;       (* [msgs[TX]] *)
  rcvd : Z }.

(** [recvmmsg(fd, msgs[RX], RECVMMSG_BATCHLEN, MSG_DONTWAIT, NULL)]: its
    return value and what the kernel leaves in the headers, the buffers,
    the addresses and the control buffers.  It fills at most the slots it
    is given and leaves the slots behind the ones it filled alone. *)
Class Kernel := {
  recvmmsg :
    Z -> list mmsghdr -> list iovec -> list Z -> gmap positive cmsghdr ->
    Z * (list mmsghdr * list iovec * list Z * gmap positive cmsghdr);
  recvmmsg_count fd msgs iov addrs mem :
    fst (recvmmsg fd msgs iov addrs mem) ≤ Z.of_nat (length msgs);
  recvmmsg_length fd msgs iov addrs mem :
    let '(msgs', iov', addrs', _) := snd (recvmmsg fd msgs iov addrs mem) in
    length msgs' = length msgs ∧ length iov' = length iov
    ∧ length addrs' = length addrs;
  recvmmsg_rest fd msgs iov addrs mem (k : nat) :
    let '(msgs', iov', _, _) := snd (recvmmsg fd msgs iov addrs mem) in
    fst (recvmmsg fd msgs iov addrs mem) ≤ Z.of_nat k →
    msgs' !! k = msgs !! k ∧ iov' !! k = iov !! k }.

(** The request as [udp_recvmmsg_init] leaves it, when the pool has the
    memory: [batchlen] is [RECVMMSG_BATCHLEN], [buf] what the pool holds
    where a buffer is carved, and the control buffer of slot [k] is at
    address [k + 1] of the store. *)
Definition udp_recvmmsg_init (batchlen : nat) (buf : list Z)
  : udp_recvmmsg * gmap positive cmsghdr :=
  let iov := {| iov_base := buf; iov_len := KNOT_WIRE_MAX_PKTSIZE |} in
  let msg (k : nat) :=
    {| msg_hdr := {| msg_namelen := sizeof_sockaddr_storage;
                     msg_control := Some (Pos.of_succ_nat k);
                     msg_controllen := sizeof_cmsg_pktinfo_t |};
       msg_len := 0 |} in
  let pktinfo :=
    {| cmsg_len := 0; cmsg_level := 0; cmsg_type := 0;
       cmsg_data := Data_other (repeat 0 24) |} in
  ({| fd := 0;
      addrs := repeat 0 batchlen;
      iov_rx := repeat iov batchlen;
      iov_tx := repeat iov batchlen;
      msgs_rx := msg <$> seq 0 batchlen;
      msgs_tx := msg <$> seq 0 batchlen;
      rcvd := 0 |},
   list_to_map ((λ k, (Pos.of_succ_nat k, pktinfo)) <$> seq 0 batchlen)).

(** A [size_t] stored into an [unsigned]. *)
Definition to_unsigned (z : Z) : Z := z mod 2 ^ 32.

Section WithKernel.

Context {D : Type} {api : knot_layer_api_t D knotd_qdata_params_t}
        {codec : Codec} {kernel : Kernel}.

Definition udp_recvmmsg_recv (fd' : Z) (rq : udp_recvmmsg)
    (mem : gmap positive cmsghdr)
  : Z * udp_recvmmsg * gmap positive cmsghdr :=
  let '(n, (msgs, iov, addrs', mem)) :=
    recvmmsg fd' (msgs_rx rq) (iov_rx rq) (addrs rq) mem in
  (n,
   {| fd := if 0 <? n then fd' else fd rq;
      addrs := addrs';
      iov_rx := iov;
      iov_tx := iov_tx rq;
      msgs_rx := msgs;
      msgs_tx := msgs_tx rq;
      rcvd := if 0 <? n then n else rcvd rq |},
   mem).

(** [for (unsigned i = 0; i < rq->rcvd; ++i)] of [udp_recvmmsg_handle],
    from slot [i] with [todo] slots to go. *)
Fixpoint udp_recvmmsg_handle_from (fuel todo i : nat)
    (ctx : udp_context_t D) (rq : udp_recvmmsg)
    (mem : gmap positive cmsghdr)
  : option (udp_context_t D * udp_recvmmsg * gmap positive cmsghdr) :=
  match todo with
  | O => Some (ctx, rq, mem)
  | S todo =>
    mrx ← msgs_rx rq !! i;
    mtx ← msgs_tx rq !! i;
    rx ← iov_rx rq !! i;
    tx ← iov_tx rq !! i;
    addr ← addrs rq !! i;
    (* Received bytes. *)
    let rx := {| iov_base := iov_base rx; iov_len := msg_len mrx |} in
    r ← udp_pktinfo_handle (msg_hdr mrx) (msg_hdr mtx) mem;
    let '(tx_hdr, mem) := r in
    h ← udp_handle fuel ctx (fd rq) addr rx tx;
    let tx := tx_after h in
    let tx_hdr :=
      {| msg_namelen :=
           (* sendmmsg() workaround to prevent sending the packet *)
           if 0 <? iov_len tx then msg_namelen (msg_hdr mrx) else 0;
         msg_control := msg_control tx_hdr;
         msg_controllen := msg_controllen tx_hdr |} in
    let rq :=
      {| fd := fd rq;
         addrs := addrs rq;
         iov_rx := <[i := rx]> (iov_rx rq);
         iov_tx := <[i := tx]> (iov_tx rq);
         msgs_rx := msgs_rx rq;
         msgs_tx := <[i := {| msg_hdr := tx_hdr;
                              msg_len := to_unsigned (iov_len tx) |}]>
                      (msgs_tx rq);
         rcvd := rcvd rq |} in
    udp_recvmmsg_handle_from fuel todo (S i) (udp_after h) rq mem
  end.

Definition udp_recvmmsg_handle (fuel : nat) (ctx : udp_context_t D)
    (rq : udp_recvmmsg) (mem : gmap positive cmsghdr)
  : option (udp_context_t D * udp_recvmmsg * gmap positive cmsghdr) :=
  udp_recvmmsg_handle_from fuel (Z.to_nat (rcvd rq)) 0 ctx rq mem.

End WithKernel.

(** The loop of [udp_recvmmsg_send], from slot [i] with [todo] slots to
    go. *)
Fixpoint udp_recvmmsg_send_from (todo i : nat) (rq : udp_recvmmsg)
  : option udp_recvmmsg :=
  match todo with
  | O => Some rq
  | S todo =>
    (* Reset buffer size and address len. *)
    mrx ← msgs_rx rq !! i;
    mtx ← msgs_tx rq !! i;
    rx ← iov_rx rq !! i;
    tx ← iov_tx rq !! i;
    _ ← addrs rq !! i;
    let rq :=
      {| fd := fd rq;
         addrs := <[i := 0]> (addrs rq);
         iov_rx := <[i := {| iov_base := iov_base rx;
                             iov_len := KNOT_WIRE_MAX_PKTSIZE |}]>
                     (iov_rx rq);
         iov_tx := <[i := {| iov_base := iov_base tx;
                             iov_len := KNOT_WIRE_MAX_PKTSIZE |}]>
                     (iov_tx rq);
         msgs_rx :=
           <[i := {| msg_hdr :=
                       {| msg_namelen := sizeof_sockaddr_storage;
                          msg_control := msg_control (msg_hdr mrx);
                          msg_controllen := sizeof_cmsg_pktinfo_t |};
                     msg_len := msg_len mrx |}]> (msgs_rx rq);
         msgs_tx :=
           <[i := {| msg_hdr :=
                       {| msg_namelen := sizeof_sockaddr_storage;
                          msg_control := msg_control (msg_hdr mtx);
                          msg_controllen := msg_controllen (msg_hdr mtx) |};
                     msg_len := msg_len mtx |}]> (msgs_tx rq);
         rcvd := rcvd rq |} in
    udp_recvmmsg_send_from todo (S i) rq
  end.

(** The headers handed to [sendmmsg] with their vectors, and the request
    after the call. *)
Definition udp_recvmmsg_send (rq : udp_recvmmsg)
  : option (list (mmsghdr * iovec) * udp_recvmmsg) :=
  let n := Z.to_nat (rcvd rq) in
  rq' ← udp_recvmmsg_send_from n 0 rq;
  Some (zip (take n (msgs_tx rq)) (take n (iov_tx rq)), rq').

(** Slot [k] as [recvmmsg] needs it: room for a whole datagram, a whole
    address and a packet info. *)
Definition slot_ready (rq : udp_recvmmsg) (k : nat) : Prop :=
  ∃ rx tx mrx mtx,
    iov_rx rq !! k = Some rx ∧ iov_tx rq !! k = Some tx
    ∧ msgs_rx rq !! k = Some mrx ∧ msgs_tx rq !! k = Some mtx
    ∧ iov_len rx = KNOT_WIRE_MAX_PKTSIZE
    ∧ iov_len tx = KNOT_WIRE_MAX_PKTSIZE
    ∧ msg_namelen (msg_hdr mrx) = sizeof_sockaddr_storage
    ∧ msg_namelen (msg_hdr mtx) = sizeof_sockaddr_storage
    ∧ msg_controllen (msg_hdr mrx) = sizeof_cmsg_pktinfo_t.

(** The five arrays have [n] slots. *)
Definition slots (rq : udp_recvmmsg) (n : nat) : Prop :=
  length (addrs rq) = n ∧ length (iov_rx rq) = n ∧ length (iov_tx rq) = n
  ∧ length (msgs_rx rq) = n ∧ length (msgs_tx rq) = n.

Definition ready (rq : udp_recvmmsg) (n : nat) : Prop :=
  slots rq n ∧ ∀ k, (k < n)%nat → slot_ready rq k.

End UdpRecvmmsg.

(** *** A kernel with one datagram

    A query of a bare header from a 16-byte address, with the IPv4
    packet info of interface 3; it goes into the first slot. *)

Module UdpRecvmmsgReference.

Import Libknot UdpHandler UdpRecvmmsg.

Definition recv_one (fd : Z) (msgs : list mmsghdr) (iov : list iovec)
    (addrs : list Z) (mem : gmap positive cmsghdr)
  : Z * (list mmsghdr * list iovec * list Z * gmap positive cmsghdr) :=
  match msgs, iov with
  | m :: msgs', v :: iov' =>
    (1,
     ({| msg_hdr := {| msg_namelen := 16;
                       msg_control := msg_control (msg_hdr m);
                       msg_controllen := 28 |};
         msg_len := 12 |} :: msgs',
      {| iov_base := iov_base UdpHandler.Reference.rx_header;
         iov_len := iov_len v |} :: iov',
      <[0%nat := 7]> addrs,
      match msg_control (msg_hdr m) with
      | Some c => <[c := UdpHandler.Reference.cmsg4]> mem
      | None => mem
      end))
  | _, _ => (-1, (msgs, iov, addrs, mem))
  end.

#[export] Instance kernel : Kernel.
Proof.
  refine {| recvmmsg := recv_one |}.
  - intros fd msgs iov addrs mem. unfold recv_one.
    destruct msgs as [|m msgs], iov as [|v iov]; cbn [fst length]; lia.
  - intros fd msgs iov addrs mem. unfold recv_one.
    destruct msgs as [|m msgs], iov as [|v iov]; cbn [snd length];
      rewrite ?length_insert; done.
  - intros fd msgs iov addrs mem k. unfold recv_one.
    destruct msgs as [|m msgs], iov as [|v iov]; cbn [fst snd]; try done.
    intros Hk. destruct k as [|k]; [lia|]. done.
Defined.

Definition request : udp_recvmmsg * gmap positive cmsghdr :=
  udp_recvmmsg_init 2 (repeat 0 16).

End UdpRecvmmsgReference.

(** * Properties *)

(** ** [ns_answer_request] *)

Section NsAnswerRequest.

Import NameServer.
Context {zdb_database zn_node : Type} {L : Libraries zdb_database zn_node}.
Implicit Types (ns : ns_nameserver zdb_database) (query_wire : list Z).
Implicit Types (o : outbuf) (p query response : dnss_packet).

(** Runs one call down to the outcomes of the library calls it makes. *)
Ltac run_cases :=
  unfold run_ns_answer_request, ns_answer_request, built_response,
    call_zdb_find_name, call_zn_find_rrset, call_create_empty_packet,
    call_create_response, call_create_error_response, call_wire_format,
    rcu_read_lock, rcu_read_unlock, dnss_destroy_packet, emit, modify,
    return_, assert_, mbind, mret, M_bind, M_ret;
  repeat (cbn [fst snd trace out app negb];
          match goal with
          | |- context [match ?x with _ => _ end] =>
            lazymatch x with
            | context [match _ with _ => _ end] => fail
            | _ => destruct x eqn:?
            end
          end);
  cbn [fst snd trace out app negb] in *.

(** C3.  In every run of [ns_answer_request] the read lock is taken
    before [zdb_find_name], the node is read ([zn_find_rrset], the copy
    of the rrset by [dnss_create_response]) only while it is held, it is
    released before [dnss_wire_format], on every path, error paths
    included, it is released as many times as it was taken, and it is
    taken at most once. *)
Theorem ns_answer_request_lease ns query_wire o :
  let t := trace (snd (run_ns_answer_request ns query_wire o)) in
  lease_ok false false t = true
  ∧ count is_unlock t = count is_lock t
  ∧ (count is_lock t ≤ 1)%nat.
Proof.
  run_cases; repeat split; try reflexivity; cbn; lia.
Qed.

(** The runs that return.  When the query does not parse, or its question
    count is not positive, [ns_answer_request] returns -1 before any
    library call that is given the response buffer, and the buffer is as
    the caller left it.  Whenever it returns a value other than 0, no
    call of
    [dnss_wire_format] has succeeded; and if a failing
    [dnss_wire_format] leaves the caller's buffer alone, the buffer is
    then untouched. *)
Theorem ns_answer_request_writes_only_on_success ns query_wire o :
  let run := run_ns_answer_request ns query_wire o in
  (dnss_parse_query query_wire = None
   ∨ (∃ query, dnss_parse_query query_wire = Some query
               ∧ qdcount (header query) <= 0) →
   run = (Return (-1), {| trace := []; out := o |}))
  ∧ (∀ r, fst run = Return r → r ≠ 0 →
     ∀ p, (p, 0) ∉ wire_formats (trace (snd run)))
  ∧ ((∀ p o', fst (dnss_wire_format p o') ≠ 0 →
              snd (dnss_wire_format p o') = o') →
     ∀ r, fst run = Return r → r ≠ 0 → out (snd run) = o).
Proof.
  cbv zeta. split; [|split].
  - intros [Hnone | (query & Hq & Hle)].
    + unfold run_ns_answer_request, ns_answer_request. now rewrite Hnone.
    + unfold run_ns_answer_request, ns_answer_request. rewrite Hq.
      apply Z.leb_le in Hle. now rewrite Hle.
  - intros r Hr Hne p. revert Hr.
    run_cases; intros Hr; simplify_eq; try done; cbn;
      rewrite ?elem_of_cons, ?elem_of_nil;
      intros Hin; destruct_or?; simplify_eq; done.
  - intros Hfail r Hr Hne. revert Hr.
    run_cases; intros Hr; simplify_eq; try done;
      repeat match goal with
             | H : dnss_wire_format ?p ?o' = (?z, ?o'') |- _ =>
               let Hf := fresh in
               pose proof (Hfail p o') as Hf; rewrite H in Hf;
               cbn [fst snd] in Hf; clear H
             end;
      repeat match goal with
             | H : negb (?z =? 0) = true |- _ =>
               apply negb_true_iff, Z.eqb_neq in H
             end;
      auto.
Qed.

(** C8, as the code has it.  When [dnss_wire_format] fails on the
    response that was built, [ns_answer_request] asks
    [dnss_create_error_response] for an error response to the query and
    encodes that packet, as the library built it, into the caller's
    buffer; when the error response cannot be created it returns -1
    without a second encoding. *)
Theorem ns_answer_request_too_long ns query_wire o query empty response
    res1 o1 :
  dnss_parse_query query_wire = Some query →
  0 < qdcount (header query) →
  dnss_create_empty_packet = Some empty →
  built_response ns query empty = (0, response) →
  dnss_wire_format response o = (res1, o1) →
  res1 ≠ 0 →
  let run := run_ns_answer_request ns query_wire o in
  let err := dnss_create_error_response query response in
  let enc := dnss_wire_format (snd err) o1 in
  if fst err =? 0 then
    wire_formats (trace (snd run)) = [(response, res1); (snd err, fst enc)]
    ∧ out (snd run) = snd enc
  else
    fst run = Return (-1)
    ∧ wire_formats (trace (snd run)) = [(response, res1)]
    ∧ out (snd run) = o1.
Proof.
  intros Hq Hqd He Hb Hw Hres. cbv zeta.
  assert (Hqd' : (qdcount (header query) <=? 0) = false) by lia.
  assert (Hres' : negb (res1 =? 0) = true)
    by (apply negb_true_iff, Z.eqb_neq, Hres).
  unfold built_response in Hb.
  unfold run_ns_answer_request, ns_answer_request.
  rewrite Hq, Hqd'.
  unfold call_zdb_find_name, call_zn_find_rrset, call_create_empty_packet,
    call_create_response, call_create_error_response, call_wire_format,
    rcu_read_lock, rcu_read_unlock, dnss_destroy_packet, emit, modify,
    return_, assert_, mbind, mret, M_bind, M_ret.
  cbn [fst snd trace out app]. rewrite He.
  destruct (zdb_find_name _ _) as [node|];
    cbn [fst snd trace out app]; rewrite Hb;
    cbn [fst snd trace out app negb Z.eqb]; rewrite Hw, Hres';
    cbn [fst snd trace out app];
    destruct (dnss_create_error_response query response) as [e er];
    cbn [fst snd];
    destruct (e =? 0); cbn [negb fst snd trace out app];
    try (destruct (dnss_wire_format er o1) as [res2 o2];
         cbn [fst snd trace out app];
         destruct (res2 =? 0); cbn [negb fst snd trace out app]);
    repeat split; reflexivity.
Qed.

End NsAnswerRequest.

(** C10, at the oversized TXT rrset of [a.example.].  The first encoding
    fails, the error response is encoded into the caller's buffer, 27
    bytes of it, and the run stops at [assert(res != 0)] behind that
    encoding: a response has been written, and 0 is not returned. *)
Theorem ns_answer_request_writes_then_aborts :
  let run := NameServer.run_ns_answer_request
               (L := NameServer.Reference.libraries)
               NameServer.Reference.server
               (NameServer.Reference.query_for 16)
               NameServer.Reference.buffer in
  fst run = Abort
  ∧ NameServer.wire_formats (NameServer.trace (snd run))
    = [(NameServer.Reference.txt_response, -1);
       (NameServer.Reference.txt_error_response, 0)]
  ∧ NameServer.out (snd run)
    = snd (NameServer.dnss_wire_format
             (Libraries := NameServer.Reference.libraries)
             NameServer.Reference.txt_error_response
             NameServer.Reference.buffer)
  ∧ NameServer.rsize (NameServer.out (snd run)) = 27
  ∧ NameServer.out (snd run) ≠ NameServer.Reference.buffer.
Proof.
  cbv zeta. split; [vm_compute; reflexivity|].
  split; [vm_compute; reflexivity|].
  split; [vm_compute; reflexivity|].
  split; [vm_compute; reflexivity|].
  intros Heq. apply (f_equal NameServer.rsize) in Heq.
  vm_compute in Heq. discriminate.
Qed.

(** At a datagram shorter than a header: nothing is written. *)
Lemma ns_answer_request_writes_only_on_success_witness :
  NameServer.run_ns_answer_request (L := NameServer.Reference.libraries)
    NameServer.Reference.server [1; 2; 3] NameServer.Reference.buffer
  = (Return (-1),
     {| NameServer.trace := []; NameServer.out := NameServer.Reference.buffer |}).
Proof.
  apply (ns_answer_request_writes_only_on_success
           (L := NameServer.Reference.libraries)
           NameServer.Reference.server [1; 2; 3] NameServer.Reference.buffer).
  left. reflexivity.
Defined.

(** C8 on the oversized TXT rrset of [a.example.]: the first encoding
    fails, the error response is encoded next. *)
Lemma ns_answer_request_too_long_witness :
  let run := NameServer.run_ns_answer_request
               (L := NameServer.Reference.libraries)
               NameServer.Reference.server
               (NameServer.Reference.query_for 16)
               NameServer.Reference.buffer in
  NameServer.wire_formats (NameServer.trace (snd run))
  = [(NameServer.Reference.txt_response, -1);
     (NameServer.Reference.txt_error_response, 0)]
  ∧ NameServer.out (snd run)
    = snd (NameServer.Reference.wire_format
             NameServer.Reference.txt_error_response
             NameServer.Reference.buffer).
Proof.
  apply (ns_answer_request_too_long
           (L := NameServer.Reference.libraries)
           NameServer.Reference.server
           (NameServer.Reference.query_for 16)
           NameServer.Reference.buffer
           NameServer.Reference.txt_query
           NameServer.Reference.empty_packet
           NameServer.Reference.txt_response
           (-1) NameServer.Reference.buffer);
    [reflexivity | reflexivity | reflexivity | reflexivity
    | vm_compute; reflexivity | lia].
Defined.

(** C8 as the specification words it does not hold: on the oversized TXT
    rrset the packet encoded after the failure is not the built response
    with TC set and the records dropped; it has TC clear and carries
    SERVFAIL. *)
Lemma ns_answer_request_too_long_not_truncated :
  let run := NameServer.run_ns_answer_request
               (L := NameServer.Reference.libraries)
               NameServer.Reference.server
               (NameServer.Reference.query_for 16)
               NameServer.Reference.buffer in
  ∃ response err res,
    NameServer.wire_formats (NameServer.trace (snd run))
    = [(response, -1); (err, res)]
    ∧ err ≠ NameServer.truncated response
    ∧ NameServer.tc (NameServer.header err) = false
    ∧ NameServer.rcode (NameServer.header err) = NameServer.RCODE_SERVFAIL.
Proof.
  cbv zeta.
  exists NameServer.Reference.txt_response,
    NameServer.Reference.txt_error_response, 0.
  split; [vm_compute; reflexivity|].
  split; [|split; reflexivity].
  intros Heq. apply (f_equal (fun p => NameServer.flags (NameServer.header p))) in Heq.
  vm_compute in Heq. discriminate.
Qed.

(** The A record of [a.example.] is answered in 31 bytes; the oversized
    TXT rrset runs into the assertion after the error response has been
    encoded. *)
Example ns_answer_request_a :
  let run := NameServer.run_ns_answer_request
               (L := NameServer.Reference.libraries)
               NameServer.Reference.server (NameServer.Reference.query_for 1)
               NameServer.Reference.buffer in
  fst run = Return 0
  ∧ NameServer.rsize (NameServer.out (snd run)) = 31
  ∧ NameServer.trace (snd run)
    = [NameServer.EvRcuReadLock;
       NameServer.EvZdbFindName NameServer.Reference.a_example;
       NameServer.EvCreateEmptyPacket;
       NameServer.EvZnFindRrset 1;
       NameServer.EvCreateResponse (Some [[192; 0; 2; 1]]);
       NameServer.EvRcuReadUnlock;
       NameServer.EvWireFormat
         (snd (NameServer.Reference.create_response
                 (NameServer.Reference.txt_query_of 1)
                 (Some [[192; 0; 2; 1]]) 1
                 NameServer.Reference.empty_packet)) 0;
       NameServer.EvDestroyPacket; NameServer.EvDestroyPacket].
Proof. vm_compute. repeat split. Qed.

Example ns_answer_request_txt :
  fst (NameServer.run_ns_answer_request
         (L := NameServer.Reference.libraries)
         NameServer.Reference.server (NameServer.Reference.query_for 16)
         NameServer.Reference.buffer)
  = Abort.
Proof. vm_compute. reflexivity. Qed.

(** ** NOTIFY *)

Section NotifyProperties.

Import Libknot Notify.
Context {E : Environment}.

Lemma rrset_wire_size_pos rr : 0 < rrset_wire_size rr.
Proof. unfold rrset_wire_size. lia. Qed.

(** What the packet operations keep. *)
Lemma knot_pkt_put_keeps pkt rr :
  wire_opcode (knot_pkt_put pkt rr) = wire_opcode pkt
  ∧ wire_aa (knot_pkt_put pkt rr) = wire_aa pkt
  ∧ question (knot_pkt_put pkt rr) = question pkt
  ∧ max_size (knot_pkt_put pkt rr) = max_size pkt
  ∧ current (knot_pkt_put pkt rr) = current pkt.
Proof. unfold knot_pkt_put. destruct (_ <? _); done. Qed.

Lemma knot_pkt_put_elsewhere pkt rr :
  current pkt ≠ KNOT_ANSWER → answer (knot_pkt_put pkt rr) = answer pkt.
Proof.
  intros Hc. unfold knot_pkt_put. destruct (_ <? _); [done|].
  cbn [answer]. now destruct (decide (current pkt = KNOT_ANSWER)).
Qed.

Lemma knot_pkt_put_answer pkt rr :
  current pkt = KNOT_ANSWER →
  size pkt + rrset_wire_size rr ≤ max_size pkt →
  answer (knot_pkt_put pkt rr) = answer pkt ++ [rr].
Proof.
  intros Hc Hfit. unfold knot_pkt_put.
  destruct (_ <? _) eqn:Hlt; [lia|].
  cbn [answer]. now destruct (decide (current pkt = KNOT_ANSWER)).
Qed.

Lemma knot_pkt_put_question_keeps pkt n c t :
  wire_opcode (knot_pkt_put_question pkt n c t) = wire_opcode pkt
  ∧ wire_aa (knot_pkt_put_question pkt n c t) = wire_aa pkt
  ∧ answer (knot_pkt_put_question pkt n c t) = answer pkt
  ∧ max_size (knot_pkt_put_question pkt n c t) = max_size pkt.
Proof.
  unfold knot_pkt_put_question.
  destruct (negb _); [done|]. destruct (_ <? _); done.
Qed.

Lemma knot_pkt_put_question_fits pkt n c t :
  size pkt = KNOT_WIRE_HEADER_SIZE →
  size pkt + (Z.of_nat (length n) + 4) ≤ max_size pkt →
  question (knot_pkt_put_question pkt n c t) = Some (n, c, t)
  ∧ size (knot_pkt_put_question pkt n c t)
    = size pkt + (Z.of_nat (length n) + 4).
Proof.
  intros Hs Hfit. unfold knot_pkt_put_question.
  rewrite Hs, Z.eqb_refl. cbn [negb]. rewrite <- Hs.
  destruct (_ <? _) eqn:Hlt; [lia|]. done.
Qed.

Lemma query_put_edns_keeps pkt e :
  wire_opcode (query_put_edns pkt e) = wire_opcode pkt
  ∧ wire_aa (query_put_edns pkt e) = wire_aa pkt
  ∧ question (query_put_edns pkt e) = question pkt
  ∧ answer (query_put_edns pkt e) = answer pkt.
Proof.
  unfold query_put_edns.
  destruct (knot_pkt_put_keeps (knot_pkt_begin pkt KNOT_ADDITIONAL)
    {| owner := [0]; rtype := KNOT_RRTYPE_OPT; rclass := max_payload e;
       ttl := if do_flag e then 32768 else 0; rdata := [] |})
    as (-> & -> & -> & _).
  rewrite knot_pkt_put_elsewhere by done. done.
Qed.

(** C6.  The packet [notify_produce] leaves has opcode NOTIFY and the AA
    flag set, and the layer goes on to CONSUME; when the buffer has room
    for the question and the SOA, its question is (zone apex, IN, SOA)
    and its answer section holds exactly the SOA of the layer's data when
    there is one, nothing otherwise. *)
Theorem notify_produce_packet (layer : knot_layer_t notify_data)
    (pkt : knot_pkt_t) :
  let d := data layer in
  let r := notify_produce layer pkt in
  let out := snd (fst r) in
  snd r = KNOT_STATE_CONSUME
  ∧ wire_opcode out = KNOT_OPCODE_NOTIFY
  ∧ wire_aa out = true
  ∧ (KNOT_WIRE_HEADER_SIZE + (Z.of_nat (length (zone d)) + 4)
     + from_option rrset_wire_size 0 (soa d) ≤ max_size pkt →
     question out = Some (zone d, KNOT_CLASS_IN, KNOT_RRTYPE_SOA)
     ∧ answer out = option_list (soa d)).
Proof.
  cbv zeta. unfold notify_produce. cbn [fst snd].
  set (p0 := knot_wire_set_aa
               (knot_wire_set_opcode (query_init_pkt pkt) KNOT_OPCODE_NOTIFY)).
  set (p1 := knot_pkt_put_question p0 (zone (data layer)) KNOT_CLASS_IN
               KNOT_RRTYPE_SOA).
  assert (Hp0 : size p0 = KNOT_WIRE_HEADER_SIZE ∧ max_size p0 = max_size pkt
                ∧ answer p0 = [] ∧ wire_opcode p0 = KNOT_OPCODE_NOTIFY
                ∧ wire_aa p0 = true) by done.
  destruct Hp0 as (Hs0 & Hm0 & Ha0 & Ho0 & Haa0).
  destruct (knot_pkt_put_question_keeps p0 (zone (data layer))
              KNOT_CLASS_IN KNOT_RRTYPE_SOA) as (Ho1 & Haa1 & Ha1 & Hm1).
  fold p1 in Ho1, Haa1, Ha1, Hm1.
  destruct (query_put_edns_keeps
              match soa (data layer) with
              | Some s => knot_pkt_put (knot_pkt_begin p1 KNOT_ANSWER) s
              | None => p1
              end (edns (data layer))) as (-> & -> & -> & ->).
  split; [done|].
  destruct (soa (data layer)) as [s|]; cbn [from_option option_list].
  - destruct (knot_pkt_put_keeps (knot_pkt_begin p1 KNOT_ANSWER) s)
      as (-> & -> & -> & _).
    split; [cbn [knot_pkt_begin wire_opcode]; congruence|].
    split; [cbn [knot_pkt_begin wire_aa]; congruence|].
    intros Hroom. pose proof (rrset_wire_size_pos s).
    destruct (knot_pkt_put_question_fits p0 (zone (data layer))
                KNOT_CLASS_IN KNOT_RRTYPE_SOA) as (Hq1 & Hs1);
      [done | lia |]. fold p1 in Hq1, Hs1.
    split; [exact Hq1|].
    rewrite knot_pkt_put_answer;
      cbn [knot_pkt_begin current size max_size answer];
      [rewrite Ha1, Ha0; reflexivity | reflexivity | lia].
  - split; [congruence|]. split; [congruence|].
    intros Hroom.
    destruct (knot_pkt_put_question_fits p0 (zone (data layer))
                KNOT_CLASS_IN KNOT_RRTYPE_SOA) as (Hq1 & Hs1);
      [done | lia |]. fold p1 in Hq1.
    split; [exact Hq1 | rewrite Ha1, Ha0; reflexivity].
Qed.

(** C7, as the code has it.  [send_notify] logs success and records the
    serial exactly when the packet and the request were allocated,
    [knot_requestor_exec] returned [KNOT_EOK] and the extended rcode of
    the response is 0; in every other case the zone is left as it
    was. *)
Theorem send_notify_success (zone : zone_t) (soa : knot_rrset_t)
    (slave : conf_remote_t) (timeout : Z) :
  let data := {| Notify.zone := name zone; Notify.soa := Some soa;
                 remote := addr slave; edns := query_edns_data_init |} in
  let r := send_notify zone soa slave timeout in
  (notified r = true ↔
     ∃ pkt req resp,
       pkt_alloc KNOT_WIRE_MAX_PKTSIZE = Some pkt
       ∧ knot_request_make (addr slave) (via slave) pkt = Some req
       ∧ knot_requestor_exec data req timeout = (KNOT_EOK, resp)
       ∧ knot_pkt_ext_rcode resp = 0)
  ∧ (notified r = true →
     last_notified_serial (snd (fst r))
     = Z.lor (knot_soa_serial (rdata soa)) LAST_NOTIFIED_SERIAL_VALID
     ∧ snd r = [LogInfoSerial (knot_soa_serial (rdata soa))]
     ∧ fst (fst r) = KNOT_EOK)
  ∧ (notified r = false → snd (fst r) = zone).
Proof.
  cbv zeta. unfold send_notify.
  destruct (pkt_alloc KNOT_WIRE_MAX_PKTSIZE) as [pkt|] eqn:Hpkt;
    [|cbn; repeat split; try done; intros (?&?&?&?&_); done].
  destruct (knot_request_make (addr slave) (via slave) pkt) as [req|]
    eqn:Hreq;
    [|cbn; repeat split; try done; intros (?&?&?&?&?&_); simplify_eq].
  destruct (knot_requestor_exec _ req timeout) as [ret resp] eqn:Hexec.
  destruct (ret =? KNOT_EOK) eqn:Hret; cbn [andb].
  - apply Z.eqb_eq in Hret. subst ret.
    destruct (knot_pkt_ext_rcode resp =? 0) eqn:Hrc; cbn.
    + apply Z.eqb_eq in Hrc. repeat split; try done.
      intros _. exists pkt, req, resp. done.
    + apply Z.eqb_neq in Hrc. repeat split; try done.
      intros (?&?&?&?&?&?&?). simplify_eq. congruence.
  - apply Z.eqb_neq in Hret.
    destruct (knot_pkt_ext_rcode resp =? 0) eqn:Hrc; cbn;
      repeat split; try done; intros (?&?&?&?&?&?&?); simplify_eq;
      congruence.
Qed.

End NotifyProperties.

(** C6 at the zone [example.], in a 512-byte buffer. *)
Lemma notify_produce_packet_witness :
  let out :=
    snd (fst (Notify.notify_produce (E := Notify.Reference.environment)
                {| Libknot.state := Libknot.KNOT_STATE_PRODUCE;
                   Libknot.data := Notify.Reference.example_data |}
                (Libknot.knot_pkt_new [] 512))) in
  Libknot.question out
  = Some (Notify.Reference.example, Libknot.KNOT_CLASS_IN,
          Libknot.KNOT_RRTYPE_SOA)
  ∧ Libknot.answer out = [Notify.Reference.example_soa].
Proof.
  apply (notify_produce_packet (E := Notify.Reference.environment)
           {| Libknot.state := Libknot.KNOT_STATE_PRODUCE;
              Libknot.data := Notify.Reference.example_data |}
           (Libknot.knot_pkt_new [] 512)).
  vm_compute. discriminate.
Defined.

(** C7 as the specification words it does not hold: an exchange that
    completes with an error rcode is not a success, and neither is one that
    fails without a response (extended rcode 0).  In both runs the zone
    keeps its last-notified serial. *)
Lemma send_notify_either_not_success :
  let refused_run :=
    Notify.send_notify (E := Notify.Reference.environment)
      Notify.Reference.example_zone Notify.Reference.example_soa
      {| Notify.addr := 1; Notify.via := 0 |} 10 in
  let timeout_run :=
    Notify.send_notify (E := Notify.Reference.environment)
      Notify.Reference.example_zone Notify.Reference.example_soa
      {| Notify.addr := 2; Notify.via := 0 |} 10 in
  (fst (fst refused_run) = Libknot.KNOT_EOK
   ∧ Notify.notified refused_run = false
   ∧ snd refused_run = [Notify.LogWarningRcode 5]
   ∧ snd (fst refused_run) = Notify.Reference.example_zone)
  ∧ (fst (fst timeout_run) ≠ Libknot.KNOT_EOK
     ∧ Libknot.knot_pkt_ext_rcode (Some Notify.Reference.unanswered) = 0
     ∧ Notify.notified timeout_run = false
     ∧ snd timeout_run = [Notify.LogWarningFailed (-110)]
     ∧ snd (fst timeout_run) = Notify.Reference.example_zone).
Proof. vm_compute. repeat split; congruence. Qed.

(** ** The datagram pipeline *)

Section UdpHandle.

Import Libknot UdpHandler.
Context {D : Type} {api : knot_layer_api_t D knotd_qdata_params_t}
        {codec : Codec}.
Implicit Types (l : knot_layer_t D) (ans : knot_pkt_t) (cs : list call).

Lemma produce_n_S n l ans :
  produce_n (S n) l ans
  = produce_n n (fst (knot_layer_produce l ans))
      (snd (knot_layer_produce l ans)).
Proof. cbn [produce_n]. now destruct (knot_layer_produce l ans). Qed.

(** The loop calls [knot_layer_produce] as long as the state is active
    and leaves at the first state that is not. *)
Lemma produce_loop_runs n : ∀ l ans cs fuel,
  (∀ k, (k < n)%nat →
        udp_state_active (state (fst (produce_n k l ans))) = true) →
  udp_state_active (state (fst (produce_n n l ans))) = false →
  (n ≤ fuel)%nat →
  produce_loop fuel l ans cs
  = Some (fst (produce_n n l ans), snd (produce_n n l ans),
          cs ++ repeat CallProduce n).
Proof.
  induction n as [|n IH]; intros l ans cs fuel Hact Hstop Hfuel.
  - cbn [produce_n fst snd repeat] in *. rewrite app_nil_r.
    destruct fuel; cbn [produce_loop]; now rewrite Hstop.
  - destruct fuel as [|fuel]; [lia|].
    pose proof (Hact 0%nat ltac:(lia)) as H0.
    cbn [produce_n fst] in H0. cbn [produce_loop]. rewrite H0.
    rewrite produce_n_S in Hstop |- *.
    destruct (knot_layer_produce l ans) as [l' ans'] eqn:Hp.
    cbn [fst snd] in *.
    rewrite (IH l' ans' (cs ++ [CallProduce]) fuel); [| |done|lia].
    + cbn [repeat]. now rewrite <- app_assoc.
    + intros k Hk. specialize (Hact (S k) ltac:(lia)).
      rewrite produce_n_S, Hp in Hact. exact Hact.
Qed.

(** Whatever the fuel, a loop that ends has made exactly the calls that
    the states asked for. *)
Lemma produce_loop_stops fuel : ∀ l ans cs l' ans' cs',
  produce_loop fuel l ans cs = Some (l', ans', cs') →
  ∃ n, (n ≤ fuel)%nat
       ∧ (∀ k, (k < n)%nat →
               udp_state_active (state (fst (produce_n k l ans))) = true)
       ∧ udp_state_active (state l') = false
       ∧ produce_n n l ans = (l', ans')
       ∧ cs' = cs ++ repeat CallProduce n.
Proof.
  induction fuel as [|fuel IH]; intros l ans cs l' ans' cs' Hrun;
    cbn [produce_loop] in Hrun;
    destruct (udp_state_active (state l)) eqn:Hact; try discriminate.
  - injection Hrun as <- <- <-. exists 0%nat.
    cbn [produce_n repeat]. rewrite app_nil_r.
    repeat split; try done. intros k Hk. lia.
  - destruct (knot_layer_produce l ans) as [l1 ans1] eqn:Hp.
    apply IH in Hrun as (n & Hn & Hk & Hstop & Hend & ->).
    exists (S n). rewrite produce_n_S, Hp. cbn [fst snd repeat].
    rewrite <- app_assoc. repeat split; try done; [lia|].
    intros [|k] Hlt; [exact Hact|].
    rewrite produce_n_S, Hp. apply Hk. lia.
  - injection Hrun as <- <- <-. exists 0%nat.
    cbn [produce_n repeat]. rewrite app_nil_r.
    repeat split; try done; [lia|]. intros k Hk. lia.
Qed.

(** One run of [udp_handle], for a layer that leaves PRODUCE and FAIL
    after [n] calls of produce. *)
Lemma udp_handle_runs (udp : udp_context_t D) (fd ss : Z)
    (rx tx : iovec) (n fuel : nat) :
  let params :=
    {| remote := ss;
       flags := Z.lor KNOTD_QUERY_FLAG_NO_AXFR
                  (Z.lor KNOTD_QUERY_FLAG_NO_IXFR
                         KNOTD_QUERY_FLAG_LIMIT_SIZE);
       socket := fd; thread_id := udp_thread_id udp |} in
  let query := input_packet rx in
  let l1 := knot_layer_consume (knot_layer_begin (layer udp) params) query in
  let ans0 := knot_pkt_new (iov_base tx) (iov_len tx) in
  let last := produce_n n l1 ans0 in
  (∀ k, (k < n)%nat →
        udp_state_active (state (fst (produce_n k l1 ans0))) = true) →
  udp_state_active (state (fst last)) = false →
  (n ≤ fuel)%nat →
  udp_handle fuel udp fd ss rx tx
  = Some {| udp_after := {| layer := knot_layer_finish (fst last);
                            udp_thread_id := udp_thread_id udp |};
            tx_after :=
              if decide (state (fst last) = KNOT_STATE_DONE)
              then {| iov_base := iov_base tx; iov_len := size (snd last) |}
              else {| iov_base := iov_base tx; iov_len := 0 |};
            ans_after := snd last;
            calls := ([CallBegin params; CallConsume query]
                      ++ repeat CallProduce n) ++ [CallFinish; CallFlush] |}.
Proof.
  cbv zeta. intros Hact Hstop Hfuel. unfold udp_handle.
  now rewrite (produce_loop_runs n _ _ _ fuel Hact Hstop Hfuel).
Qed.

(** C1.  [udp_handle] calls begin once, then consume once on the parsed
    query, then produce once for every state that is PRODUCE or FAIL, up
    to the first state that is neither; the TX length is the size of the
    answer when that state is DONE and 0 otherwise, in which case
    [udp_recvfrom_send] sends nothing. *)
Theorem udp_handle_drives_layer (udp : udp_context_t D) (fd ss : Z)
    (rx tx : iovec) (n fuel : nat) :
  let params :=
    {| remote := ss;
       flags := Z.lor KNOTD_QUERY_FLAG_NO_AXFR
                  (Z.lor KNOTD_QUERY_FLAG_NO_IXFR
                         KNOTD_QUERY_FLAG_LIMIT_SIZE);
       socket := fd; thread_id := udp_thread_id udp |} in
  let query := input_packet rx in
  let l1 := knot_layer_consume (knot_layer_begin (layer udp) params) query in
  let ans0 := knot_pkt_new (iov_base tx) (iov_len tx) in
  let last := produce_n n l1 ans0 in
  (∀ k, (k < n)%nat →
        udp_state_active (state (fst (produce_n k l1 ans0))) = true) →
  udp_state_active (state (fst last)) = false →
  (n ≤ fuel)%nat →
  ∃ h, udp_handle fuel udp fd ss rx tx = Some h
       ∧ calls h = [CallBegin params; CallConsume query]
                   ++ repeat CallProduce n ++ [CallFinish; CallFlush]
       ∧ ans_after h = snd last
       ∧ layer (udp_after h) = knot_layer_finish (fst last)
       ∧ iov_len (tx_after h)
         = (if decide (state (fst last) = KNOT_STATE_DONE)
            then size (snd last) else 0)
       ∧ (state (fst last) ≠ KNOT_STATE_DONE →
          udp_recvfrom_send (tx_after h) (ans_after h) = None).
Proof.
  cbv zeta. intros Hact Hstop Hfuel.
  eexists. split; [exact (udp_handle_runs udp fd ss rx tx n fuel Hact Hstop Hfuel)|].
  cbn [calls ans_after udp_after layer tx_after].
  split; [now rewrite <- app_assoc|]. split; [reflexivity|].
  split; [reflexivity|].
  destruct (decide (state _ = KNOT_STATE_DONE)) as [Hd|Hd];
    cbn [iov_len]; split; try done.
Qed.

(** Conversely, every call of [udp_handle] that comes back has driven
    the layer that way. *)
Lemma udp_handle_calls (udp : udp_context_t D) (fd ss : Z) (rx tx : iovec)
    (fuel : nat) (h : handled D) :
  udp_handle fuel udp fd ss rx tx = Some h →
  ∃ params n,
    calls h = [CallBegin params; CallConsume (input_packet rx)]
              ++ repeat CallProduce n ++ [CallFinish; CallFlush]
    ∧ udp_state_active (state (fst (produce_n n
        (knot_layer_consume (knot_layer_begin (layer udp) params)
           (input_packet rx))
        (knot_pkt_new (iov_base tx) (iov_len tx))))) = false
    ∧ ∀ k, (k < n)%nat →
        udp_state_active (state (fst (produce_n k
          (knot_layer_consume (knot_layer_begin (layer udp) params)
             (input_packet rx))
          (knot_pkt_new (iov_base tx) (iov_len tx))))) = true.
Proof.
  unfold udp_handle. intros Hrun.
  destruct (produce_loop _ _ _ _) as [[[l' ans'] cs']|] eqn:Hloop;
    [|discriminate].
  apply produce_loop_stops in Hloop as (n & _ & Hk & Hstop & Hend & ->).
  injection Hrun as <-. eexists _, n. cbn [calls].
  rewrite Hend. cbn [fst]. split; [|done].
  cbn [app]. rewrite <- ?app_assoc. reflexivity.
Qed.

End UdpHandle.

Section UdpParseFailure.

Import Libknot UdpHandler.
Context {codec : Codec}.
Variable answer_query : knot_pkt_t -> knot_pkt_t -> knot_pkt_t.





End UdpParseFailure.

Section UdpPktinfo.

Import Libknot UdpHandler.
Implicit Types (rx tx : msghdr) (mem : gmap positive cmsghdr).

(** C9.  [udp_pktinfo_handle] gives the TX header the control length of
    the RX header and its control buffer (the same address, or NULL when
    the length is 0).  When that buffer starts with an IPv4 PKTINFO, the
    message is left in it with interface index 0 and the local (source)
    address set to the address the query was sent to; when it starts with
    an IPv6 PKTINFO, with interface index 0 and its address as it
    was. *)
Theorem udp_pktinfo_handle_pktinfo rx tx mem :
  (∀ tx' mem', udp_pktinfo_handle rx tx mem = Some (tx', mem') →
     msg_controllen tx' = msg_controllen rx
     ∧ msg_control tx'
       = (if 0 <? msg_controllen rx then msg_control rx else None))
  ∧ (∀ c cmsg, msg_control rx = Some c →
       sizeof_cmsghdr ≤ msg_controllen rx →
       mem !! c = Some cmsg →
       (∀ info, cmsg_level cmsg = IPPROTO_IP →
          cmsg_type cmsg = IP_PKTINFO →
          cmsg_data cmsg = Data_in_pktinfo info →
          ∃ tx' mem' cmsg',
            udp_pktinfo_handle rx tx mem = Some (tx', mem')
            ∧ msg_control tx' = Some c
            ∧ mem' !! c = Some cmsg'
            ∧ cmsg_level cmsg' = IPPROTO_IP
            ∧ cmsg_type cmsg' = IP_PKTINFO
            ∧ cmsg_data cmsg'
              = Data_in_pktinfo {| ipi_ifindex := 0;
                                   ipi_spec_dst := ipi_addr info;
                                   ipi_addr := ipi_addr info |})
       ∧ (∀ info, cmsg_level cmsg = IPPROTO_IPV6 →
            cmsg_type cmsg = IPV6_PKTINFO →
            cmsg_data cmsg = Data_in6_pktinfo info →
            ∃ tx' mem' cmsg',
              udp_pktinfo_handle rx tx mem = Some (tx', mem')
              ∧ msg_control tx' = Some c
              ∧ mem' !! c = Some cmsg'
              ∧ cmsg_level cmsg' = IPPROTO_IPV6
              ∧ cmsg_type cmsg' = IPV6_PKTINFO
              ∧ cmsg_data cmsg'
                = Data_in6_pktinfo {| ipi6_addr := ipi6_addr info;
                                      ipi6_ifindex := 0 |})).
Proof.
  split.
  - intros tx' mem'. unfold udp_pktinfo_handle.
    destruct (CMSG_FIRSTHDR _) as [c|]; [|intros [= <- <-]; done].
    destruct (mem !! c) as [cmsg|]; cbn [mbind option_bind];
      [|discriminate].
    destruct (_ && _).
    + destruct (cmsg_data cmsg); try discriminate. intros [= <- <-]; done.
    + destruct (_ && _); [|intros [= <- <-]; done].
      destruct (cmsg_data cmsg); try discriminate. intros [= <- <-]; done.
  - intros c cmsg Hc Hlen Hmem.
    assert (Hfirst : ∀ tx0,
      CMSG_FIRSTHDR {| msg_namelen := msg_namelen tx0;
                       msg_controllen := msg_controllen rx;
                       msg_control := if 0 <? msg_controllen rx
                                      then msg_control rx else None |}
      = Some c).
    { intros tx0. unfold CMSG_FIRSTHDR. cbn [msg_controllen msg_control].
      unfold sizeof_cmsghdr in *.
      assert ((16 <=? msg_controllen rx) = true) as -> by lia.
      assert ((0 <? msg_controllen rx) = true) as -> by lia.
      exact Hc. }
    assert (Hpos : (0 <? msg_controllen rx) = true)
      by (unfold sizeof_cmsghdr in *; lia).
    split; intros info Hlevel Htype Hdata; unfold udp_pktinfo_handle;
      rewrite Hfirst, Hmem; cbn [mbind option_bind];
      rewrite Hlevel, Htype, Hdata; cbn [Z.eqb Pos.eqb andb IPPROTO_IP
        IP_PKTINFO IPPROTO_IPV6 IPV6_PKTINFO];
      do 3 eexists; (split; [reflexivity|]);
      cbn [msg_control]; rewrite Hpos, lookup_insert_eq; done.
Qed.

End UdpPktinfo.

(** C1 on the reference query processor: a query of a bare header makes
    the layer PRODUCE, one call of produce ends it. *)
Lemma udp_handle_drives_layer_witness :
  ∃ h, UdpHandler.udp_handle
         (api := UdpHandler.process_query_layer UdpHandler.Reference.answer)
         (codec := UdpHandler.Reference.codec)
         5 UdpHandler.Reference.context 7 1
         UdpHandler.Reference.rx_header UdpHandler.Reference.tx_empty
       = Some h
       ∧ UdpHandler.calls h
         = [UdpHandler.CallBegin
              {| UdpHandler.remote := 1; UdpHandler.flags := 7;
                 UdpHandler.socket := 7; UdpHandler.thread_id := 0 |};
            UdpHandler.CallConsume
              (UdpHandler.input_packet (codec := UdpHandler.Reference.codec)
                 UdpHandler.Reference.rx_header);
            UdpHandler.CallProduce; UdpHandler.CallFinish;
            UdpHandler.CallFlush]
       ∧ UdpHandler.iov_len (UdpHandler.tx_after h) = 12.
Proof.
  destruct (udp_handle_drives_layer
              (api := UdpHandler.process_query_layer
                        UdpHandler.Reference.answer)
              (codec := UdpHandler.Reference.codec)
              UdpHandler.Reference.context 7 1
              UdpHandler.Reference.rx_header
              UdpHandler.Reference.tx_empty 1 5)
    as (h & Hh & Hcalls & _ & _ & Hlen & _).
  - intros k Hk. assert (k = 0%nat) as -> by lia. reflexivity.
  - reflexivity.
  - lia.
  - exists h. split; [exact Hh|]. split; [exact Hcalls | exact Hlen].
Defined.


(** C9 on an IPv4 PKTINFO received on interface 3. *)
Lemma udp_pktinfo_handle_pktinfo_witness :
  ∃ tx' mem' cmsg',
    UdpHandler.udp_pktinfo_handle (UdpHandler.Reference.rx_msg 28)
      UdpHandler.Reference.tx_msg {[ 1%positive := UdpHandler.Reference.cmsg4 ]}
    = Some (tx', mem')
    ∧ UdpHandler.msg_control tx' = Some 1%positive
    ∧ mem' !! 1%positive = Some cmsg'
    ∧ UdpHandler.cmsg_data cmsg'
      = UdpHandler.Data_in_pktinfo
          {| UdpHandler.ipi_ifindex := 0;
             UdpHandler.ipi_spec_dst := 0xC0000201;
             UdpHandler.ipi_addr := 0xC0000201 |}.
Proof.
  destruct (udp_pktinfo_handle_pktinfo (UdpHandler.Reference.rx_msg 28)
              UdpHandler.Reference.tx_msg
              {[ 1%positive := UdpHandler.Reference.cmsg4 ]}) as [_ H].
  destruct (H 1%positive UdpHandler.Reference.cmsg4) as [H4 _].
  - reflexivity.
  - vm_compute. discriminate.
  - apply lookup_singleton_eq.
  - destruct (H4 _ eq_refl eq_refl eq_refl)
      as (tx' & mem' & cmsg' & Hrun & Hctl & Hmem & _ & _ & Hdata).
    exists tx', mem', cmsg'. repeat split; assumption.
Defined.

(** ** The QUIC connection table *)

Section QuicTable.

Import Quic.
Context {platform : Platform}.
Implicit Types (d : list Z) (id cid : ngtcp2_cid).
Implicit Types (heap : gmap positive knot_quic_conn_t).
Implicit Types (table : knot_quic_table_t).

(** The first loop folds the words of the whole chunks and stops at the
    first offset that has no whole chunk left. *)
Lemma hash_words_spec d end_ (n : nat) : ∀ k hash fuel,
  0 ≤ k → k + Z.of_nat n = end_ / 8 → 0 ≤ end_ → (n ≤ fuel)%nat →
  hash_words fuel d end_ (8 * k) hash
  = Some (fold_left Z.lxor
            (map (fun k => load64 d (8 * k)) (seqZ k (Z.of_nat n))) hash,
          8 * (end_ / 8)).
Proof.
  induction n as [|n IH]; intros k hash fuel Hk Hn Hend Hfuel.
  - assert (Hcond : (8 * k <? end_) && (8 <=? end_ - 8 * k) = false).
    { pose proof (Z.mod_pos_bound end_ 8 ltac:(lia)).
      pose proof (Z.div_mod end_ 8 ltac:(lia)).
      apply andb_false_iff. right. lia. }
    replace (end_ / 8) with k by lia.
    destruct fuel; cbn [hash_words]; rewrite Hcond; reflexivity.
  - assert (Hcond : (8 * k <? end_) && (8 <=? end_ - 8 * k) = true).
    { pose proof (Z.mod_pos_bound end_ 8 ltac:(lia)).
      pose proof (Z.div_mod end_ 8 ltac:(lia)).
      apply andb_true_iff. split; lia. }
    destruct fuel as [|fuel]; [lia|].
    cbn [hash_words]. rewrite Hcond.
    replace (8 * k + 8) with (8 * (k + 1)) by lia.
    rewrite IH by lia.
    rewrite (seqZ_cons k (Z.of_nat (S n))) by lia.
    replace (Z.succ k) with (k + 1) by lia.
    replace (Z.pred (Z.of_nat (S n))) with (Z.of_nat n) by lia.
    reflexivity.
Qed.

(** The second loop folds the bytes that are left, the first of them
    shifted to the top byte. *)
Lemma hash_tail_spec d end_ base (m : nat) : ∀ j hash fuel,
  0 ≤ j → base + j + Z.of_nat m = end_ → (m ≤ fuel)%nat →
  hash_tail fuel d end_ (base + j) (7 - j) hash
  = Some (fold_left Z.lxor
            (map (fun j => shl_int (byte_at d (base + j)) ((7 - j) * 8))
               (seqZ j (Z.of_nat m))) hash).
Proof.
  induction m as [|m IH]; intros j hash fuel Hj Hm Hfuel.
  - assert (Hcond : (base + j <? end_) = false) by lia.
    destruct fuel; cbn [hash_tail]; rewrite Hcond; reflexivity.
  - assert (Hcond : (base + j <? end_) = true) by lia.
    destruct fuel as [|fuel]; [lia|].
    cbn [hash_tail]. rewrite Hcond.
    replace (base + j + 1) with (base + (j + 1)) by lia.
    replace (7 - j - 1) with (7 - (j + 1)) by lia.
    rewrite IH by lia.
    rewrite (seqZ_cons j (Z.of_nat (S m))) by lia.
    replace (Z.succ j) with (j + 1) by lia.
    replace (Z.pred (Z.of_nat (S m))) with (Z.of_nat m) by lia.
    reflexivity.
Qed.

(** The hash is the xor-fold of the chunks and the trailing bytes. *)
Lemma knot_quic_conn_hash_spec id :
  0 ≤ datalen id → knot_quic_conn_hash id = Some (hash_spec id).
Proof.
  intros Hlen. unfold knot_quic_conn_hash, hash_spec.
  set (sz := Z.min (datalen id) NGTCP2_MAX_CIDLEN).
  assert (Hsz : 0 ≤ sz) by (unfold sz, NGTCP2_MAX_CIDLEN; lia).
  pose proof (Z.mod_pos_bound sz 8 ltac:(lia)) as Hmod.
  pose proof (Z.div_mod sz 8 ltac:(lia)) as Hdiv.
  assert (Hq : 0 ≤ sz / 8) by (apply Z.div_pos; lia).
  pose proof (hash_words_spec (data id) sz (Z.to_nat (sz / 8)) 0 0
                (Z.to_nat sz) ltac:(lia) ltac:(lia) Hsz ltac:(lia)) as Hw.
  change (8 * 0) with 0 in Hw. rewrite Hw. cbn [mbind option_bind].
  pose proof (hash_tail_spec (data id) sz (8 * (sz / 8))
                (Z.to_nat (sz mod 8)) 0
                (fold_left Z.lxor
                   (map (fun k => load64 (data id) (8 * k))
                      (seqZ 0 (Z.of_nat (Z.to_nat (sz / 8))))) 0)
                (Z.to_nat sz) ltac:(lia) ltac:(lia) ltac:(lia)) as Ht.
  rewrite Z.add_0_r in Ht. change (7 - 0) with (8 - 1) in Ht.
  rewrite Ht. unfold xor_fold. rewrite fold_left_app.
  rewrite !Z2Nat.id by lia. reflexivity.
Qed.

(** *** The copy of the id that the table keeps *)

Lemma map_fmap {A B} (f : A → B) (l : list A) : map f l = f <$> l.
Proof. reflexivity. Qed.

Lemma ngtcp2_cid_init_datalen d len cid :
  ngtcp2_cid_init d len = Some cid →
  datalen cid = len ∧ len ≤ NGTCP2_MAX_CIDLEN.
Proof.
  unfold ngtcp2_cid_init. destruct (len <=? _) eqn:Hle; [|discriminate].
  intros [= <-]. split; [reflexivity | lia].
Qed.

Lemma byte_at_cid_init d len cid i :
  ngtcp2_cid_init d len = Some cid → 0 ≤ i < len →
  byte_at (data cid) i = byte_at d i.
Proof.
  unfold ngtcp2_cid_init. destruct (len <=? _) eqn:Hle; [|discriminate].
  intros Heq Hi.
  assert (Hd : data cid
               = map (fun i => if i <? len then byte_at d i else 0)
                   (seqZ 0 NGTCP2_MAX_CIDLEN))
    by (injection Heq as <-; reflexivity).
  rewrite Hd. unfold byte_at at 1. apply nth_lookup_Some.
  rewrite map_fmap, list_lookup_fmap, lookup_seqZ_lt
    by (unfold NGTCP2_MAX_CIDLEN in *; lia).
  cbn [fmap option_fmap option_map]. rewrite Z2Nat.id by lia.
  replace (0 + i) with i by lia.
  assert ((i <? len) = true) as -> by lia. reflexivity.
Qed.

(** The hash reads nothing beyond [end]. *)
Lemma load64_ext d1 d2 end_ it1 :
  (∀ i, 0 ≤ i < end_ → byte_at d1 i = byte_at d2 i) →
  0 ≤ it1 → 8 ≤ end_ - it1 → load64 d1 it1 = load64 d2 it1.
Proof.
  intros Hext H0 H8. unfold load64.
  change (seqZ 0 8) with [0; 1; 2; 3; 4; 5; 6; 7]. cbn [map].
  rewrite !(Hext (it1 + _)) by lia. reflexivity.
Qed.

Lemma hash_words_ext d1 d2 end_ :
  (∀ i, 0 ≤ i < end_ → byte_at d1 i = byte_at d2 i) →
  ∀ fuel it1 hash, 0 ≤ it1 →
    hash_words fuel d1 end_ it1 hash = hash_words fuel d2 end_ it1 hash.
Proof.
  intros Hext. induction fuel as [|fuel IH]; intros it1 hash H0;
    cbn [hash_words]; [reflexivity|].
  destruct ((it1 <? end_) && (8 <=? end_ - it1)) eqn:Hcond; [|reflexivity].
  apply andb_true_iff in Hcond as [_ H8].
  rewrite (load64_ext d1 d2 end_ it1) by (done || lia).
  apply IH. lia.
Qed.

Lemma hash_words_offset d end_ : ∀ fuel it1 hash h it1',
  hash_words fuel d end_ it1 hash = Some (h, it1') → it1 ≤ it1'.
Proof.
  induction fuel as [|fuel IH]; intros it1 hash h it1'; cbn [hash_words];
    destruct ((it1 <? end_) && (8 <=? end_ - it1)); try discriminate;
    try (intros [= <- <-]; lia).
  intros Hrun. apply IH in Hrun. lia.
Qed.

Lemma hash_tail_ext d1 d2 end_ :
  (∀ i, 0 ≤ i < end_ → byte_at d1 i = byte_at d2 i) →
  ∀ fuel it2 shift hash, 0 ≤ it2 →
    hash_tail fuel d1 end_ it2 shift hash
    = hash_tail fuel d2 end_ it2 shift hash.
Proof.
  intros Hext. induction fuel as [|fuel IH]; intros it2 shift hash H0;
    cbn [hash_tail]; [reflexivity|].
  destruct (it2 <? end_) eqn:Hcond; [|reflexivity].
  rewrite (Hext it2) by lia. apply IH. lia.
Qed.

(** The copy hashes as the id it was made from, whatever lies behind the
    id in its buffer. *)
Lemma knot_quic_conn_hash_cid_init id cid :
  ngtcp2_cid_init (data id) (datalen id) = Some cid →
  knot_quic_conn_hash cid = knot_quic_conn_hash id.
Proof.
  intros Hinit.
  destruct (ngtcp2_cid_init_datalen _ _ _ Hinit) as [Hlen Hmax].
  assert (Hext : ∀ i, 0 ≤ i < Z.min (datalen id) NGTCP2_MAX_CIDLEN →
                      byte_at (data cid) i = byte_at (data id) i).
  { intros i Hi. apply (byte_at_cid_init _ _ _ _ Hinit). lia. }
  unfold knot_quic_conn_hash. rewrite Hlen.
  rewrite (hash_words_ext _ _ _ Hext) by lia.
  destruct (hash_words _ (data id) _ 0 0) as [[h it1]|] eqn:Hw;
    [|reflexivity].
  cbn [mbind option_bind]. apply hash_words_offset in Hw.
  apply (hash_tail_ext _ _ _ Hext). lia.
Qed.

Lemma ngtcp2_cid_eq_init id cid :
  ngtcp2_cid_init (data id) (datalen id) = Some cid →
  ngtcp2_cid_eq cid id = true.
Proof.
  intros Hinit.
  destruct (ngtcp2_cid_init_datalen _ _ _ Hinit) as [Hlen Hmax].
  unfold ngtcp2_cid_eq. rewrite Hlen, Z.eqb_refl. cbn [andb].
  apply forallb_forall. intros i Hi.
  apply list_elem_of_In, elem_of_seqZ in Hi.
  apply Z.eqb_eq, (byte_at_cid_init _ _ _ _ Hinit). lia.
Qed.

(** *** Adding and finding *)

(** What a successful [knot_quic_table_add] did. *)
Lemma knot_quic_table_add_Some ok heap table id c heap' table' :
  knot_quic_table_add ok heap table id = Some (Some c, heap', table') →
  ∃ cid h i head,
    ngtcp2_cid_init (data id) (datalen id) = Some cid
    ∧ knot_quic_conn_hash cid = Some h
    ∧ bucket table h = Some i
    ∧ conns table !! i = Some head
    ∧ c = fresh (dom heap)
    ∧ heap' = <[c := {| dcid := cid; conn := None; next := head |}]> heap
    ∧ size table' = size table
    ∧ conns table' = <[i := Some c]> (conns table).
Proof.
  unfold knot_quic_table_add, calloc.
  destruct ok; [|intros [= ]].
  destruct (ngtcp2_cid_init _ _) as [cid|] eqn:Hinit; [|discriminate].
  cbn [mbind option_bind].
  destruct (knot_quic_conn_hash cid) as [h|] eqn:Hh; [|discriminate].
  cbn [mbind option_bind].
  destruct (bucket table h) as [i|] eqn:Hb; [|discriminate].
  cbn [mbind option_bind].
  destruct (conns table !! i) as [head|] eqn:Hhead; [|discriminate].
  cbn [mbind option_bind]. intros [= <- <- <-].
  exists cid, h, i, head. done.
Qed.

Lemma bucket_Some table h i :
  bucket table h = Some i →
  size table ≠ 0
  ∧ i = Z.to_nat (h mod size table) ∧ (i < length (conns table))%nat.
Proof.
  unfold bucket. destruct (size table =? 0) eqn:Hz; [discriminate|].
  destruct (_ <? _)%nat eqn:Hlt; [|discriminate]. intros [= <-].
  apply Nat.ltb_lt in Hlt. lia.
Qed.

(** C5.  After [knot_quic_table_add] has returned a connection for an
    id, [knot_quic_table_find] returns that very connection for the
    same id, at its first step along the chain. *)
Theorem knot_quic_table_find_after_add ok heap table id c heap' table' :
  knot_quic_table_add ok heap table id = Some (Some c, heap', table') →
  ∀ fuel,
    knot_quic_table_find (S fuel) heap' table' id = Some (Some c).
Proof.
  intros Hadd fuel.
  apply knot_quic_table_add_Some in Hadd
    as (cid & h & i & head & Hinit & Hhash & Hb & Hhead & -> & -> & Hsz & Hc).
  unfold knot_quic_table_find.
  rewrite <- (knot_quic_conn_hash_cid_init _ _ Hinit), Hhash.
  cbn [mbind option_bind].
  assert (Hb' : bucket table' h = Some i).
  { revert Hb. unfold bucket. now rewrite Hsz, Hc, length_insert. }
  rewrite Hb'. cbn [mbind option_bind].
  assert (Hi : (i < length (conns table))%nat)
    by (apply lookup_lt_Some in Hhead; exact Hhead).
  rewrite Hc, list_lookup_insert_eq by exact Hi.
  cbn [mbind option_bind find_chain].
  rewrite lookup_insert_eq. cbn [mbind option_bind dcid].
  now rewrite (ngtcp2_cid_eq_init _ _ Hinit).
Qed.

(** On a table whose array has the length its size says, adding an id
    of at most [NGTCP2_MAX_CIDLEN] bytes returns a connection whenever
    the allocation succeeds. *)
Lemma knot_quic_table_add_returns heap table id :
  0 ≤ datalen id ≤ NGTCP2_MAX_CIDLEN →
  0 < size table →
  length (conns table) = Z.to_nat (size table) →
  ∃ heap' table',
    knot_quic_table_add true heap table id
    = Some (Some (fresh (dom heap)), heap', table').
Proof.
  intros Hlen Hsz Hconns. unfold knot_quic_table_add, calloc.
  unfold ngtcp2_cid_init.
  assert ((datalen id <=? NGTCP2_MAX_CIDLEN) = true) as -> by lia.
  cbn [mbind option_bind].
  rewrite knot_quic_conn_hash_spec by (cbn [datalen]; lia).
  cbn [mbind option_bind].
  set (h := hash_spec _).
  pose proof (Z.mod_pos_bound h (size table) Hsz) as Hmod.
  unfold bucket.
  assert ((size table =? 0) = false) as -> by lia.
  assert ((Z.to_nat (h mod size table) <? length (conns table))%nat = true)
    as -> by (apply Nat.ltb_lt; lia).
  cbn [mbind option_bind].
  destruct (lookup_lt_is_Some_2 (conns table) (Z.to_nat (h mod size table)))
    as [head ->]; [lia|].
  cbn [mbind option_bind]. eauto.
Qed.

(** C4, as the code has it.  The hash of an id is the xor-fold of the
    words of its whole 8-byte chunks and of its trailing bytes; a new
    table has exactly the number of slots asked for, 100 for the table of
    [quic_recvfrom_init]; a connection is added at the head of the chain
    of the slot [hash mod size], in front of the connections that were
    there, and nothing else in the table or the heap changes. *)
Theorem knot_quic_table_hash_slots_chains :
  (∀ id, 0 ≤ datalen id → knot_quic_conn_hash id = Some (hash_spec id))
  ∧ (∀ n table, knot_quic_table_new true n = Some table →
       size table = n ∧ conns table = replicate (Z.to_nat n) None)
  ∧ (∀ table, quic_recvfrom_init_conns true = Some table →
       size table = 100)
  ∧ (∀ ok heap table id c heap' table',
       knot_quic_table_add ok heap table id = Some (Some c, heap', table') →
       ∃ cid h head,
         let i := Z.to_nat (h mod size table) in
         ngtcp2_cid_init (data id) (datalen id) = Some cid
         ∧ knot_quic_conn_hash cid = Some h
         ∧ conns table !! i = Some head
         ∧ conns table' !! i = Some (Some c)
         ∧ heap' !! c = Some {| dcid := cid; conn := None; next := head |}
         ∧ heap !! c = None
         ∧ (∀ a, a ≠ c → heap' !! a = heap !! a)
         ∧ (∀ j, j ≠ i → conns table' !! j = conns table !! j)
         ∧ size table' = size table).
Proof.
  split; [exact knot_quic_conn_hash_spec|].
  split; [intros n table [= <-]; done|].
  split; [intros table [= <-]; done|].
  intros ok heap table id c heap' table' Hadd.
  apply knot_quic_table_add_Some in Hadd
    as (cid & h & i & head & Hinit & Hhash & Hb & Hhead & -> & -> & Hsz & Hc).
  apply bucket_Some in Hb as (_ & -> & Hi).
  exists cid, h, head. cbv zeta. rewrite Hc.
  split; [exact Hinit|]. split; [exact Hhash|]. split; [exact Hhead|].
  split; [now apply list_lookup_insert_eq|].
  split; [apply lookup_insert_eq|].
  split; [apply not_elem_of_dom_1, is_fresh|].
  split; [intros a Ha; now apply lookup_insert_ne|].
  split; [intros j Hj; now apply list_lookup_insert_ne|exact Hsz].
Qed.

End QuicTable.

(** C4 as the specification words it does not hold: the table that
    [quic_recvfrom_init] creates has 100 slots, which is neither the next
    power of two above the capacity asked for nor a power of two at
    all. *)
Lemma quic_table_size_not_power_of_two :
  ∃ table, Quic.quic_recvfrom_init_conns true = Some table
           ∧ Quic.size table = 100
           ∧ length (Quic.conns table) = 100%nat
           ∧ Quic.next_pow2 100 = 128
           ∧ Quic.size table ≠ Quic.next_pow2 100
           ∧ ∀ k, 0 ≤ k → 2 ^ k ≠ Quic.size table.
Proof.
  eexists. split; [reflexivity|]. cbn [Quic.size Quic.conns].
  split; [reflexivity|]. split; [reflexivity|]. split; [reflexivity|].
  split; [discriminate|].
  intros k Hk Hpow.
  destruct (Z_le_gt_dec k 6) as [Hle|Hgt].
  - pose proof (Z.pow_le_mono_r 2 k 6 ltac:(lia) Hle). lia.
  - pose proof (Z.pow_le_mono_r 2 7 k ltac:(lia) ltac:(lia)). lia.
Qed.

(** C4 on a 10-byte id, x86-64: one whole chunk and two trailing bytes. *)
Lemma knot_quic_table_hash_slots_chains_witness :
  Quic.knot_quic_conn_hash (platform := Quic.Reference.x86_64)
    Quic.Reference.cid10
  = Some (Quic.hash_spec (platform := Quic.Reference.x86_64)
            Quic.Reference.cid10).
Proof.
  apply (proj1 (knot_quic_table_hash_slots_chains
                  (platform := Quic.Reference.x86_64))).
  vm_compute. discriminate.
Defined.

(** C5 on the empty table of 100 slots. *)
Lemma knot_quic_table_find_after_add_witness :
  Quic.knot_quic_table_find (platform := Quic.Reference.x86_64) 1
    (<[1%positive :=
         {| Quic.dcid :=
              {| Quic.datalen := 10;
                 Quic.data := [1; 2; 3; 4; 5; 6; 7; 8; 9; 10;
                               0; 0; 0; 0; 0; 0; 0; 0; 0; 0] |};
            Quic.conn := None; Quic.next := None |}]> ∅)
    {| Quic.size := 100; Quic.usage := 0; Quic.inbufs_total := 0;
       Quic.conns := <[61%nat := Some 1%positive]> (replicate 100 None) |}
    Quic.Reference.cid10
  = Some (Some 1%positive).
Proof.
  apply (knot_quic_table_find_after_add (platform := Quic.Reference.x86_64)
           true ∅ Quic.Reference.table100 Quic.Reference.cid10).
  vm_compute. reflexivity.
Defined.

(** ** Runs on concrete datagrams *)

(** A datagram shorter than a header is dropped; a well-formed query
    without a question is answered. *)
Example udp_handle_runt :
  (λ h, (UdpHandler.iov_len (UdpHandler.tx_after h), UdpHandler.calls h))
  <$> UdpHandler.udp_handle
        (api := UdpHandler.process_query_layer UdpHandler.Reference.answer)
        (codec := UdpHandler.Reference.codec)
        5 UdpHandler.Reference.context 7 1
        UdpHandler.Reference.rx_runt UdpHandler.Reference.tx_empty
  = Some (0,
          [UdpHandler.CallBegin
             {| UdpHandler.remote := 1; UdpHandler.flags := 7;
                UdpHandler.socket := 7; UdpHandler.thread_id := 0 |};
           UdpHandler.CallConsume (Libknot.knot_pkt_new [0x12; 0x34; 0] 3);
           UdpHandler.CallFinish; UdpHandler.CallFlush]).
Proof. vm_compute. reflexivity. Qed.

Example udp_handle_header :
  (λ h, (UdpHandler.iov_len (UdpHandler.tx_after h),
         Libknot.wire_rcode (UdpHandler.ans_after h),
         Libknot.wire_id (UdpHandler.ans_after h),
         length (UdpHandler.calls h)))
  <$> UdpHandler.udp_handle
        (api := UdpHandler.process_query_layer UdpHandler.Reference.answer)
        (codec := UdpHandler.Reference.codec)
        5 UdpHandler.Reference.context 7 1
        UdpHandler.Reference.rx_header UdpHandler.Reference.tx_empty
  = Some (12, Libknot.KNOT_RCODE_NOERROR, 0x1234, 5%nat).
Proof. vm_compute. reflexivity. Qed.

(** Without fuel for the call of produce that the layer asks for, the
    model of the loop gives no result. *)
Example udp_handle_no_fuel :
  UdpHandler.udp_handle
    (api := UdpHandler.process_query_layer UdpHandler.Reference.answer)
    (codec := UdpHandler.Reference.codec)
    0 UdpHandler.Reference.context 7 1
    UdpHandler.Reference.rx_header UdpHandler.Reference.tx_empty
  = None.
Proof. vm_compute. reflexivity. Qed.

(** An IPv6 PKTINFO keeps its address and loses its interface index; a
    control length of 0 gives a NULL control buffer and leaves the store
    alone. *)
Example udp_pktinfo_handle_ipv6 :
  UdpHandler.udp_pktinfo_handle (UdpHandler.Reference.rx_msg 36)
    UdpHandler.Reference.tx_msg {[ 1%positive := UdpHandler.Reference.cmsg6 ]}
  = Some ({| UdpHandler.msg_namelen := 16;
             UdpHandler.msg_control := Some 1%positive;
             UdpHandler.msg_controllen := 36 |},
          {[ 1%positive :=
               {| UdpHandler.cmsg_len := 36;
                  UdpHandler.cmsg_level := UdpHandler.IPPROTO_IPV6;
                  UdpHandler.cmsg_type := UdpHandler.IPV6_PKTINFO;
                  UdpHandler.cmsg_data :=
                    UdpHandler.Data_in6_pktinfo
                      {| UdpHandler.ipi6_addr := 0x20010DB8;
                         UdpHandler.ipi6_ifindex := 0 |} |} ]}).
Proof. vm_compute. reflexivity. Qed.

Example udp_pktinfo_handle_empty :
  UdpHandler.udp_pktinfo_handle (UdpHandler.Reference.rx_msg 0)
    UdpHandler.Reference.tx_msg {[ 1%positive := UdpHandler.Reference.cmsg4 ]}
  = Some ({| UdpHandler.msg_namelen := 16;
             UdpHandler.msg_control := None;
             UdpHandler.msg_controllen := 0 |},
          {[ 1%positive := UdpHandler.Reference.cmsg4 ]}).
Proof. vm_compute. reflexivity. Qed.

(** On x86-64 the 10-byte id hashes to its first eight bytes, read little
    endian, xor its last two bytes shifted by 56 and 48 modulo 32. *)
Example knot_quic_conn_hash_cid10 :
  Quic.knot_quic_conn_hash (platform := Quic.Reference.x86_64)
    Quic.Reference.cid10
  = Some (Z.lxor 0x0807060504030201 (Z.lxor 0x09000000 0x000A0000)).
Proof. vm_compute. reflexivity. Qed.

(** Two ids that fall into the same slot are chained, the later one in
    front, and both are found. *)
Example knot_quic_table_chain :
  let id1 := {| Quic.datalen := 8; Quic.data := 61 :: repeat 0 19 |} in
  let id2 := {| Quic.datalen := 8; Quic.data := 161 :: repeat 0 19 |} in
  match Quic.knot_quic_table_add (platform := Quic.Reference.x86_64)
          true ∅ Quic.Reference.table100 id1 with
  | Some (Some c1, heap1, table1) =>
    match Quic.knot_quic_table_add (platform := Quic.Reference.x86_64)
            true heap1 table1 id2 with
    | Some (Some c2, heap2, table2) =>
      c1 ≠ c2
      ∧ Quic.next <$> heap2 !! c2 = Some (Some c1)
      ∧ Quic.knot_quic_table_find (platform := Quic.Reference.x86_64)
          2 heap2 table2 id1 = Some (Some c1)
      ∧ Quic.knot_quic_table_find (platform := Quic.Reference.x86_64)
          2 heap2 table2 id2 = Some (Some c2)
    | _ => False
    end
  | _ => False
  end.
Proof. vm_compute. repeat split. discriminate. Qed.

(** ** More on the connection table *)

Section QuicChainsProperties.

Import Quic QuicChains.
Context {platform : Platform}.
Implicit Types (id cid : ngtcp2_cid).
Implicit Types (heap : gmap positive knot_quic_conn_t).
Implicit Types (table : knot_quic_table_t).

(** X1.  Equal ids hash alike, so that an id is looked up in the slot its
    equals were added to. *)
Theorem ngtcp2_cid_eq_hash id id' :
  ngtcp2_cid_eq id id' = true →
  knot_quic_conn_hash id = knot_quic_conn_hash id'.
Proof.
  unfold ngtcp2_cid_eq. intros Heq.
  apply andb_true_iff in Heq as [Hlen Hbytes].
  apply Z.eqb_eq in Hlen.
  assert (Hext : ∀ i, 0 ≤ i < Z.min (datalen id') NGTCP2_MAX_CIDLEN →
                      byte_at (data id) i = byte_at (data id') i).
  { intros i Hi. rewrite forallb_forall in Hbytes.
    apply Z.eqb_eq, Hbytes, list_elem_of_In, elem_of_seqZ. lia. }
  unfold knot_quic_conn_hash. rewrite Hlen.
  rewrite (hash_words_ext _ _ _ Hext) by lia.
  destruct (hash_words _ (data id') _ 0 0) as [[h it1]|] eqn:Hw;
    [|reflexivity].
  cbn [mbind option_bind]. apply hash_words_offset in Hw.
  apply (hash_tail_ext _ _ _ Hext). lia.
Qed.

(** The copy kept in the table is equal to what the id is equal to. *)
Lemma ngtcp2_cid_eq_copy id cid id' :
  ngtcp2_cid_init (data id) (datalen id) = Some cid →
  ngtcp2_cid_eq cid id' = ngtcp2_cid_eq id id'.
Proof.
  intros Hinit.
  destruct (ngtcp2_cid_init_datalen _ _ _ Hinit) as [Hlen Hmax].
  unfold ngtcp2_cid_eq. rewrite Hlen. f_equal.
  apply eq_true_iff_eq. rewrite !forallb_forall.
  split; intros H i Hi; specialize (H i Hi);
    apply list_elem_of_In, elem_of_seqZ in Hi;
    rewrite (byte_at_cid_init _ _ _ i Hinit) in * by lia; exact H.
Qed.

(** A chain does not see a connection allocated after it was built. *)
Lemma chain_insert_fresh heap c e head l :
  heap !! c = None → chain heap head l → chain (<[c := e]> heap) head l.
Proof.
  intros Hc. induction 1 as [|a e' l Ha _ IH]; [constructor|].
  apply (chain_cons _ a e'); [|exact IH].
  rewrite lookup_insert_ne; [exact Ha|]. intros ->. congruence.
Qed.

Lemma find_chain_insert_fresh heap c e id : ∀ fuel head r,
  heap !! c = None →
  find_chain fuel heap head id = Some r →
  find_chain fuel (<[c := e]> heap) head id = Some r.
Proof.
  induction fuel as [|fuel IH]; intros [a|] r Hc; cbn [find_chain];
    try done.
  destruct (heap !! a) as [e'|] eqn:Ha; cbn [mbind option_bind];
    [|discriminate].
  rewrite lookup_insert_ne by (intros ->; congruence).
  rewrite Ha. cbn [mbind option_bind].
  destruct (ngtcp2_cid_eq (dcid e') id); [done|]. now apply IH.
Qed.

Lemma bucket_wf heap table h :
  table_wf heap table →
  ∃ i head, bucket table h = Some i ∧ conns table !! i = Some head
            ∧ ∃ l, chain heap head l.
Proof.
  intros (Hsz & Hlen & Hchains). unfold bucket.
  pose proof (Z.mod_pos_bound h (size table) Hsz) as Hmod.
  assert ((size table =? 0) = false) as -> by lia.
  assert ((Z.to_nat (h mod size table) <? length (conns table))%nat = true)
    as -> by (apply Nat.ltb_lt; lia).
  destruct (lookup_lt_is_Some_2 (conns table) (Z.to_nat (h mod size table)))
    as [head Hhead]; [lia|].
  exists (Z.to_nat (h mod size table)), head. eauto.
Qed.

(** X2.  A table fresh from [knot_quic_table_new] holds no connection: every
    lookup answers NULL, without a step along any chain. *)
Theorem knot_quic_table_find_new n table heap id fuel :
  0 < n → 0 ≤ datalen id →
  knot_quic_table_new true n = Some table →
  knot_quic_table_find fuel heap table id = Some None.
Proof.
  intros Hn Hlen [= <-]. unfold knot_quic_table_find.
  rewrite knot_quic_conn_hash_spec by exact Hlen.
  cbn [mbind option_bind]. set (h := hash_spec id).
  pose proof (Z.mod_pos_bound h n Hn) as Hmod.
  unfold bucket. cbn [size conns]. rewrite length_replicate.
  assert ((n =? 0) = false) as -> by lia.
  assert ((Z.to_nat (h mod n) <? Z.to_nat n)%nat = true)
    as -> by (apply Nat.ltb_lt; lia).
  cbn [mbind option_bind]. rewrite lookup_replicate_2 by lia.
  cbn [mbind option_bind]. now destruct fuel.
Qed.

Lemma knot_quic_table_add_NULL ok heap table id heap' table' :
  knot_quic_table_add ok heap table id = Some (None, heap', table') →
  heap' = heap ∧ table' = table.
Proof.
  unfold knot_quic_table_add, calloc. destruct ok.
  - destruct (ngtcp2_cid_init _ _); [|discriminate].
    cbn [mbind option_bind].
    destruct (knot_quic_conn_hash _); [|discriminate].
    cbn [mbind option_bind].
    destruct (bucket _ _); [|discriminate]. cbn [mbind option_bind].
    destruct (_ !! _); discriminate.
  - now intros [= <- <-].
Qed.

(** X3.  Well-formedness is what [knot_quic_table_new] gives and what
    [knot_quic_table_add] keeps, whether it allocates or not. *)
Theorem knot_quic_table_wf_invariant :
  (∀ n table heap,
     0 < n → knot_quic_table_new true n = Some table → table_wf heap table)
  ∧ (∀ ok heap table id r heap' table',
       table_wf heap table →
       knot_quic_table_add ok heap table id = Some (r, heap', table') →
       table_wf heap' table').
Proof.
  split.
  - intros n table heap Hn [= <-]. split; [exact Hn|].
    split; [cbn [conns size]; apply length_replicate|].
    intros i head Hi. cbn [conns] in Hi.
    apply lookup_replicate in Hi as [-> _]. exists []. constructor.
  - intros ok heap table id [c|] heap' table' Hwf Hadd.
    + apply knot_quic_table_add_Some in Hadd
        as (cid & h & i & head & Hinit & Hhash & Hb & Hhead & -> & -> & Hsz
            & Hc).
      destruct Hwf as (Hsize & Hlen & Hchains).
      assert (Hfresh : heap !! fresh (dom heap) = None)
        by apply not_elem_of_dom_1, is_fresh.
      split; [lia|]. split; [rewrite Hc, length_insert; lia|].
      intros j head' Hj. rewrite Hc in Hj.
      destruct (decide (j = i)) as [->|Hne].
      * rewrite list_lookup_insert_eq in Hj
          by (apply lookup_lt_Some in Hhead; exact Hhead).
        injection Hj as <-.
        destruct (Hchains i head Hhead) as [l Hl].
        exists (fresh (dom heap) :: l).
        eapply chain_cons; [apply lookup_insert_eq|].
        cbn [next]. now apply chain_insert_fresh.
      * rewrite list_lookup_insert_ne in Hj by congruence.
        destruct (Hchains j head' Hj) as [l Hl].
        exists l. now apply chain_insert_fresh.
    + apply knot_quic_table_add_NULL in Hadd as [-> ->]. exact Hwf.
Qed.

(** Along a chain the search ends, with a result that more fuel does not
    change. *)
Lemma find_chain_total heap head l id :
  chain heap head l →
  ∃ r, ∀ fuel, (length l ≤ fuel)%nat →
               find_chain fuel heap head id = Some r.
Proof.
  induction 1 as [|a e l Ha _ [r IH]].
  - exists None. now intros [|fuel] _.
  - destruct (ngtcp2_cid_eq (dcid e) id) eqn:Heq.
    + exists (Some a). intros [|fuel] Hfuel; [cbn in Hfuel; lia|].
      cbn [find_chain]. rewrite Ha. cbn [mbind option_bind].
      now rewrite Heq.
    + exists r. intros [|fuel] Hfuel; [cbn in Hfuel; lia|].
      cbn [find_chain]. rewrite Ha. cbn [mbind option_bind].
      rewrite Heq. apply IH. cbn in Hfuel. lia.
Qed.

(** X4.  On a well-formed table [knot_quic_table_find] comes back for
    every id, with an answer that does not depend on the fuel once there
    is enough of it. *)
Theorem knot_quic_table_find_total heap table id :
  table_wf heap table → 0 ≤ datalen id →
  ∃ n r, ∀ fuel, (n ≤ fuel)%nat →
                 knot_quic_table_find fuel heap table id = Some r.
Proof.
  intros Hwf Hlen.
  destruct (bucket_wf heap table (hash_spec id) Hwf)
    as (i & head & Hb & Hhead & l & Hl).
  destruct (find_chain_total heap head l id Hl) as [r Hr].
  exists (length l), r. intros fuel Hfuel. unfold knot_quic_table_find.
  rewrite knot_quic_conn_hash_spec by exact Hlen.
  cbn [mbind option_bind]. rewrite Hb. cbn [mbind option_bind].
  rewrite Hhead. cbn [mbind option_bind]. now apply Hr.
Qed.

Lemma find_chain_sound heap id : ∀ fuel head a,
  find_chain fuel heap head id = Some (Some a) →
  ∃ e, heap !! a = Some e ∧ ngtcp2_cid_eq (dcid e) id = true.
Proof.
  induction fuel as [|fuel IH]; intros [b|] a; cbn [find_chain];
    try discriminate.
  destruct (heap !! b) as [e|] eqn:Hb; cbn [mbind option_bind];
    [|discriminate].
  destruct (ngtcp2_cid_eq (dcid e) id) eqn:Heq.
  - intros [= <-]. eauto.
  - apply IH.
Qed.

Lemma find_chain_miss heap id : ∀ fuel head l,
  find_chain fuel heap head id = Some None →
  chain heap head l →
  ∀ b e, b ∈ l → heap !! b = Some e → ngtcp2_cid_eq (dcid e) id = false.
Proof.
  induction fuel as [|fuel IH]; intros head l Hfind Hl;
    destruct Hl as [|a e l Ha Hl]; cbn [find_chain] in Hfind;
    try discriminate; try (intros b e' Hb; now apply elem_of_nil in Hb).
  rewrite Ha in Hfind. cbn [mbind option_bind] in Hfind.
  destruct (ngtcp2_cid_eq (dcid e) id) eqn:Heq; [discriminate|].
  intros b e' Hb Hbe. apply elem_of_cons in Hb as [->|Hb].
  - congruence.
  - exact (IH _ _ Hfind Hl b e' Hb Hbe).
Qed.

(** X5.  What [knot_quic_table_find] answers: a connection it returns is live
    and keeps an id equal to the one asked for; when it returns NULL, no
    connection on the chain of the id's slot keeps an equal id. *)
Theorem knot_quic_table_find_sound fuel heap table id :
  (∀ a, knot_quic_table_find fuel heap table id = Some (Some a) →
        ∃ e, heap !! a = Some e ∧ ngtcp2_cid_eq (dcid e) id = true)
  ∧ (knot_quic_table_find fuel heap table id = Some None →
     ∃ h i head,
       knot_quic_conn_hash id = Some h
       ∧ bucket table h = Some i
       ∧ conns table !! i = Some head
       ∧ ∀ l, chain heap head l →
              ∀ b e, b ∈ l → heap !! b = Some e →
                     ngtcp2_cid_eq (dcid e) id = false).
Proof.
  unfold knot_quic_table_find.
  destruct (knot_quic_conn_hash id) as [h|] eqn:Hh; cbn [mbind option_bind];
    [|split; discriminate].
  destruct (bucket table h) as [i|] eqn:Hb; cbn [mbind option_bind];
    [|split; discriminate].
  destruct (conns table !! i) as [head|] eqn:Hhead;
    cbn [mbind option_bind]; [|split; discriminate].
  split.
  - intros a. apply find_chain_sound.
  - intros Hfind. exists h, i, head.
    split; [reflexivity|]. split; [exact Hb|]. split; [exact Hhead|].
    intros l. now apply (find_chain_miss heap id fuel).
Qed.

Lemma find_chain_more_fuel heap id : ∀ fuel head res,
  find_chain fuel heap head id = Some res →
  find_chain (S fuel) heap head id = Some res.
Proof.
  induction fuel as [|fuel IH]; intros [a|] res Hfind;
    cbn [find_chain] in Hfind; try done.
  remember (S fuel) as fuel' eqn:Hf. cbn [find_chain]. subst fuel'.
  destruct (heap !! a) as [e|]; cbn [mbind option_bind] in *; [|done].
  destruct (ngtcp2_cid_eq (dcid e) id); [done|]. now apply IH.
Qed.

(** X6.  Adding an id leaves the lookup of every id that is not equal to it as
    it was, the same connection or NULL, at the cost of at most one more
    step. *)
Theorem knot_quic_table_add_keeps_others ok heap table id' r heap' table'
    id fuel res :
  knot_quic_table_add ok heap table id' = Some (r, heap', table') →
  ngtcp2_cid_eq id' id = false →
  knot_quic_table_find fuel heap table id = Some res →
  knot_quic_table_find (S fuel) heap' table' id = Some res.
Proof.
  intros Hadd Hne Hfind. destruct r as [c|].
  - apply knot_quic_table_add_Some in Hadd
      as (cid & h' & i' & head' & Hinit & Hhash & Hb' & Hhead' & -> & ->
          & Hsz & Hc).
    assert (Hfresh : heap !! fresh (dom heap) = None)
      by apply not_elem_of_dom_1, is_fresh.
    revert Hfind. unfold knot_quic_table_find.
    destruct (knot_quic_conn_hash id) as [h|]; cbn [mbind option_bind];
      [|discriminate].
    assert (Hbucket : bucket table' h = bucket table h)
      by (unfold bucket; now rewrite Hsz, Hc, length_insert).
    rewrite Hbucket.
    destruct (bucket table h) as [i|]; cbn [mbind option_bind];
      [|discriminate].
    destruct (conns table !! i) as [head|] eqn:Hhead;
      cbn [mbind option_bind]; [|discriminate].
    intros Hfind. rewrite Hc.
    destruct (decide (i = i')) as [->|Hi].
    + rewrite list_lookup_insert_eq
        by (apply lookup_lt_Some in Hhead; exact Hhead).
      cbn [mbind option_bind find_chain]. rewrite lookup_insert_eq.
      cbn [mbind option_bind dcid next].
      rewrite (ngtcp2_cid_eq_copy _ _ _ Hinit), Hne.
      assert (head' = head) as -> by congruence.
      now apply find_chain_insert_fresh.
    + rewrite list_lookup_insert_ne by congruence. rewrite Hhead.
      cbn [mbind option_bind].
      apply find_chain_insert_fresh; [exact Hfresh|].
      now apply find_chain_more_fuel.
  - apply knot_quic_table_add_NULL in Hadd as [-> ->].
    revert Hfind. unfold knot_quic_table_find.
    destruct (knot_quic_conn_hash id); cbn [mbind option_bind];
      [|discriminate].
    destruct (bucket table _); cbn [mbind option_bind]; [|discriminate].
    destruct (conns table !! _) as [head|]; cbn [mbind option_bind];
      [|discriminate].
    apply find_chain_more_fuel.
Qed.

End QuicChainsProperties.

(** ** Parameters of the utilities *)

Section ParamsPrefix.

Import Params.
Implicit Types (pref str name : list Z) (tbl : list (list Z)).

Lemma char_at_lookup s i c : s !! i = Some c → char_at s i = Some c.
Proof. unfold char_at. now intros ->. Qed.

Lemma char_at_end s : char_at s (length s) = Some 0.
Proof.
  unfold char_at. rewrite lookup_ge_None_2 by lia. now rewrite Nat.eqb_refl.
Qed.

Lemma int_of_size_small (n : nat) :
  Z.of_nat n < INT_MAX → int_of_size n = Z.of_nat n.
Proof.
  unfold int_of_size, INT_MAX. intros Hn. cbv zeta.
  rewrite Z.mod_small by lia. destruct (_ <? _) eqn:Hlt; lia.
Qed.

Lemma count_rest_spec str i : ∀ fuel rest,
  Forall (λ c, c ≠ 0) str →
  (i + rest ≤ length str)%nat →
  (length str - (i + rest) ≤ fuel)%nat →
  count_rest fuel str i rest = Some (length str - i)%nat.
Proof.
  induction fuel as [|fuel IH]; intros rest Hstr Hle Hfuel;
    cbn [count_rest].
  - replace (i + rest)%nat with (length str) by lia.
    rewrite char_at_end. cbn. f_equal. lia.
  - destruct (str !! (i + rest)%nat) as [c|] eqn:Hc.
    + rewrite (char_at_lookup _ _ _ Hc). cbn [mbind option_bind].
      pose proof (Forall_lookup_1 _ _ _ _ Hstr Hc) as Hne.
      apply Z.eqb_neq in Hne. rewrite Hne. cbn [negb].
      apply lookup_lt_Some in Hc. apply IH; [done|lia|lia].
    + apply lookup_ge_None in Hc.
      replace (i + rest)%nat with (length str) by lia.
      rewrite char_at_end. cbn. f_equal. lia.
Qed.

(** The loop from offset [i], once the first [i] bytes have matched. *)
Lemma cmp_prefix_from_spec pref n str (k : nat) : ∀ i fuel,
  Forall (λ c, c ≠ 0) pref → Forall (λ c, c ≠ 0) str →
  (n ≤ length pref)%nat → (i < n)%nat → k = (n - i)%nat →
  (i ≤ length str)%nat → (length str - i ≤ fuel)%nat →
  cmp_prefix_from fuel pref n str i
  = Some (if bool_decide (drop i (take n pref) `prefix_of` drop i str)
          then int_of_size (length str - n) else -1).
Proof.
  induction k as [|k IH]; intros i fuel Hpref Hstr Hn Hi Hk His Hfuel; [lia|].
  destruct (lookup_lt_is_Some_2 pref i) as [p Hp]; [lia|].
  pose proof (Forall_lookup_1 _ _ _ _ Hpref Hp) as Hp0.
  assert (Hdp : drop i (take n pref) = p :: drop (S i) (take n pref))
    by (apply drop_S; now rewrite lookup_take_lt).
  rewrite Hdp.
  assert (Hbody : ∀ f, cmp_prefix_from f pref n str i
    = (s ← char_at str i;
       if negb (p =? s) then Some (-1)
       else if (S i =? n)%nat then
              rest ← count_rest (length str) str (S i) 0;
              Some (int_of_size rest)
            else s ← char_at str (S i);
                 if s =? 0 then Some (-1)
                 else match f with
                      | O => None
                      | S f => cmp_prefix_from f pref n str (S i)
                      end)).
  { intros f. destruct f; cbn [cmp_prefix_from];
      rewrite (char_at_lookup _ _ _ Hp); reflexivity. }
  rewrite Hbody. clear Hbody.
  destruct (str !! i) as [sc|] eqn:Hsc.
  - rewrite (char_at_lookup _ _ _ Hsc). cbn [mbind option_bind].
    pose proof (Forall_lookup_1 _ _ _ _ Hstr Hsc) as Hsc0.
    assert (Hds : drop i str = sc :: drop (S i) str) by now apply drop_S.
    rewrite Hds. apply lookup_lt_Some in Hsc.
    destruct (p =? sc) eqn:Heq; cbn [negb].
    + apply Z.eqb_eq in Heq. subst sc.
      destruct (S i =? n)%nat eqn:Hend.
      * apply Nat.eqb_eq in Hend. subst n.
        rewrite count_rest_spec by (done || lia). cbn [mbind option_bind].
        rewrite (drop_ge (take (S i) pref)) by (rewrite length_take; lia).
        rewrite bool_decide_true by (apply prefix_cons, prefix_nil).
        reflexivity.
      * apply Nat.eqb_neq in Hend.
        destruct (str !! S i) as [sc'|] eqn:Hsc'.
        -- rewrite (char_at_lookup _ _ _ Hsc'). cbn [mbind option_bind].
           pose proof (Forall_lookup_1 _ _ _ _ Hstr Hsc') as Hsc0'.
           apply Z.eqb_neq in Hsc0'. rewrite Hsc0'.
           apply lookup_lt_Some in Hsc'.
           destruct fuel as [|fuel]; [lia|].
           rewrite (IH (S i) fuel) by (done || lia).
           f_equal. rewrite (bool_decide_ext _
             (p :: drop (S i) (take n pref) `prefix_of` p :: drop (S i) str));
             [reflexivity|].
           split; [apply prefix_cons | apply prefix_cons_inv_2].
        -- apply lookup_ge_None in Hsc'.
           replace (S i) with (length str) at 1 by lia.
           rewrite char_at_end. cbn [mbind option_bind Z.eqb].
           rewrite (drop_ge str (S i)) by lia.
           rewrite bool_decide_false; [reflexivity|].
           intros Hpre. apply prefix_cons_inv_2, prefix_nil_inv in Hpre.
           apply (f_equal length) in Hpre.
           rewrite length_drop, length_take in Hpre. cbn in Hpre. lia.
    + apply Z.eqb_neq in Heq.
      rewrite bool_decide_false; [reflexivity|].
      intros Hpre. now apply prefix_cons_inv_1 in Hpre.
  - apply lookup_ge_None in Hsc.
    assert (i = length str) as Hil by lia.
    rewrite Hil at 1. rewrite char_at_end. cbn [mbind option_bind].
    apply Z.eqb_neq in Hp0. rewrite Hp0. cbn [negb].
    rewrite (drop_ge str i) by lia.
    rewrite bool_decide_false; [reflexivity|]. apply prefix_nil_not.
Qed.

(** [cmp_prefix] as a function of its strings. *)
Lemma cmp_prefix_result pref (pref_len : nat) str :
  Forall (λ c, c ≠ 0) pref → Forall (λ c, c ≠ 0) str →
  (0 < pref_len ≤ length pref)%nat →
  Z.of_nat (length str) < INT_MAX →
  cmp_prefix pref pref_len str
  = Some (if bool_decide (take pref_len pref `prefix_of` str)
          then Z.of_nat (length str - pref_len) else -1).
Proof.
  intros Hpref Hstr Hlen Hmax. unfold cmp_prefix.
  rewrite (cmp_prefix_from_spec pref pref_len str pref_len 0 (length str))
    by (done || lia).
  rewrite !drop_0. rewrite int_of_size_small by lia. reflexivity.
Qed.

(** X7.  [cmp_prefix] comes back without a read beyond a terminator; it
    returns -1 exactly when the first [pref_len] bytes of [pref] do not
    begin [str], and otherwise the number of bytes of [str] that follow
    them. *)
Theorem cmp_prefix_spec pref (pref_len : nat) str :
  Forall (λ c, c ≠ 0) pref → Forall (λ c, c ≠ 0) str →
  (0 < pref_len ≤ length pref)%nat →
  Z.of_nat (length str) < INT_MAX →
  ∃ ret,
    cmp_prefix pref pref_len str = Some ret
    ∧ (ret = -1 ↔ ¬ take pref_len pref `prefix_of` str)
    ∧ (take pref_len pref `prefix_of` str →
       str = take pref_len pref ++ drop pref_len str
       ∧ ret = Z.of_nat (length (drop pref_len str))).
Proof.
  intros Hpref Hstr Hlen Hmax.
  rewrite (cmp_prefix_result pref pref_len str Hpref Hstr Hlen Hmax).
  eexists. split; [reflexivity|].
  case_bool_decide as Hp.
  - split; [split; [lia|done]|]. intros _.
    rewrite length_drop. split; [|reflexivity].
    destruct Hp as [k Hk]. rewrite Hk at 1.
    rewrite Hk, drop_app_length'; [reflexivity|].
    rewrite length_take. lia.
  - split; [done|]. intros Hp'. contradiction.
Qed.

End ParamsPrefix.

Section ParamsBest.

Import Params.
Implicit Types (str name : list Z) (tbl seen : list (list Z)) (b : best).

(** One entry of the table, for an entry that does not begin with the
    string, that is the string, that goes on after it. *)
Lemma best_param_loop_cons str n name tbl i b r :
  cmp_prefix str n name = Some r →
  best_param_loop str n (name :: tbl) i b
  = best_param_loop str n tbl (i + 1)
      (if r =? -1 then b
       else if r =? 0
            then {| best_pos := i; best_match := 0; matches := 1 |}
            else {| best_pos := if r <? best_match b then i else best_pos b;
                    best_match := if r <? best_match b then r
                                  else best_match b;
                    matches := S (matches b) |}).
Proof. intros Hr. cbn [best_param_loop]. now rewrite Hr. Qed.

(** What the loop keeps, over the entries [seen] so far: no match has been
    counted exactly when no entry begins with the string, and then the
    best remainder is still [INT_MAX]; otherwise the best position is that
    of an entry beginning with the string, as short as any such entry;
    and if only one position can match, at most one match is counted. *)
Lemma best_param_loop_inv str n : ∀ tbl seen b,
  Forall (λ c, c ≠ 0) str → (0 < n ≤ length str)%nat →
  Forall (λ name, Forall (λ c, c ≠ 0) name
                  ∧ Z.of_nat (length name) < INT_MAX) tbl →
  ((matches b = 0)%nat ↔ Forall (λ name, ¬ take n str `prefix_of` name) seen) →
  ((matches b = 0)%nat → best_match b = INT_MAX ∧ best_pos b = -1) →
  ((0 < matches b)%nat →
   ∃ name, 0 ≤ best_pos b
           ∧ seen !! Z.to_nat (best_pos b) = Some name
           ∧ take n str `prefix_of` name
           ∧ best_match b = Z.of_nat (length name - n)
           ∧ ∀ name', name' ∈ seen → take n str `prefix_of` name' →
                      (length name ≤ length name')%nat) →
  (∀ j, (∀ j' name', seen !! j' = Some name' →
                     take n str `prefix_of` name' → j' = j) →
        (matches b ≤ 1)%nat) →
  ∃ b', best_param_loop str n tbl (Z.of_nat (length seen)) b = Some b'
        ∧ ((matches b' = 0)%nat
           ↔ Forall (λ name, ¬ take n str `prefix_of` name) (seen ++ tbl))
        ∧ ((matches b' = 0)%nat → best_pos b' = -1)
        ∧ ((0 < matches b')%nat →
           ∃ name, 0 ≤ best_pos b'
                   ∧ (seen ++ tbl) !! Z.to_nat (best_pos b') = Some name
                   ∧ take n str `prefix_of` name
                   ∧ ∀ name', name' ∈ seen ++ tbl →
                              take n str `prefix_of` name' →
                              (length name ≤ length name')%nat)
        ∧ (∀ j, (∀ j' name', (seen ++ tbl) !! j' = Some name' →
                             take n str `prefix_of` name' → j' = j) →
                (matches b' ≤ 1)%nat).
Proof.
  induction tbl as [|name tbl IH];
    intros seen b Hstr Hn Htbl H0 Hmax Hbest Huniq.
  - exists b. rewrite app_nil_r. cbn [best_param_loop].
    split; [reflexivity|]. split; [exact H0|].
    split; [intros Hm; now apply Hmax|].
    split; [|exact Huniq].
    intros Hm. destruct (Hbest Hm) as (nm & ? & ? & ? & _ & ?). eauto 10.
  - apply Forall_cons in Htbl as [[Hname Hlen] Htbl].
    assert (Hkey : length (take n str) = n) by (rewrite length_take; lia).
    rewrite (best_param_loop_cons str n name tbl _ b _
               (cmp_prefix_result str n name Hstr Hname Hn Hlen)).
    replace (Z.of_nat (length seen) + 1)
      with (Z.of_nat (length (seen ++ [name])))
      by (rewrite length_app; cbn; lia).
    replace (seen ++ name :: tbl) with ((seen ++ [name]) ++ tbl)
      by now rewrite <- app_assoc.
    case_bool_decide as Hm.
    + (* the entry begins with the string *)
      pose proof (prefix_length _ _ Hm) as Hge. rewrite Hkey in Hge.
      assert (Hr1 : (Z.of_nat (length name - n) =? -1) = false)
        by (apply Z.eqb_neq; lia).
      rewrite Hr1.
      destruct (Z.of_nat (length name - n) =? 0) eqn:Hr0.
      * (* and is the string *)
        apply Z.eqb_eq in Hr0. apply IH; [exact Hstr|exact Hn|exact Htbl|..];
          cbn [matches best_pos best_match].
        -- split; [lia|]. intros Hall.
           apply Forall_app in Hall as [_ Hall].
           apply Forall_inv in Hall. destruct (Hall Hm).
        -- lia.
        -- intros _. exists name. split; [lia|].
           rewrite Nat2Z.id. split; [apply list_lookup_middle; lia|].
           split; [exact Hm|]. split; [lia|].
           intros name' _ Hm'. apply prefix_length in Hm'.
           rewrite Hkey in Hm'. lia.
        -- intros j _. lia.
      * (* and goes on after it *)
        apply Z.eqb_neq in Hr0. apply IH; [exact Hstr|exact Hn|exact Htbl|..];
          cbn [matches best_pos best_match].
        -- split; [lia|]. intros Hall.
           apply Forall_app in Hall as [_ Hall].
           apply Forall_inv in Hall. destruct (Hall Hm).
        -- lia.
        -- intros _.
           destruct (Z.of_nat (length name - n) <? best_match b) eqn:Hlt.
           ++ apply Z.ltb_lt in Hlt. exists name. split; [lia|].
              rewrite Nat2Z.id. split; [apply list_lookup_middle; lia|].
              split; [exact Hm|]. split; [reflexivity|].
              intros name' Hin Hm'.
              apply elem_of_app in Hin as [Hin|Hin].
              ** destruct (decide (matches b = 0)%nat) as [Hz|Hz].
                 { apply H0 in Hz. rewrite Forall_forall in Hz.
                   now destruct (Hz name' Hin). }
                 destruct (Hbest ltac:(lia))
                   as (nm & _ & _ & Hnm & Hbm & Hmin).
                 specialize (Hmin name' Hin Hm').
                 apply prefix_length in Hnm. rewrite Hkey in Hnm. lia.
              ** apply list_elem_of_singleton in Hin. now subst.
           ++ apply Z.ltb_ge in Hlt.
              destruct (decide (matches b = 0)%nat) as [Hz|Hz].
              { destruct (Hmax Hz) as [Hbm _]. unfold INT_MAX in *. lia. }
              destruct (Hbest ltac:(lia))
                as (nm & Hpos & Hlook & Hnm & Hbm & Hmin).
              exists nm. split; [exact Hpos|].
              split; [now apply lookup_app_l_Some|].
              split; [exact Hnm|]. split; [exact Hbm|].
              intros name' Hin Hm'.
              apply elem_of_app in Hin as [Hin|Hin]; [now apply Hmin|].
              apply list_elem_of_singleton in Hin. subst name'.
              apply prefix_length in Hnm. rewrite Hkey in Hnm. lia.
        -- intros j Hj.
           assert (Hnone : Forall (λ nm, ¬ take n str `prefix_of` nm) seen).
           { apply Forall_forall. intros nm Hin Hnm.
             apply list_elem_of_lookup in Hin as [j' Hj'].
             pose proof (Hj j' nm (lookup_app_l_Some _ _ _ _ Hj') Hnm).
             pose proof (Hj (length seen) name
                           (list_lookup_middle _ _ _ _ eq_refl) Hm).
             apply lookup_lt_Some in Hj'. lia. }
           apply H0 in Hnone. lia.
    + (* the entry does not begin with the string *)
      change (-1 =? -1) with true. cbn iota.
      apply IH; [exact Hstr|exact Hn|exact Htbl|..].
      * rewrite H0. split.
        -- intros Hall. apply Forall_app. split; [exact Hall|].
           now apply Forall_singleton.
        -- intros Hall. now apply Forall_app in Hall as [Hall _].
      * exact Hmax.
      * intros Hpos. destruct (Hbest Hpos)
          as (nm & Hp & Hlook & Hnm & Hbm & Hmin).
        exists nm. split; [exact Hp|].
        split; [now apply lookup_app_l_Some|].
        split; [exact Hnm|]. split; [exact Hbm|].
        intros name' Hin Hm'.
        apply elem_of_app in Hin as [Hin|Hin]; [now apply Hmin|].
        apply list_elem_of_singleton in Hin. now subst.
      * intros j Hj. apply (Huniq j). intros j' name' Hj' Hm'.
        apply (Hj j' name'); [now apply lookup_app_l_Some|exact Hm'].
Qed.

(** X8.  [best_param] on a table of names: [KNOT_ENOTSUP], with [*unique]
    left alone, exactly when no name begins with the string; otherwise the
    position of a name that begins with it and is as short as any that
    does, with [*unique] written; and when one name only begins with the
    string, its position with [*unique] true. *)
Theorem best_param_spec str (str_len : nat) tbl :
  Forall (λ c, c ≠ 0) str → (0 < str_len ≤ length str)%nat →
  Forall (λ name, Forall (λ c, c ≠ 0) name
                  ∧ Z.of_nat (length name) < INT_MAX) tbl →
  ∃ ret u,
    best_param (Some str) str_len (Some tbl) = Some (ret, u)
    ∧ (Forall (λ name, ¬ take str_len str `prefix_of` name) tbl →
       ret = KNOT_ENOTSUP ∧ u = None)
    ∧ (Exists (λ name, take str_len str `prefix_of` name) tbl →
       ∃ name, 0 ≤ ret
               ∧ tbl !! Z.to_nat ret = Some name
               ∧ take str_len str `prefix_of` name
               ∧ (∀ name', name' ∈ tbl →
                           take str_len str `prefix_of` name' →
                           (length name ≤ length name')%nat)
               ∧ is_Some u)
    ∧ (∀ j name, tbl !! j = Some name →
         take str_len str `prefix_of` name →
         (∀ j' name', tbl !! j' = Some name' →
                      take str_len str `prefix_of` name' → j' = j) →
         ret = Z.of_nat j ∧ u = Some true).
Proof.
  intros Hstr Hn Htbl. unfold best_param.
  assert ((str_len =? 0)%nat = false) as -> by (apply Nat.eqb_neq; lia).
  assert (Hinv : ∃ b,
    best_param_loop str str_len tbl (Z.of_nat (length (@nil (list Z))))
      {| best_pos := -1; best_match := INT_MAX; matches := 0 |} = Some b
    ∧ ((matches b = 0)%nat
       ↔ Forall (λ name, ¬ take str_len str `prefix_of` name) ([] ++ tbl))
    ∧ ((matches b = 0)%nat → best_pos b = -1)
    ∧ ((0 < matches b)%nat →
       ∃ name, 0 ≤ best_pos b
               ∧ ([] ++ tbl) !! Z.to_nat (best_pos b) = Some name
               ∧ take str_len str `prefix_of` name
               ∧ ∀ name', name' ∈ [] ++ tbl →
                          take str_len str `prefix_of` name' →
                          (length name ≤ length name')%nat)
    ∧ (∀ j, (∀ j' name', ([] ++ tbl) !! j' = Some name' →
                         take str_len str `prefix_of` name' → j' = j) →
            (matches b ≤ 1)%nat)).
  { apply best_param_loop_inv; [exact Hstr|exact Hn|exact Htbl|..];
      cbn [matches best_match best_pos].
    - split; [intros _; constructor|reflexivity].
    - intros _. split; reflexivity.
    - intros Hpos. lia.
    - intros j _. lia. }
  destruct Hinv as (b & Hrun & H0 & Hnone & Hbest & Huniq).
  cbn [length app] in *. change (Z.of_nat 0) with 0 in Hrun.
  rewrite Hrun. cbn [mbind option_bind].
  eexists (fst _), (snd _).
  split; [f_equal; apply surjective_pairing|].
  split; [|split].
  - intros Hall. apply H0 in Hall. now rewrite Hall.
  - intros Hex.
    assert (Hpos : (0 < matches b)%nat).
    { destruct (decide (matches b = 0)%nat) as [Hz|Hz]; [|lia].
      apply H0 in Hz. apply Exists_exists in Hex as (nm & Hin & Hnm).
      rewrite Forall_forall in Hz. now destruct (Hz nm Hin). }
    destruct (Hbest Hpos) as (name & Hp & Hlook & Hnm & Hmin).
    exists name. destruct (matches b) as [|[|m]]; [lia| |];
      cbn [fst snd]; eauto 10.
  - intros j name Hj Hm Hone.
    assert (Hpos : (0 < matches b)%nat).
    { destruct (decide (matches b = 0)%nat) as [Hz|Hz]; [|lia].
      apply H0 in Hz. rewrite Forall_forall in Hz.
      destruct (Hz name); [|exact Hm]. apply list_elem_of_lookup. eauto. }
    pose proof (Huniq j Hone) as Hle.
    destruct (Hbest Hpos) as (nm & Hp & Hlook & Hnm & _).
    pose proof (Hone _ _ Hlook Hnm) as Hj'.
    destruct (matches b) as [|[|m]]; [lia| |lia]. cbn [fst snd].
    split; [lia|reflexivity].
Qed.

End ParamsBest.

Section ParamsParsers.

Import Params.
Context {library : Library}.

(** X9.  [get_fqd_name] of a name that is not empty, when memory is there:
    the name itself or the name and a dot, ending with a dot either way,
    and a name that [get_fqd_name] gives back as it is. *)
Theorem get_fqd_name_fqdn (name : list Z) :
  name ≠ [] →
  ∃ fqd_name,
    get_fqd_name true (Some name) = Some (Some fqd_name)
    ∧ (fqd_name = name ∨ fqd_name = name ++ [46])
    ∧ last fqd_name = Some 46
    ∧ get_fqd_name true (Some fqd_name) = Some (Some fqd_name).
Proof.
  intros Hne. unfold get_fqd_name.
  destruct (length name =? 0)%nat eqn:Hlen.
  { apply Nat.eqb_eq in Hlen. now destruct name. }
  apply Nat.eqb_neq in Hlen. cbn [mbind option_bind].
  assert (Hlast : char_at name (length name - 1) = last name).
  { unfold char_at. rewrite last_lookup.
    replace (Nat.pred (length name)) with (length name - 1)%nat by lia.
    destruct (name !! (length name - 1)%nat) eqn:Hl; [reflexivity|].
    apply lookup_ge_None in Hl. lia. }
  rewrite Hlast.
  destruct (last name) as [c|] eqn:Hc.
  2:{ apply last_None in Hc. contradiction. }
  cbn [mbind option_bind]. destruct (c =? 46) eqn:Hdot.
  - apply Z.eqb_eq in Hdot. subst c. exists name.
    split; [reflexivity|]. split; [now left|]. split; [exact Hc|].
    rewrite Hlast.
    assert ((length name =? 0)%nat = false) as -> by now apply Nat.eqb_neq.
    reflexivity.
  - exists (name ++ [46]).
    split; [reflexivity|]. split; [now right|].
    split; [apply last_snoc|].
    rewrite length_app. cbn [length].
    assert ((length name + 1 =? 0)%nat = false) as ->
      by (apply Nat.eqb_neq; lia).
    replace (length name + 1 - 1)%nat with (length name) by lia.
    unfold char_at. rewrite list_lookup_middle by reflexivity.
    reflexivity.
Qed.

(** X10.  [params_parse_wait] either fails with [KNOT_EINVAL] and leaves
    [*dst] alone, or succeeds and leaves in [*dst] a time from 1 to
    [INT32_MAX]: the number of the string when that is such a time. *)
Theorem params_parse_wait_range (value : option (list Z)) (dst : option Z) :
  let r := params_parse_wait value dst in
  (fst r = KNOT_EINVAL ∧ snd r = dst)
  ∨ (fst r = KNOT_EOK
     ∧ ∃ v num, snd r = Some v ∧ 1 ≤ v ≤ INT32_MAX
         ∧ option_map (λ s, fst (strtoll s)) value = Some num
         ∧ (1 ≤ num ≤ INT32_MAX → v = num)).
Proof.
  destruct value as [value|], dst as [d|]; cbn [fst snd];
    try (left; split; reflexivity).
  unfold params_parse_wait. destruct (strtoll value) as [num end_] eqn:Hnum.
  cbn [option_map fst]. rewrite Hnum. cbn [fst].
  destruct (_ || _); [left; split; reflexivity|].
  right. split; [reflexivity|].
  unfold to_int32, INT32_MAX. cbn [snd].
  destruct (num <? 1) eqn:H1; [|destruct (2147483647 <? num) eqn:H2].
  - apply Z.ltb_lt in H1. exists 1, num. repeat split; lia.
  - apply Z.ltb_lt in H2. exists 2147483, num. repeat split; lia.
  - apply Z.ltb_ge in H1, H2. exists num, num.
    rewrite Z.mod_small by lia.
    assert ((num <? 2 ^ 31) = true) as -> by (apply Z.ltb_lt; lia).
    repeat split; lia.
Qed.

(** X11.  [params_parse_num] either fails with [KNOT_EINVAL] and leaves [*dst]
    alone, or succeeds and leaves in [*dst] a number from 0 to
    [UINT32_MAX]: the number of the string when that is one, the nearer
    bound when it is not. *)
Theorem params_parse_num_range (value : option (list Z)) (dst : option Z) :
  let r := params_parse_num value dst in
  (fst r = KNOT_EINVAL ∧ snd r = dst)
  ∨ (fst r = KNOT_EOK
     ∧ ∃ num, option_map (λ s, fst (strtoll s)) value = Some num
         ∧ snd r = Some (0 `max` (num `min` UINT32_MAX))).
Proof.
  destruct value as [value|], dst as [d|]; cbn [fst snd];
    try (left; split; reflexivity).
  unfold params_parse_num. destruct (strtoll value) as [num end_] eqn:Hnum.
  cbn [option_map fst]. rewrite Hnum. cbn [fst].
  destruct (_ || _); [left; split; reflexivity|].
  right. split; [reflexivity|]. exists num. split; [reflexivity|].
  cbn [snd]. f_equal. unfold to_uint32, UINT32_MAX.
  destruct (4294967295 <? num) eqn:H1; [|destruct (num <? 0) eqn:H2].
  - apply Z.ltb_lt in H1. rewrite Z.mod_small by lia. lia.
  - apply Z.ltb_lt in H2. rewrite Z.mod_small by lia. lia.
  - apply Z.ltb_ge in H1, H2. rewrite Z.mod_small by lia. lia.
Qed.

Lemma strcspn_eq_length (value : list Z) :
  strcspn_eq value = length value ↔ 61 ∉ value.
Proof.
  induction value as [|c value IH]; cbn [strcspn_eq length].
  - split; [intros _; apply not_elem_of_nil|reflexivity].
  - rewrite not_elem_of_cons. destruct (c =? 61) eqn:Hc.
    + apply Z.eqb_eq in Hc. split; [discriminate|]. intros [? _]. congruence.
    + apply Z.eqb_neq in Hc. rewrite <- IH. split.
      * intros [= ->]. split; [congruence|reflexivity].
      * intros [_ ->]. reflexivity.
Qed.

Lemma strcspn_eq_le (value : list Z) : (strcspn_eq value ≤ length value)%nat.
Proof.
  induction value as [|c value IH]; cbn [strcspn_eq length]; [lia|].
  destruct (c =? 61); lia.
Qed.

(** X12.  [params_parse_type] returns [KNOT_EOK] or [KNOT_EINVAL].  When it
    fails [*xfr_serial] is as before.  When it succeeds [*rtype] is the
    type of the mnemonic in front of the first '=', or of the whole string
    when there is none; that type is IXFR exactly when there is a '=', and
    then [*xfr_serial] is the serial read behind it, at most
    [UINT32_MAX]; for another type [*xfr_serial] is as before. *)
Theorem params_parse_type_spec (value : list Z) (rtype xfr_serial : Z) :
  let r := params_parse_type (Some value) (Some rtype) (Some xfr_serial) in
  (fst (fst r) = KNOT_EINVAL ∧ snd r = Some xfr_serial)
  ∨ (fst (fst r) = KNOT_EOK
     ∧ ∃ t, snd (fst r) = Some t
         ∧ knot_rrtype_from_string (take (strcspn_eq value) value) = Some t
         ∧ (t = KNOT_RRTYPE_IXFR ↔ 61 ∈ value)
         ∧ (t ≠ KNOT_RRTYPE_IXFR → snd r = Some xfr_serial)
         ∧ (t = KNOT_RRTYPE_IXFR →
            ∃ serial, snd r = Some serial ∧ 0 ≤ serial ≤ UINT32_MAX
              ∧ serial
                = fst (strtoull (drop (1 + strcspn_eq value) value)))).
Proof.
  cbn zeta. unfold params_parse_type.
  pose proof (strcspn_eq_length value) as Hlen.
  pose proof (strcspn_eq_le value) as Hle.
  destruct (strcspn_eq value =? length value)%nat eqn:Hpos.
  - apply Nat.eqb_eq in Hpos.
    destruct (knot_rrtype_from_string value) as [t|] eqn:Ht;
      [|left; split; reflexivity].
    destruct (t =? KNOT_RRTYPE_IXFR) eqn:Hx; [left; split; reflexivity|].
    apply Z.eqb_neq in Hx. right. split; [reflexivity|].
    exists t. cbn [fst snd]. split; [reflexivity|].
    split; [now rewrite Hpos, firstn_all|].
    split; [|split]; [|reflexivity|contradiction].
    split; [contradiction|]. intros Hin. now apply Hlen in Hin.
  - apply Nat.eqb_neq in Hpos.
    destruct (knot_rrtype_from_string (take (strcspn_eq value) value))
      as [t|] eqn:Ht; [|left; split; reflexivity].
    destruct (t =? KNOT_RRTYPE_IXFR) eqn:Hx; [|left; split; reflexivity].
    apply Z.eqb_eq in Hx.
    destruct (strtoull (drop (1 + strcspn_eq value) value))
      as [serial end_] eqn:Hs.
    destruct (_ || _ || (UINT32_MAX <? serial)) eqn:Hbad;
      [left; split; reflexivity|].
    apply orb_false_iff in Hbad as [_ Hmax]. apply Z.ltb_ge in Hmax.
    right. split; [reflexivity|].
    exists t. cbn [fst snd]. split; [reflexivity|].
    split; [reflexivity|].
    split; [|split]; [|contradiction|].
    + split; [|intros _; exact Hx]. intros _.
      destruct (decide (61 ∈ value)) as [Hin|Hin]; [exact Hin|].
      now apply Hlen in Hin.
    + intros _. exists (to_uint32 serial). split; [reflexivity|].
      unfold to_uint32, UINT32_MAX in *.
      pose proof (Z.mod_pos_bound serial (2 ^ 32) ltac:(lia)).
      pose proof (strtoull_range (drop (1 + strcspn_eq value) value)) as Hu.
      rewrite Hs in *. cbn [fst] in *.
      rewrite Z.mod_small by lia. split; [lia|reflexivity].
Qed.

End ParamsParsers.

(** ** The NOTIFY event *)

Section NotifyEventProperties.

Import Libknot Notify NotifyEvent.
Context {E : Environment}.

(** [send_notify] keeps the name of the zone, and its status does not
    depend on the serial the zone has recorded. *)
Lemma send_notify_name zone soa slave timeout :
  name (snd (fst (send_notify zone soa slave timeout))) = name zone.
Proof.
  unfold send_notify. destruct (pkt_alloc _); [|reflexivity].
  destruct (knot_request_make _ _ _); [|reflexivity].
  destruct (knot_requestor_exec _ _ _) as [ret resp].
  destruct (_ && _); [reflexivity|]. destruct (_ =? 0); reflexivity.
Qed.

Lemma send_notify_status zone zone' soa slave timeout :
  name zone = name zone' →
  fst (fst (send_notify zone soa slave timeout))
  = fst (fst (send_notify zone' soa slave timeout)).
Proof.
  intros Hn. unfold send_notify. rewrite Hn.
  destruct (pkt_alloc _); [|reflexivity].
  destruct (knot_request_make _ _ _); [|reflexivity].
  destruct (knot_requestor_exec _ _ _) as [ret resp].
  destruct (_ && _); [reflexivity|]. destruct (_ =? 0); reflexivity.
Qed.

(** The serial [send_notify] leaves is the one there was, with nothing
    logged about a serial, or the serial of the SOA marked valid. *)
Lemma send_notify_serial zone soa slave timeout :
  let r := send_notify zone soa slave timeout in
  (snd (fst r) = zone ∧ ∀ s, LogInfoSerial s ∉ snd r)
  ∨ (snd (fst r)
     = {| name := name zone;
          last_notified_serial :=
            Z.lor (knot_soa_serial (rdata soa)) LAST_NOTIFIED_SERIAL_VALID |}
     ∧ snd r = [LogInfoSerial (knot_soa_serial (rdata soa))]).
Proof.
  cbn zeta. unfold send_notify.
  destruct (pkt_alloc _); [|left; split; [done|intros s; apply not_elem_of_nil]].
  destruct (knot_request_make _ _ _);
    [|left; split; [done|intros s; apply not_elem_of_nil]].
  destruct (knot_requestor_exec _ _ _) as [ret resp].
  destruct (_ && _); [right; done|].
  destruct (_ =? 0); left; (split; [done|]); intros s Hin;
    apply list_elem_of_singleton in Hin; discriminate.
Qed.

Lemma notify_addrs_name zone soa addrs timeout ret :
  name (snd (fst (notify_addrs zone soa addrs timeout ret))) = name zone.
Proof.
  revert zone ret. induction addrs as [|slave addrs IH]; intros zone ret;
    cbn [notify_addrs]; [reflexivity|].
  pose proof (send_notify_name zone soa slave timeout) as Hn.
  destruct (send_notify zone soa slave timeout) as [[ret' zone'] log].
  cbn [fst snd] in Hn. destruct (ret' =? KNOT_EOK); [exact Hn|].
  specialize (IH zone' ret').
  destruct (notify_addrs zone' soa addrs timeout ret') as [[r z] l].
  cbn [fst snd] in *. congruence.
Qed.

(** The inner loop ends with a status other than [KNOT_EOK] exactly when
    no address gave [KNOT_EOK] and the status it began with, or there is
    an address, is none either. *)
Lemma notify_addrs_failed zone0 zone soa addrs timeout ret :
  name zone = name zone0 →
  fst (fst (notify_addrs zone soa addrs timeout ret)) ≠ KNOT_EOK
  ↔ (addrs ≠ [] ∨ ret ≠ KNOT_EOK)
    ∧ Forall (λ slave,
        fst (fst (send_notify zone0 soa slave timeout)) ≠ KNOT_EOK) addrs.
Proof.
  revert zone ret. induction addrs as [|slave addrs IH]; intros zone ret Hn;
    cbn [notify_addrs].
  - cbn [fst]. split.
    + intros Hr. split; [now right|constructor].
    + intros [[?|?] _]; done.
  - rewrite Forall_cons.
    rewrite <- (send_notify_status zone zone0 soa slave timeout Hn).
    pose proof (send_notify_name zone soa slave timeout) as Hn'.
    destruct (send_notify zone soa slave timeout) as [[ret' zone'] log].
    cbn [fst snd] in *. destruct (ret' =? KNOT_EOK) eqn:Hr.
    + apply Z.eqb_eq in Hr. cbn [fst]. split; [done|]. intros (_ & ? & _).
      done.
    + apply Z.eqb_neq in Hr.
      specialize (IH zone' ret' ltac:(congruence)).
      destruct (notify_addrs zone' soa addrs timeout ret') as [[r z] l].
      cbn [fst snd] in *. rewrite IH. split.
      * intros [_ Hall]. split; [now left|]. split; done.
      * intros (_ & _ & Hall). split; [now right|done].
Qed.

Lemma notify_remotes_name zone soa remotes timeout failed :
  name (snd (fst (notify_remotes zone soa remotes timeout failed)))
  = name zone.
Proof.
  revert zone failed.
  induction remotes as [|addrs remotes IH]; intros zone failed;
    cbn [notify_remotes]; [reflexivity|].
  pose proof (notify_addrs_name zone soa addrs timeout KNOT_EOK) as Hn.
  destruct (notify_addrs zone soa addrs timeout KNOT_EOK) as [[ret zone'] log].
  specialize (IH zone' (if negb (ret =? KNOT_EOK) then true else failed)).
  destruct (notify_remotes zone' soa remotes timeout _) as [[f z] l].
  cbn [fst snd] in *. congruence.
Qed.

Lemma notify_remotes_failed zone0 zone soa remotes timeout failed :
  name zone = name zone0 →
  fst (fst (notify_remotes zone soa remotes timeout failed)) = true
  ↔ failed = true
    ∨ Exists (λ addrs, addrs ≠ []
        ∧ Forall (λ slave,
            fst (fst (send_notify zone0 soa slave timeout)) ≠ KNOT_EOK)
            addrs) remotes.
Proof.
  revert zone failed.
  induction remotes as [|addrs remotes IH]; intros zone failed Hn;
    cbn [notify_remotes].
  - cbn [fst]. rewrite Exists_nil. tauto.
  - rewrite Exists_cons.
    pose proof (notify_addrs_name zone soa addrs timeout KNOT_EOK) as Hn'.
    pose proof (notify_addrs_failed zone0 zone soa addrs timeout KNOT_EOK Hn)
      as Hf.
    destruct (notify_addrs zone soa addrs timeout KNOT_EOK)
      as [[ret zone'] log].
    cbn [fst snd] in *.
    specialize (IH zone' (if negb (ret =? KNOT_EOK) then true else failed)
                  ltac:(congruence)).
    destruct (notify_remotes zone' soa remotes timeout _) as [[f z] l].
    cbn [fst snd] in *. rewrite IH.
    destruct (ret =? KNOT_EOK) eqn:Hr; cbn [negb].
    + apply Z.eqb_eq in Hr. split; [tauto|].
      intros [?|[[Hne Hall]|?]]; [tauto| |tauto].
      destruct Hf as [_ Hf]. destruct Hf; [|done].
      split; [now left|exact Hall].
    + apply Z.eqb_neq in Hr. split; [|tauto]. intros _.
      right. left. apply Hf in Hr as [[?|?] ?]; done.
Qed.

(** X13.  [event_notify] returns [KNOT_EOK] or [KNOT_ERROR], and [KNOT_ERROR]
    exactly when the zone has contents and some remote has addresses none
    of which gave [KNOT_EOK] to [send_notify]; a remote without an address
    is no failure. *)
Theorem event_notify_status (conf : conf_t) (zone : zone_t)
    (contents : option zone_contents_t) :
  let ret := fst (fst (event_notify conf zone contents)) in
  (ret = KNOT_EOK ∨ ret = KNOT_ERROR)
  ∧ (ret = KNOT_ERROR ↔
     ∃ c, contents = Some c ∧ is_empty c = false
       ∧ Exists (λ addrs, addrs ≠ []
           ∧ Forall (λ slave,
               fst (fst (send_notify zone (apex_soa c) slave
                           (srv_tcp_remote_io_timeout conf))) ≠ KNOT_EOK)
               addrs) (notify conf)).
Proof.
  cbn zeta. unfold event_notify.
  destruct contents as [c|]; cbn [zone_contents_is_empty].
  2:{ cbn [fst]. split; [now left|]. split; [done|]. intros (c & ? & _).
      done. }
  destruct (is_empty c) eqn:Hc.
  { cbn [fst]. split; [now left|]. split; [done|].
    intros (c' & [= <-] & ? & _). congruence. }
  pose proof (notify_remotes_failed zone zone (apex_soa c) (notify conf)
                (srv_tcp_remote_io_timeout conf) false eq_refl) as Hf.
  destruct (notify_remotes zone (apex_soa c) (notify conf) _ false)
    as [[failed z] l].
  cbn [fst snd] in *. destruct failed.
  - split; [now right|]. split; [|done]. intros _. exists c.
    split; [reflexivity|]. split; [exact Hc|].
    destruct Hf as [Hf _]. destruct (Hf eq_refl); done.
  - split; [now left|]. split; [done|].
    intros (c' & [= <-] & _ & Hex).
    destruct Hf as [_ Hf]. specialize (Hf (or_intror Hex)). done.
Qed.

Lemma notify_addrs_serial zone soa addrs timeout ret :
  let r := notify_addrs zone soa addrs timeout ret in
  (snd (fst r) = zone ∧ ∀ s, LogInfoSerial s ∉ snd r)
  ∨ (snd (fst r)
     = {| name := name zone;
          last_notified_serial :=
            Z.lor (knot_soa_serial (rdata soa)) LAST_NOTIFIED_SERIAL_VALID |}
     ∧ LogInfoSerial (knot_soa_serial (rdata soa)) ∈ snd r).
Proof.
  cbn zeta. revert zone ret.
  induction addrs as [|slave addrs IH]; intros zone ret; cbn [notify_addrs].
  - left. split; [done|]. intros s. apply not_elem_of_nil.
  - pose proof (send_notify_serial zone soa slave timeout) as Hs.
    cbn zeta in Hs.
    destruct (send_notify zone soa slave timeout) as [[ret' zone'] log].
    cbn [fst snd] in Hs. destruct (ret' =? KNOT_EOK).
    + cbn [fst snd]. destruct Hs as [Hs|[-> ->]]; [now left|].
      right. split; [done|]. apply list_elem_of_singleton. reflexivity.
    + specialize (IH zone' ret').
      destruct (notify_addrs zone' soa addrs timeout ret') as [[r z] l].
      cbn [fst snd] in *.
      destruct IH as [[-> Hl]|[-> Hl]], Hs as [[-> Hlog]|[-> ->]].
      * left. split; [done|]. intros s Hin.
        apply elem_of_app in Hin as [Hin|Hin]; [now apply (Hlog s)|].
        now apply (Hl s).
      * right. split; [done|]. apply elem_of_app. left.
        apply list_elem_of_singleton. reflexivity.
      * right. split; [done|]. apply elem_of_app. now right.
      * right. split; [done|]. apply elem_of_app. now right.
Qed.

Lemma notify_remotes_serial zone soa remotes timeout failed :
  let r := notify_remotes zone soa remotes timeout failed in
  (snd (fst r) = zone ∧ ∀ s, LogInfoSerial s ∉ snd r)
  ∨ (snd (fst r)
     = {| name := name zone;
          last_notified_serial :=
            Z.lor (knot_soa_serial (rdata soa)) LAST_NOTIFIED_SERIAL_VALID |}
     ∧ LogInfoSerial (knot_soa_serial (rdata soa)) ∈ snd r).
Proof.
  cbn zeta. revert zone failed.
  induction remotes as [|addrs remotes IH]; intros zone failed;
    cbn [notify_remotes].
  - left. split; [done|]. intros s. apply not_elem_of_nil.
  - pose proof (notify_addrs_serial zone soa addrs timeout KNOT_EOK) as Hs.
    cbn zeta in Hs.
    destruct (notify_addrs zone soa addrs timeout KNOT_EOK)
      as [[ret zone'] log].
    specialize (IH zone' (if negb (ret =? KNOT_EOK) then true else failed)).
    destruct (notify_remotes zone' soa remotes timeout _) as [[f z] l].
    cbn [fst snd] in *.
    destruct IH as [[-> Hl]|[-> Hl]], Hs as [[-> Hlog]|[-> Hlog]].
    + left. split; [done|]. intros s Hin.
      apply elem_of_app in Hin as [Hin|Hin]; [now apply (Hlog s)|].
      now apply (Hl s).
    + right. split; [done|]. apply elem_of_app. now left.
    + right. split; [done|]. apply elem_of_app. now right.
    + right. split; [done|]. apply elem_of_app. now right.
Qed.

(** X14.  [event_notify] leaves the zone as it was, with no serial logged, or
    leaves it with the serial of the SOA of the apex, marked valid, as the
    last one notified, and then that serial has been logged; the name of
    the zone stays. *)
Theorem event_notify_serial (conf : conf_t) (zone : zone_t)
    (contents : option zone_contents_t) :
  let r := event_notify conf zone contents in
  (snd (fst r) = zone ∧ ∀ s, LogInfoSerial s ∉ snd r)
  ∨ (∃ c, contents = Some c ∧ is_empty c = false
       ∧ snd (fst r)
         = {| name := name zone;
              last_notified_serial :=
                Z.lor (knot_soa_serial (rdata (apex_soa c)))
                      LAST_NOTIFIED_SERIAL_VALID |}
       ∧ LogInfoSerial (knot_soa_serial (rdata (apex_soa c))) ∈ snd r).
Proof.
  cbn zeta. unfold event_notify.
  destruct contents as [c|]; cbn [zone_contents_is_empty].
  2:{ left. split; [done|]. intros s. apply not_elem_of_nil. }
  destruct (is_empty c) eqn:Hc.
  { left. split; [done|]. intros s. apply not_elem_of_nil. }
  pose proof (notify_remotes_serial zone (apex_soa c) (notify conf)
                (srv_tcp_remote_io_timeout conf) false) as Hs.
  cbn zeta in Hs.
  destruct (notify_remotes zone (apex_soa c) (notify conf) _ false)
    as [[failed z] l].
  cbn [fst snd] in *. destruct Hs as [Hs|[-> Hl]]; [now left|].
  right. exists c. done.
Qed.

(** X15.  The addresses of a remote behind one that gave [KNOT_EOK] are not
    tried: the event runs as if they were not configured. *)
Theorem event_notify_first_working (timeout : Z) (zone : zone_t)
    (c : zone_contents_t)
    (before after : list (list conf_remote_t))
    (tried rest : list conf_remote_t) (slave : conf_remote_t) :
  fst (fst (send_notify zone (apex_soa c) slave timeout)) = KNOT_EOK →
  event_notify
    {| srv_tcp_remote_io_timeout := timeout;
       notify := before ++ (tried ++ slave :: rest) :: after |}
    zone (Some c)
  = event_notify
      {| srv_tcp_remote_io_timeout := timeout;
         notify := before ++ (tried ++ [slave]) :: after |}
      zone (Some c).
Proof.
  intros Hok. unfold event_notify. cbn [zone_contents_is_empty].
  destruct (is_empty c); [reflexivity|].
  cbn [srv_tcp_remote_io_timeout notify].
  assert (Haddrs : ∀ z ret, name z = name zone →
    notify_addrs z (apex_soa c) (tried ++ slave :: rest) timeout ret
    = notify_addrs z (apex_soa c) (tried ++ [slave]) timeout ret).
  { induction tried as [|s tried IH]; intros z ret Hn;
      cbn [app notify_addrs].
    - pose proof (send_notify_status z zone (apex_soa c) slave timeout Hn)
        as Hst.
      destruct (send_notify z (apex_soa c) slave timeout) as [[r z'] l].
      cbn [fst] in Hst. rewrite Hst, Hok. reflexivity.
    - pose proof (send_notify_name z (apex_soa c) s timeout) as Hn'.
      destruct (send_notify z (apex_soa c) s timeout) as [[r z'] l].
      cbn [fst snd] in Hn'. destruct (r =? KNOT_EOK); [reflexivity|].
      now rewrite IH by congruence. }
  assert (Hrem : ∀ z failed, name z = name zone →
    notify_remotes z (apex_soa c)
      (before ++ (tried ++ slave :: rest) :: after) timeout failed
    = notify_remotes z (apex_soa c)
        (before ++ (tried ++ [slave]) :: after) timeout failed).
  { induction before as [|addrs before IH]; intros z failed Hn;
      cbn [app notify_remotes].
    - now rewrite Haddrs.
    - pose proof (notify_addrs_name z (apex_soa c) addrs timeout KNOT_EOK)
        as Hn'.
      destruct (notify_addrs z (apex_soa c) addrs timeout KNOT_EOK)
        as [[r z'] l].
      cbn [fst snd] in Hn'. now rewrite IH by congruence. }
  now rewrite Hrem.
Qed.

End NotifyEventProperties.

(** ** More on the datagram pipeline *)

Section UdpPktinfoFrame.

Import Libknot UdpHandler.

(** X17.  [udp_pktinfo_handle] leaves the address length of the TX header and
    every control buffer but the one of the RX header as they are; in
    that one it keeps the length, the level, the type and the address of
    the packet info.  The buffer is the one the RX header points to: the
    change shows through both headers. *)
Theorem udp_pktinfo_handle_frame rx tx mem tx' mem' :
  udp_pktinfo_handle rx tx mem = Some (tx', mem') →
  msg_namelen tx' = msg_namelen tx
  ∧ dom mem' = dom mem
  ∧ (∀ a, msg_control rx ≠ Some a → mem' !! a = mem !! a)
  ∧ (∀ a cmsg', mem' !! a = Some cmsg' →
       ∃ cmsg, mem !! a = Some cmsg
         ∧ cmsg_len cmsg' = cmsg_len cmsg
         ∧ cmsg_level cmsg' = cmsg_level cmsg
         ∧ cmsg_type cmsg' = cmsg_type cmsg
         ∧ match cmsg_data cmsg, cmsg_data cmsg' with
           | Data_in_pktinfo i, Data_in_pktinfo i' => ipi_addr i' = ipi_addr i
           | Data_in6_pktinfo i, Data_in6_pktinfo i' =>
             ipi6_addr i' = ipi6_addr i
           | Data_other b, Data_other b' => b' = b
           | _, _ => False
           end).
Proof.
  assert (Hsame : ∀ a cmsg, mem !! a = Some cmsg →
    ∃ cmsg0, mem !! a = Some cmsg0
      ∧ cmsg_len cmsg = cmsg_len cmsg0
      ∧ cmsg_level cmsg = cmsg_level cmsg0
      ∧ cmsg_type cmsg = cmsg_type cmsg0
      ∧ match cmsg_data cmsg0, cmsg_data cmsg with
        | Data_in_pktinfo i, Data_in_pktinfo i' => ipi_addr i' = ipi_addr i
        | Data_in6_pktinfo i, Data_in6_pktinfo i' =>
          ipi6_addr i' = ipi6_addr i
        | Data_other b, Data_other b' => b' = b
        | _, _ => False
        end).
  { intros a cmsg Ha. exists cmsg. repeat split; try done.
    now destruct (cmsg_data cmsg). }
  unfold udp_pktinfo_handle, CMSG_FIRSTHDR. cbn [msg_controllen msg_control].
  destruct (sizeof_cmsghdr <=? msg_controllen rx) eqn:Hlen.
  2:{ intros [= <- <-]. repeat split; try done. }
  apply Z.leb_le in Hlen. unfold sizeof_cmsghdr in Hlen.
  assert ((0 <? msg_controllen rx) = true) as -> by (apply Z.ltb_lt; lia).
  destruct (msg_control rx) as [c|] eqn:Hc.
  2:{ intros [= <- <-]. repeat split; try done. }
  destruct (mem !! c) as [cmsg|] eqn:Hmem; [|discriminate].
  cbn [mbind option_bind].
  destruct (_ && _).
  { destruct (cmsg_data cmsg) as [info| |] eqn:Hd; try discriminate.
    intros [= <- <-]. cbn [msg_namelen].
    split; [reflexivity|].
    split; [apply dom_insert_lookup_L; eauto|].
    split.
    - intros a Ha. apply lookup_insert_ne. congruence.
    - intros a cmsg' Ha. destruct (decide (a = c)) as [->|Hne].
      + rewrite lookup_insert_eq in Ha. injection Ha as <-.
        exists cmsg. cbn. rewrite Hd. done.
      + rewrite lookup_insert_ne in Ha by done. now apply Hsame. }
  destruct (_ && _).
  { destruct (cmsg_data cmsg) as [|info|] eqn:Hd; try discriminate.
    intros [= <- <-]. cbn [msg_namelen].
    split; [reflexivity|].
    split; [apply dom_insert_lookup_L; eauto|].
    split.
    - intros a Ha. apply lookup_insert_ne. congruence.
    - intros a cmsg' Ha. destruct (decide (a = c)) as [->|Hne].
      + rewrite lookup_insert_eq in Ha. injection Ha as <-.
        exists cmsg. cbn. rewrite Hd. done.
      + rewrite lookup_insert_ne in Ha by done. now apply Hsame. }
  intros [= <- <-]. repeat split; try done.
Qed.

(** X18.  Handing the result of [udp_pktinfo_handle] to it again changes
    nothing: a TX header and a control buffer that went through it are
    left as they are. *)
Theorem udp_pktinfo_handle_idempotent rx tx mem tx' mem' :
  udp_pktinfo_handle rx tx mem = Some (tx', mem') →
  udp_pktinfo_handle rx tx' mem' = Some (tx', mem').
Proof.
  unfold udp_pktinfo_handle, CMSG_FIRSTHDR. cbn [msg_controllen msg_control].
  destruct (sizeof_cmsghdr <=? msg_controllen rx) eqn:Hlen.
  2:{ intros [= <- <-]. reflexivity. }
  destruct (if 0 <? msg_controllen rx then msg_control rx else None)
    as [c|] eqn:Hc.
  2:{ intros [= <- <-]. reflexivity. }
  destruct (mem !! c) as [cmsg|] eqn:Hmem; [|discriminate].
  cbn [mbind option_bind].
  destruct ((cmsg_level cmsg =? IPPROTO_IP) && (cmsg_type cmsg =? IP_PKTINFO))
    eqn:H4.
  { destruct (cmsg_data cmsg) as [info| |] eqn:Hd; try discriminate.
    intros [= <- <-]. cbn [msg_namelen].
    rewrite lookup_insert_eq. cbn [mbind option_bind cmsg_level cmsg_type
      cmsg_data cmsg_len ipi_addr]. rewrite H4. now rewrite insert_insert_eq. }
  destruct ((cmsg_level cmsg =? IPPROTO_IPV6)
            && (cmsg_type cmsg =? IPV6_PKTINFO)) eqn:H6.
  { destruct (cmsg_data cmsg) as [|info|] eqn:Hd; try discriminate.
    intros [= <- <-]. cbn [msg_namelen].
    rewrite lookup_insert_eq. cbn [mbind option_bind cmsg_level cmsg_type
      cmsg_data cmsg_len ipi6_addr]. rewrite H4, H6. now rewrite insert_insert_eq. }
  intros [= <- <-]. cbn [msg_namelen]. rewrite Hmem.
  cbn [mbind option_bind]. now rewrite H4, H6.
Qed.

End UdpPktinfoFrame.

(** ** More on [ns_answer_request] *)

Section NsAnswerRequestOutcome.

Import NameServer NameServerPackets.
Context {zdb_database zn_node : Type} {L : Libraries zdb_database zn_node}.
Implicit Types (ns : ns_nameserver zdb_database) (query_wire : list Z).
Implicit Types (o : outbuf) (p query response : dnss_packet).

(** Runs one call down to the outcomes of the library calls it makes. *)
Ltac run_paths :=
  unfold run_ns_answer_request, ns_answer_request,
    call_zdb_find_name, call_zn_find_rrset, call_create_empty_packet,
    call_create_response, call_create_error_response, call_wire_format,
    rcu_read_lock, rcu_read_unlock, dnss_destroy_packet, emit, modify,
    return_, assert_, mbind, mret, M_bind, M_ret;
  repeat (cbn [fst snd trace out app negb];
          match goal with
          | |- context [match ?x with _ => _ end] =>
            lazymatch x with
            | context [match _ with _ => _ end] => fail
            | _ => destruct x eqn:?
            end
          end);
  cbn [fst snd trace out app negb] in *.

(** X19.  [ns_answer_request] returns 0 or -1, or stops at its assertion.  It
    returns 0 when the response was encoded at once, and also when
    neither the response nor the error response could be encoded; it
    stops at the assertion exactly when the error response was
    encoded. *)
Theorem ns_answer_request_outcome ns query_wire o :
  let run := run_ns_answer_request ns query_wire o in
  let encoded := wire_formats (trace (snd run)) in
  (fst run = Return 0 ∨ fst run = Return (-1) ∨ fst run = Abort)
  ∧ (fst run = Return 0 ↔
     (∃ response, encoded = [(response, 0)])
     ∨ (∃ response res1 err res2,
          encoded = [(response, res1); (err, res2)]
          ∧ res1 ≠ 0 ∧ res2 ≠ 0))
  ∧ (fst run = Abort ↔
     ∃ response res1 err, encoded = [(response, res1); (err, 0)]).
Proof.
  cbv zeta.
  run_paths;
    repeat match goal with
           | H : negb (?z =? 0) = true |- _ =>
             apply negb_true_iff, Z.eqb_neq in H
           | H : negb (?z =? 0) = false |- _ =>
             apply negb_false_iff, Z.eqb_eq in H; subst z
           end;
    cbn [wire_formats];
    (split; [tauto|]); split; split;
    try discriminate; try tauto;
    try (intros [(? & [=])|(? & ? & ? & ? & [=] & ? & ?)]; done);
    try (intros (? & ? & ? & [=]); done);
    intros _; eauto 10.
Qed.

(** X20.  A call that went past the check of the question and returned has
    destroyed every packet it held: the query, and the response when one
    was created. *)
Theorem ns_answer_request_destroys ns query_wire o query r :
  dnss_parse_query query_wire = Some query →
  0 < qdcount (header query) →
  let run := run_ns_answer_request ns query_wire o in
  fst run = Return r →
  count is_destroy (trace (snd run))
  = match dnss_create_empty_packet with Some _ => 2%nat | None => 1%nat end.
Proof.
  intros Hq Hqd. cbv zeta.
  assert (Hqd' : (qdcount (header query) <=? 0) = false) by lia.
  unfold run_ns_answer_request, ns_answer_request. rewrite Hq, Hqd'.
  unfold call_zdb_find_name, call_zn_find_rrset, call_create_empty_packet,
    call_create_response, call_create_error_response, call_wire_format,
    rcu_read_lock, rcu_read_unlock, dnss_destroy_packet, emit, modify,
    return_, assert_, mbind, mret, M_bind, M_ret.
  repeat (cbn [fst snd trace out app negb];
          match goal with
          | |- context [match ?x with _ => _ end] =>
            lazymatch x with
            | context [match _ with _ => _ end] => fail
            | _ => destruct x eqn:?
            end
          end);
  cbn [fst snd trace out app negb]; intros Hr; try discriminate;
    reflexivity.
Qed.

End NsAnswerRequestOutcome.

(** ** The batch receive path *)

Section UdpRecvmmsgProperties.

Import Libknot UdpHandler UdpRecvmmsg.
Context {D : Type} {api : knot_layer_api_t D knotd_qdata_params_t}
        {codec : Codec} {kernel : Kernel}.

Lemma lookup_repeat {A} (x : A) (n k : nat) :
  (k < n)%nat → repeat x n !! k = Some x.
Proof.
  revert k. induction n as [|n IH]; intros k Hk; [lia|].
  destruct k as [|k]; [reflexivity|]. cbn. apply IH. lia.
Qed.

(** [udp_recvmmsg_init] leaves every slot ready. *)
Lemma udp_recvmmsg_init_ready (batchlen : nat) (buf : list Z) :
  ready (fst (udp_recvmmsg_init batchlen buf)) batchlen.
Proof.
  unfold udp_recvmmsg_init, ready, slots. cbn [fst addrs iov_rx iov_tx
    msgs_rx msgs_tx].
  rewrite !repeat_length, !length_fmap, !length_seq.
  split; [done|]. intros k Hk. unfold slot_ready.
  cbn [iov_rx iov_tx msgs_rx msgs_tx].
  eexists _, _, _, _.
  rewrite !list_lookup_fmap, !lookup_seq_lt by lia.
  rewrite !lookup_repeat by lia. cbn. done.
Qed.

(** The loop of [udp_recvmmsg_handle] keeps the number of slots, the
    received headers and every slot it does not run over; in a slot it
    ran over, the length to send is that of the TX vector and the
    address length is that of the received header, or 0 when there is
    nothing to send. *)
Lemma udp_recvmmsg_handle_from_spec fuel todo : ∀ i ctx rq mem ctx' rq' mem',
  udp_recvmmsg_handle_from fuel todo i ctx rq mem = Some (ctx', rq', mem') →
  (∀ n, slots rq n → slots rq' n)
  ∧ rcvd rq' = rcvd rq ∧ fd rq' = fd rq
  ∧ msgs_rx rq' = msgs_rx rq ∧ addrs rq' = addrs rq
  ∧ (∀ k, (k < i ∨ i + todo ≤ k)%nat →
       iov_rx rq' !! k = iov_rx rq !! k
       ∧ iov_tx rq' !! k = iov_tx rq !! k
       ∧ msgs_tx rq' !! k = msgs_tx rq !! k)
  ∧ (∀ k, (i ≤ k < i + todo)%nat →
       ∃ mrx mtx tx,
         msgs_rx rq !! k = Some mrx
         ∧ msgs_tx rq' !! k = Some mtx
         ∧ iov_tx rq' !! k = Some tx
         ∧ msg_len mtx = to_unsigned (iov_len tx)
         ∧ msg_namelen (msg_hdr mtx)
           = if 0 <? iov_len tx then msg_namelen (msg_hdr mrx) else 0).
Proof.
  induction todo as [|todo IH]; intros i ctx rq mem ctx' rq' mem' Hrun;
    cbn [udp_recvmmsg_handle_from] in Hrun.
  - injection Hrun as <- <- <-. do 6 (split; [done|]). intros k Hk. lia.
  - destruct (msgs_rx rq !! i) as [mrx|] eqn:Hmrx; [|discriminate].
    destruct (msgs_tx rq !! i) as [mtx|] eqn:Hmtx; [|discriminate].
    destruct (iov_rx rq !! i) as [rx|] eqn:Hrx; [|discriminate].
    destruct (iov_tx rq !! i) as [tx|] eqn:Htx; [|discriminate].
    destruct (addrs rq !! i) as [addr|] eqn:Haddr; [|discriminate].
    cbn [mbind option_bind] in Hrun.
    destruct (udp_pktinfo_handle _ _ mem) as [[tx_hdr mem1]|];
      [|discriminate].
    cbn [option_bind] in Hrun.
    destruct (udp_handle fuel ctx (fd rq) addr _ tx) as [h|]; [|discriminate].
    cbn [option_bind] in Hrun.
    apply IH in Hrun as (Hslots & Hrcvd & Hfd & Hmsgs & Haddrs & Hout & Hin).
    cbn [rcvd fd msgs_rx addrs iov_rx iov_tx msgs_tx] in *.
    split.
    { intros n Hn. apply Hslots. unfold slots in *.
      cbn [addrs iov_rx iov_tx msgs_rx msgs_tx].
      now rewrite !length_insert. }
    do 4 (split; [done|]). split.
    + intros k Hk. destruct (Hout k ltac:(lia)) as (-> & -> & ->).
      rewrite !list_lookup_insert_ne by lia. done.
    + intros k Hk. destruct (decide (k = i)) as [->|Hne].
      * destruct (Hout i ltac:(lia)) as (_ & -> & ->).
        apply lookup_lt_Some in Htx as Hlt. apply lookup_lt_Some in Hmtx as Hlt'.
        rewrite !list_lookup_insert_eq by done.
        eexists _, _, _. repeat split; try done.
      * destruct (Hin k ltac:(lia)) as (mrx' & mtx' & tx' & ? & ? & ? & ? & ?).
        eauto 10.
Qed.

(** The loop of [udp_recvmmsg_send] runs over the slots there are, resets
    them and keeps the others. *)
Lemma udp_recvmmsg_send_from_spec n todo : ∀ i rq,
  slots rq n → (i + todo ≤ n)%nat →
  ∃ rq', udp_recvmmsg_send_from todo i rq = Some rq'
    ∧ slots rq' n ∧ rcvd rq' = rcvd rq
    ∧ (∀ k, (k < i ∨ i + todo ≤ k)%nat →
         iov_rx rq' !! k = iov_rx rq !! k
         ∧ iov_tx rq' !! k = iov_tx rq !! k
         ∧ msgs_rx rq' !! k = msgs_rx rq !! k
         ∧ msgs_tx rq' !! k = msgs_tx rq !! k)
    ∧ (∀ k, (i ≤ k < i + todo)%nat → slot_ready rq' k).
Proof.
  induction todo as [|todo IH]; intros i rq Hn Hle;
    cbn [udp_recvmmsg_send_from].
  - exists rq. do 4 (split; [done|]). intros k Hk. lia.
  - destruct Hn as (Ha & Hrx & Htx & Hmrx & Hmtx).
    destruct (lookup_lt_is_Some_2 (msgs_rx rq) i ltac:(lia)) as [mrx Emrx].
    destruct (lookup_lt_is_Some_2 (msgs_tx rq) i ltac:(lia)) as [mtx Emtx].
    destruct (lookup_lt_is_Some_2 (iov_rx rq) i ltac:(lia)) as [rx Erx].
    destruct (lookup_lt_is_Some_2 (iov_tx rq) i ltac:(lia)) as [tx Etx].
    destruct (lookup_lt_is_Some_2 (addrs rq) i ltac:(lia)) as [a Ea].
    rewrite Emrx, Emtx, Erx, Etx, Ea. cbn [mbind option_bind].
    match goal with
    | |- ∃ rq', udp_recvmmsg_send_from todo (S i) ?r = _ ∧ _ =>
      destruct (IH (S i) r) as (rq' & Hrun & Hslots & Hrcvd & Hout & Hin)
    end.
    { unfold slots. cbn [addrs iov_rx iov_tx msgs_rx msgs_tx].
      now rewrite !length_insert. }
    { lia. }
    cbn [rcvd iov_rx iov_tx msgs_rx msgs_tx] in *.
    exists rq'. split; [exact Hrun|]. split; [exact Hslots|].
    split; [exact Hrcvd|]. split.
    + intros k Hk. destruct (Hout k ltac:(lia)) as (-> & -> & -> & ->).
      rewrite !list_lookup_insert_ne by lia. done.
    + intros k Hk. destruct (decide (k = i)) as [->|Hne];
        [|apply Hin; lia].
      unfold slot_ready.
      destruct (Hout i ltac:(lia)) as (-> & -> & -> & ->).
      rewrite !list_lookup_insert_eq by lia.
      eexists _, _, _, _. repeat split; reflexivity.
Qed.

(** X21.  One round of the batch path.  From a request whose slots are all
    ready, after [udp_recvmmsg_recv] has received something and
    [udp_recvmmsg_handle] has come back, [udp_recvmmsg_send] hands as
    many messages to [sendmmsg] as were received and leaves every slot
    ready again. *)
Theorem udp_recvmmsg_round (fuel : nat) (ctx ctx' : udp_context_t D)
    (fd' : Z) (n : nat) (rq rq1 rq2 : udp_recvmmsg)
    (mem mem1 mem2 : gmap positive cmsghdr) (got : Z) :
  ready rq n →
  udp_recvmmsg_recv fd' rq mem = (got, rq1, mem1) →
  0 < got →
  udp_recvmmsg_handle fuel ctx rq1 mem1 = Some (ctx', rq2, mem2) →
  ∃ sent rq3,
    udp_recvmmsg_send rq2 = Some (sent, rq3)
    ∧ Z.of_nat (length sent) = got
    ∧ ready rq3 n.
Proof.
  intros [Hslots Hready] Hrecv Hgot Hhandle.
  unfold udp_recvmmsg_recv in Hrecv.
  pose proof (recvmmsg_count fd' (msgs_rx rq) (iov_rx rq) (addrs rq) mem)
    as Hcount.
  pose proof (recvmmsg_length fd' (msgs_rx rq) (iov_rx rq) (addrs rq) mem)
    as Hlen.
  pose proof (recvmmsg_rest fd' (msgs_rx rq) (iov_rx rq) (addrs rq) mem)
    as Hrest.
  destruct (recvmmsg fd' (msgs_rx rq) (iov_rx rq) (addrs rq) mem)
    as [got' [[[msgs iov] addrs'] mem']].
  cbn [fst snd] in *. injection Hrecv as -> <- <-.
  assert ((0 <? got) = true) as Hpos by (apply Z.ltb_lt; lia).
  rewrite Hpos in Hhandle.
  destruct Hslots as (Ha & Hrx & Htx & Hmrx & Hmtx).
  destruct Hlen as (Hlm & Hli & Hla).
  unfold udp_recvmmsg_handle in Hhandle. cbn [rcvd] in Hhandle.
  apply udp_recvmmsg_handle_from_spec in Hhandle
    as (Hkeep & Hrcvd & _ & Hmsgs & _ & Hout & _).
  cbn [rcvd msgs_rx iov_rx iov_tx msgs_tx] in *.
  assert (Hslots2 : slots rq2 n).
  { apply Hkeep. unfold slots. cbn [addrs iov_rx iov_tx msgs_rx msgs_tx].
    repeat split; congruence. }
  destruct (udp_recvmmsg_send_from_spec n (Z.to_nat got) 0 rq2 Hslots2)
    as (rq3 & Hsend & Hslots3 & _ & Hout3 & Hin3); [lia|].
  unfold udp_recvmmsg_send. rewrite Hrcvd, Hsend. cbn [mbind option_bind].
  eexists _, _. split; [reflexivity|].
  destruct Hslots2 as (_ & _ & Htx2 & _ & Hmtx2).
  split.
  { rewrite length_zip, !length_take. lia. }
  split; [exact Hslots3|].
  intros k Hk. destruct (decide (k < Z.to_nat got)%nat) as [Hlt|Hge].
  - apply Hin3. lia.
  - destruct (Hout3 k ltac:(lia)) as (E1 & E2 & E3 & E4).
    destruct (Hout k ltac:(lia)) as (F1 & F2 & F3).
    destruct (Hrest k ltac:(lia)) as (G1 & G2).
    destruct (Hready k Hk)
      as (rx & tx & mrx & mtx & ? & ? & ? & ? & ? & ? & ? & ? & ?).
    exists rx, tx, mrx, mtx.
    rewrite E1, E2, E3, E4, F1, F2, F3, Hmsgs, G1, G2.
    repeat split; done.
Qed.

(** X22.  In every slot [udp_recvmmsg_handle] ran over, the length handed to
    [sendmmsg] is the length of the answer, and the address length is
    that of the received message when there is an answer and 0 when
    there is none; the slots behind the received ones are as they
    were. *)
Theorem udp_recvmmsg_handle_slots (fuel : nat) (ctx ctx' : udp_context_t D)
    (rq rq' : udp_recvmmsg) (mem mem' : gmap positive cmsghdr) :
  udp_recvmmsg_handle fuel ctx rq mem = Some (ctx', rq', mem') →
  (∀ k, (k < Z.to_nat (rcvd rq))%nat →
     ∃ mrx mtx tx,
       msgs_rx rq !! k = Some mrx
       ∧ msgs_tx rq' !! k = Some mtx
       ∧ iov_tx rq' !! k = Some tx
       ∧ msg_len mtx = to_unsigned (iov_len tx)
       ∧ msg_namelen (msg_hdr mtx)
         = if 0 <? iov_len tx then msg_namelen (msg_hdr mrx) else 0)
  ∧ (∀ k, (Z.to_nat (rcvd rq) ≤ k)%nat →
       iov_rx rq' !! k = iov_rx rq !! k
       ∧ iov_tx rq' !! k = iov_tx rq !! k
       ∧ msgs_tx rq' !! k = msgs_tx rq !! k)
  ∧ msgs_rx rq' = msgs_rx rq
  ∧ (Z.to_nat (rcvd rq) ≤ length (msgs_rx rq))%nat.
Proof.
  intros Hrun. unfold udp_recvmmsg_handle in Hrun.
  apply udp_recvmmsg_handle_from_spec in Hrun
    as (_ & _ & _ & Hmsgs & _ & Hout & Hin).
  split; [intros k Hk; apply Hin; lia|].
  split; [intros k Hk; apply Hout; lia|].
  split; [exact Hmsgs|].
  destruct (Z.to_nat (rcvd rq)) as [|m] eqn:Hm; [lia|].
  destruct (Hin m ltac:(lia)) as (mrx & _ & _ & Hl & _).
  apply lookup_lt_Some in Hl. lia.
Qed.

End UdpRecvmmsgProperties.

Section NotifyLayer.

Import Libknot Notify.
Context {E : Environment}.

(** One exchange through the NOTIFY layer: whatever the layer held
    before and whatever the response says, the layer is done after the
    first response, holds the parameters it was begun with, and the
    message produced is the one [notify_produce] makes of them. *)
Theorem notify_layer_exchange (l : knot_layer_t notify_data)
    (params : notify_data) (pkt resp : knot_pkt_t) :
  let produced := knot_layer_produce (knot_layer_begin l params) pkt in
  knot_layer_consume (fst produced) resp
  = {| state := KNOT_STATE_DONE; data := params |}
  ∧ state (fst produced) = KNOT_STATE_CONSUME
  ∧ snd produced
    = snd (fst (notify_produce
                  {| state := KNOT_STATE_PRODUCE; data := params |} pkt)).
Proof. cbv zeta. repeat split. Qed.

End NotifyLayer.

(** ** Reverse names and TSIG keys *)

Section ParamsNamesProperties.

Import Params ParamsNames.
Context {inet : Inet} {tsig : TsigLibrary}.

Lemma fmt_base_length fuel : ∀ base n acc,
  (length acc < length (fmt_base fuel base n acc) ≤ S fuel + length acc)%nat.
Proof.
  induction fuel as [|fuel IH]; intros base n acc; cbn [fmt_base].
  - cbn [length]. lia.
  - destruct (n / base =? 0); [cbn [length]; lia|].
    specialize (IH base (n / base) (digit_char (n mod base) :: acc)).
    cbn [length] in IH. lia.
Qed.

Lemma fmt_u_length n : (length (fmt_u n) ≤ 10)%nat.
Proof.
  unfold fmt_u. pose proof (fmt_base_length 9 10 n []) as H.
  cbn [length] in H. lia.
Qed.

(** A nibble prints as its digit. *)
Lemma fmt_x_nibble d : 0 ≤ d < 16 → fmt_x d = [digit_char d].
Proof.
  intros Hd. unfold fmt_x. cbn [fmt_base].
  rewrite Z.div_small, Z.mod_small by lia. reflexivity.
Qed.

Lemma testbit_high y k n :
  0 ≤ y < 2 ^ k → 0 ≤ k ≤ n → Z.testbit y n = false.
Proof.
  intros Hy Hn. destruct (decide (y = 0)) as [->|Hne]; [apply Z.bits_0|].
  apply Z.bits_above_log2; [lia|].
  assert (Z.log2 y < k); [|lia]. apply Z.log2_lt_pow2; lia.
Qed.

Lemma lor_shiftl_add x y k :
  0 ≤ k → 0 ≤ y < 2 ^ k → Z.lor (Z.shiftl x k) y = x * 2 ^ k + y.
Proof.
  intros Hk Hy. rewrite Z.shiftl_mul_pow2 by lia.
  rewrite <- Z.lxor_lor, <- Z.add_nocarry_lxor; try reflexivity;
    rewrite <- Z.shiftl_mul_pow2 by lia;
    apply Z.bits_inj'; intros n Hn;
    rewrite Z.land_spec, Z.bits_0, Z.shiftl_spec by lia;
    (destruct (decide (n < k)) as [Hlt|Hge];
     [ rewrite Z.testbit_neg_r by lia; reflexivity
     | rewrite (testbit_high y k n) by lia; apply andb_false_r ]).
Qed.

(** The bytes of the number [ntohl] gives, from the last one stored to
    the first. *)
Lemma ntohl_bytes a b c d :
  0 ≤ a < 256 → 0 ≤ b < 256 → 0 ≤ c < 256 → 0 ≤ d < 256 →
  Z.land (Z.shiftr (ntohl [a; b; c; d]) 0) 0xFF = d
  ∧ Z.land (Z.shiftr (ntohl [a; b; c; d]) 8) 0xFF = c
  ∧ Z.land (Z.shiftr (ntohl [a; b; c; d]) 16) 0xFF = b
  ∧ Z.land (Z.shiftr (ntohl [a; b; c; d]) 24) 0xFF = a.
Proof.
  intros Ha Hb Hc Hd. unfold ntohl. cbn [nth].
  rewrite (lor_shiftl_add c d 8) by lia.
  rewrite (lor_shiftl_add b _ 16) by lia.
  rewrite (lor_shiftl_add a _ 24) by lia.
  change 0xFF with (Z.ones 8). rewrite !Z.land_ones, !Z.shiftr_div_pow2 by lia.
  change (2 ^ 0) with 1. change (2 ^ 8) with 256.
  change (2 ^ 16) with 65536. change (2 ^ 24) with 16777216.
  repeat split; Z.div_mod_to_equations; lia.
Qed.

(** X24.  [get_reverse_name] of an IPv4 address a.b.c.d is
    d.c.b.a.in-addr.arpa. with the four bytes in decimal; the buffer is
    never too small for it. *)
Theorem get_reverse_name_ipv4 (name : list Z) (a b c d : Z) :
  inet_pton4 name = Some [a; b; c; d] →
  get_reverse_name true (Some name)
  = Some (fmt_u d ++ [46] ++ fmt_u c ++ [46] ++ fmt_u b ++ [46]
          ++ fmt_u a ++ [46] ++ IPV4_REVERSE_DOMAIN).
Proof.
  intros Hp. unfold get_reverse_name. cbn [mbind option_bind]. rewrite Hp.
  destruct (inet_pton4_bytes _ _ Hp) as [_ Hbytes].
  apply Forall_cons in Hbytes as [Ha Hbytes].
  apply Forall_cons in Hbytes as [Hb Hbytes].
  apply Forall_cons in Hbytes as [Hc Hbytes].
  apply Forall_cons in Hbytes as [Hd _].
  destruct (ntohl_bytes a b c d Ha Hb Hc Hd) as (-> & -> & -> & ->).
  pose proof (fmt_u_length a). pose proof (fmt_u_length b).
  pose proof (fmt_u_length c). pose proof (fmt_u_length d).
  match goal with
  | |- (if ?t then _ else _) = _ => assert (t = false) as ->
  end; [|reflexivity].
  apply orb_false_iff. unfold sizeof_buf.
  rewrite !length_app. cbn [length IPV4_REVERSE_DOMAIN].
  split; [apply Z.ltb_ge|apply Z.leb_gt]; lia.
Qed.

(** What a byte of an IPv6 address prints as: the low nibble, then the
    high one. *)
Lemma nibbles b :
  0 ≤ b < 256 →
  fmt_x (Z.land b 0x0F) ++ [46] ++ fmt_x (Z.shiftr (Z.land b 0xF0) 4) ++ [46]
  = [digit_char (b mod 16); 46; digit_char (b / 16); 46].
Proof.
  intros Hb.
  assert (Hlow : Z.land b 0x0F = b mod 16)
    by (change 0x0F with (Z.ones 4); now rewrite Z.land_ones by lia).
  assert (Hhigh : Z.shiftr (Z.land b 0xF0) 4 = b / 16).
  { apply Z.bits_inj'. intros n Hn.
    rewrite Z.shiftr_spec, Z.land_spec by lia.
    change (b / 16) with (b / 2 ^ 4).
    rewrite <- Z.shiftr_div_pow2, Z.shiftr_spec by lia.
    destruct (decide (n < 4)) as [Hlt|Hge].
    - replace (Z.testbit 240 (n + 4)) with true; [apply andb_true_r|].
      assert (n = 0 ∨ n = 1 ∨ n = 2 ∨ n = 3) as [->|[->|[->| ->]]] by lia;
        reflexivity.
    - rewrite (testbit_high b 8 (n + 4)) by lia. reflexivity. }
  rewrite Hlow, Hhigh.
  rewrite !fmt_x_nibble; [reflexivity| |].
  - split; [apply Z.div_pos; lia|]. apply Z.div_lt_upper_bound; lia.
  - apply Z.mod_pos_bound. lia.
Qed.

Lemma reverse6_spec s6_addr : ∀ todo buf len,
  (todo ≤ length s6_addr)%nat → Forall (λ b, 0 ≤ b < 256) s6_addr →
  4 * Z.of_nat todo < len →
  reverse6 todo s6_addr buf len
  = Some (buf ++ flat_map (λ b, [digit_char (b mod 16); 46;
                                 digit_char (b / 16); 46])
                   (reverse (take todo s6_addr)),
          len - 4 * Z.of_nat todo).
Proof.
  induction todo as [|i IH]; intros buf len Hle Hbytes Hlen;
    cbn [reverse6].
  - rewrite take_0. cbn. rewrite app_nil_r. do 2 f_equal. lia.
  - destruct (lookup_lt_is_Some_2 s6_addr i ltac:(lia)) as [b Hb].
    rewrite (nth_lookup_Some _ _ _ _ Hb).
    assert (Hrange : 0 ≤ b < 256).
    { rewrite Forall_forall in Hbytes. apply Hbytes.
      apply list_elem_of_lookup. eauto. }
    rewrite (nibbles b Hrange). cbn [length].
    assert ((Z.of_nat 4 <? 0) || (len <=? Z.of_nat 4) = false) as ->
      by (apply orb_false_iff; split; [apply Z.ltb_ge|apply Z.leb_gt]; lia).
    rewrite IH; [|lia|exact Hbytes|lia].
    rewrite (take_S_r _ _ _ Hb), reverse_snoc. cbn [flat_map].
    rewrite <- !app_assoc. do 2 f_equal. lia.
Qed.

(** X25.  [get_reverse_name] of an IPv6 address prints its bytes from the last
    to the first, of each the low nibble and then the high one, a dot
    behind every nibble, and ip6.arpa. behind them: 73 characters, for
    which the buffer is never too small. *)
Theorem get_reverse_name_ipv6 (name addr6 : list Z) :
  inet_pton4 name = None →
  inet_pton6 name = Some addr6 →
  ∃ r, get_reverse_name true (Some name) = Some r
       ∧ r = flat_map (λ b, [digit_char (b mod 16); 46;
                             digit_char (b / 16); 46]) (reverse addr6)
             ++ IPV6_REVERSE_DOMAIN
       ∧ length r = 73%nat.
Proof.
  intros H4 H6. unfold get_reverse_name. cbn [mbind option_bind].
  rewrite H4, H6.
  destruct (inet_pton6_bytes _ _ H6) as [Hlen Hbytes].
  rewrite (reverse6_spec addr6 16 [] sizeof_buf) by
    (try done; unfold sizeof_buf; lia).
  cbn [mbind option_bind]. unfold sizeof_buf.
  cbn [length IPV6_REVERSE_DOMAIN].
  assert ((Z.of_nat 9 <? 0) || (128 - 4 * Z.of_nat 16 <=? Z.of_nat 9) = false)
    as -> by reflexivity.
  replace (take 16 addr6) with addr6 by (rewrite <- Hlen; now rewrite firstn_all).
  cbn [app].
  eexists. split; [reflexivity|]. split; [reflexivity|].
  rewrite length_app. cbn [length].
  assert (Hflat : ∀ l : list Z,
    length (flat_map (λ b, [digit_char (b mod 16); 46;
                            digit_char (b / 16); 46]) l)
    = (4 * length l)%nat).
  { induction l as [|x l IHl]; [reflexivity|].
    cbn [flat_map length app]. rewrite IHl. lia. }
  rewrite Hflat, length_reverse, Hlen. reflexivity.
Qed.

(** The cut at the first colon. *)
Lemma cut_colon_app (h k : list Z) :
  58 ∉ h → cut_colon (h ++ 58 :: k) = (h, Some k).
Proof.
  induction h as [|c h IH]; intros Hh; cbn [app cut_colon].
  - reflexivity.
  - apply not_elem_of_cons in Hh as [Hc Hh].
    assert ((c =? 58) = false) as -> by (apply Z.eqb_neq; congruence).
    now rewrite IH.
Qed.

Lemma cut_colon_none (s : list Z) : 58 ∉ s → cut_colon s = (s, None).
Proof.
  induction s as [|c s IH]; intros Hs; cbn [cut_colon]; [reflexivity|].
  apply not_elem_of_cons in Hs as [Hc Hs].
  assert ((c =? 58) = false) as -> by (apply Z.eqb_neq; congruence).
  now rewrite IH.
Qed.

(** X26.  [params_parse_tsig] reads [hmac:]keyname:secret into a key that has
    no name yet.  With two colons or more the first part is looked up as
    the algorithm, the second is the name and all the rest is the
    secret; with one colon the algorithm is HMAC-MD5.  The status is that
    of the base64 decoder, and the name and the algorithm are written
    even when the secret does not decode.  Without a colon, or with an
    unknown algorithm, the call fails with [KNOT_EINVAL], having set the
    algorithm to HMAC-MD5. *)
Theorem params_parse_tsig_format (kp : knot_key_params_t)
    (hmac keyname secret : list Z) :
  key_name kp = None → 58 ∉ hmac → 58 ∉ keyname →
  let md5 := {| key_name := None; key_algorithm := KNOT_TSIG_ALG_HMAC_MD5;
                key_secret := key_secret kp |} in
  let decoded := knot_binary_from_base64 secret (key_secret kp) in
  let key alg :=
    {| key_name := knot_dname_to_lower <$> knot_dname_from_str keyname;
       key_algorithm := alg;
       key_secret := snd decoded |} in
  params_parse_tsig true (Some (hmac ++ 58 :: keyname ++ 58 :: secret))
    (Some kp)
  = match knot_lookup_by_name hmac with
    | Some alg => (fst decoded, Some (key alg))
    | None => (KNOT_EINVAL, Some md5)
    end
  ∧ (58 ∉ secret →
     params_parse_tsig true (Some (keyname ++ 58 :: secret)) (Some kp)
     = (fst decoded, Some (key KNOT_TSIG_ALG_HMAC_MD5)))
  ∧ params_parse_tsig true (Some keyname) (Some kp)
    = (KNOT_EINVAL, Some md5).
Proof.
  intros Hname Hh Hk. cbv zeta. unfold params_parse_tsig.
  rewrite Hname. rewrite bool_decide_eq_false_2 by (intros [? [=]]).
  cbn [negb key_name key_secret key_algorithm].
  split; [|split].
  - rewrite (cut_colon_app hmac _ Hh). cbn [fst snd option_map].
    rewrite (cut_colon_app keyname _ Hk). cbn [fst snd].
    destruct (knot_lookup_by_name hmac) as [alg|]; [|reflexivity].
    destruct (knot_binary_from_base64 secret (key_secret kp)) as [r sec].
    cbn [fst snd]. destruct (r =? KNOT_EOK) eqn:Hr; [|reflexivity].
    apply Z.eqb_eq in Hr. now subst r.
  - intros Hs. rewrite (cut_colon_app keyname _ Hk).
    cbn [fst snd option_map]. rewrite (cut_colon_none _ Hs). cbn [fst snd].
    destruct (knot_binary_from_base64 secret (key_secret kp)) as [r sec].
    cbn [fst snd]. destruct (r =? KNOT_EOK) eqn:Hr; [|reflexivity].
    apply Z.eqb_eq in Hr. now subst r.
  - rewrite (cut_colon_none _ Hk). reflexivity.
Qed.

End ParamsNamesProperties.

Section NsAnswerRequestSuccess.

Import NameServer.
Context {zdb_database zn_node : Type} {L : Libraries zdb_database zn_node}.

(** X23.  The path without an error: the response built under the lock, from
    the rrset of the queried type at the node of the queried name or
    empty when the name has no node, is encoded once into the caller's
    buffer, which is left as the encoder left it, and the call returns
    0. *)
Theorem ns_answer_request_success (ns : ns_nameserver zdb_database)
    (query_wire : list Z) (o o1 : outbuf)
    (query empty response : dnss_packet) :
  dnss_parse_query query_wire = Some query →
  0 < qdcount (header query) →
  dnss_create_empty_packet = Some empty →
  built_response ns query empty = (0, response) →
  dnss_wire_format response o = (0, o1) →
  let run := run_ns_answer_request ns query_wire o in
  fst run = Return 0
  ∧ out (snd run) = o1
  ∧ wire_formats (trace (snd run)) = [(response, 0)]
  ∧ EvCreateErrorResponse ∉ trace (snd run).
Proof.
  intros Hq Hqd He Hb Hw. cbv zeta.
  assert (Hqd' : (qdcount (header query) <=? 0) = false) by lia.
  unfold built_response in Hb.
  unfold run_ns_answer_request, ns_answer_request.
  rewrite Hq, Hqd'.
  unfold call_zdb_find_name, call_zn_find_rrset, call_create_empty_packet,
    call_create_response, call_create_error_response, call_wire_format,
    rcu_read_lock, rcu_read_unlock, dnss_destroy_packet, emit, modify,
    return_, assert_, mbind, mret, M_bind, M_ret.
  cbn [fst snd trace out app]. rewrite He.
  destruct (zdb_find_name _ _) as [node|];
    cbn [fst snd trace out app]; rewrite Hb;
    cbn [fst snd trace out app negb Z.eqb]; rewrite Hw;
    cbn [fst snd trace out app negb Z.eqb wire_formats];
    (split; [reflexivity|]); (split; [reflexivity|]);
    (split; [reflexivity|]);
    rewrite !not_elem_of_cons; repeat (split; [discriminate|]);
    apply not_elem_of_nil.
Qed.

End NsAnswerRequestSuccess.

(** ** The properties at concrete inputs *)

Lemma table100_wf : QuicChains.table_wf ∅ Quic.Reference.table100.
Proof.
  split; [reflexivity|]. split; [reflexivity|].
  intros i head Hi. cbn [Quic.conns Quic.Reference.table100] in Hi.
  apply lookup_replicate in Hi as [-> _]. exists []. constructor.
Qed.

Lemma ngtcp2_cid_eq_hash_witness :
  Quic.knot_quic_conn_hash (platform := Quic.Reference.x86_64)
    Quic.Reference.cid10
  = Quic.knot_quic_conn_hash (platform := Quic.Reference.x86_64)
      {| Quic.datalen := 10;
         Quic.data := [1; 2; 3; 4; 5; 6; 7; 8; 9; 10] |}.
Proof.
  apply (ngtcp2_cid_eq_hash (platform := Quic.Reference.x86_64)).
  vm_compute. reflexivity.
Defined.

Lemma knot_quic_table_find_new_witness :
  Quic.knot_quic_table_find (platform := Quic.Reference.x86_64) 0 ∅
    Quic.Reference.table100 Quic.Reference.cid10
  = Some None.
Proof.
  apply (knot_quic_table_find_new (platform := Quic.Reference.x86_64)
           100 Quic.Reference.table100 ∅ Quic.Reference.cid10 0).
  - lia.
  - cbn. lia.
  - reflexivity.
Defined.

Lemma knot_quic_table_wf_invariant_witness :
  QuicChains.table_wf ∅ Quic.Reference.table100.
Proof.
  apply (proj1 (knot_quic_table_wf_invariant
                  (platform := Quic.Reference.x86_64))
           100 Quic.Reference.table100 ∅).
  - lia.
  - reflexivity.
Defined.

Lemma knot_quic_table_find_total_witness :
  ∃ n r, ∀ fuel, (n ≤ fuel)%nat →
    Quic.knot_quic_table_find (platform := Quic.Reference.x86_64) fuel ∅
      Quic.Reference.table100 Quic.Reference.cid10 = Some r.
Proof.
  apply (knot_quic_table_find_total (platform := Quic.Reference.x86_64)).
  - exact table100_wf.
  - cbn. lia.
Defined.

Lemma knot_quic_table_find_sound_witness :
  ∃ e, (<[1%positive :=
           {| Quic.dcid :=
                {| Quic.datalen := 10;
                   Quic.data := [1; 2; 3; 4; 5; 6; 7; 8; 9; 10;
                                 0; 0; 0; 0; 0; 0; 0; 0; 0; 0] |};
              Quic.conn := None; Quic.next := None |}]> ∅ : gmap _ _)
       !! 1%positive = Some e
       ∧ Quic.ngtcp2_cid_eq (Quic.dcid e) Quic.Reference.cid10 = true.
Proof.
  apply (proj1 (knot_quic_table_find_sound
                  (platform := Quic.Reference.x86_64) 1 _
                  {| Quic.size := 100; Quic.usage := 0;
                     Quic.inbufs_total := 0;
                     Quic.conns := <[61%nat := Some 1%positive]>
                                     (replicate 100 None) |}
                  Quic.Reference.cid10)).
  vm_compute. reflexivity.
Defined.

Lemma knot_quic_table_add_keeps_others_witness :
  match Quic.knot_quic_table_add (platform := Quic.Reference.x86_64)
          true ∅ Quic.Reference.table100
          {| Quic.datalen := 8; Quic.data := 61 :: repeat 0 19 |} with
  | Some (_, heap', table') =>
    Quic.knot_quic_table_find (platform := Quic.Reference.x86_64) 1
      heap' table'
      {| Quic.datalen := 8; Quic.data := 161 :: repeat 0 19 |}
    = Some None
  | None => False
  end.
Proof.
  destruct (Quic.knot_quic_table_add _ _ _ _) as [[[r heap'] table']|] eqn:Ha;
    [|vm_compute in Ha; discriminate].
  apply (knot_quic_table_add_keeps_others
           (platform := Quic.Reference.x86_64) _ _ _ _ _ _ _ _ 0 None Ha).
  - vm_compute. reflexivity.
  - vm_compute. reflexivity.
Defined.

Lemma cmp_prefix_spec_witness :
  ∃ ret,
    Params.cmp_prefix [97; 98] 2 [97; 98; 99] = Some ret
    ∧ (ret = -1 ↔ ¬ take 2 [97; 98] `prefix_of` [97; 98; 99])
    ∧ (take 2 [97; 98] `prefix_of` [97; 98; 99] →
       [97; 98; 99] = take 2 [97; 98] ++ drop 2 [97; 98; 99]
       ∧ ret = Z.of_nat (length (drop 2 [97; 98; 99]))).
Proof.
  apply (cmp_prefix_spec [97; 98] 2 [97; 98; 99]).
  - repeat (constructor; [lia|]). constructor.
  - repeat (constructor; [lia|]). constructor.
  - cbn. lia.
  - cbn. unfold Params.INT_MAX. lia.
Defined.

Lemma best_param_spec_witness :
  ∃ ret u,
    Params.best_param (Some [97; 98]) 2
      (Some [[97; 98; 99; 100]; [97; 98; 99]; [120]]) = Some (ret, u)
    ∧ ret = 1 ∧ u = Some false.
Proof.
  destruct (best_param_spec [97; 98] 2 [[97; 98; 99; 100]; [97; 98; 99]; [120]])
    as (ret & u & Hrun & _).
  - repeat (constructor; [lia|]). constructor.
  - cbn. lia.
  - unfold Params.INT_MAX.
    repeat (constructor;
            [split; [repeat (constructor; [lia|]); constructor|cbn; lia]|]).
    constructor.
  - exists ret, u. split; [exact Hrun|].
    vm_compute in Hrun. injection Hrun as <- <-. split; reflexivity.
Defined.

Lemma get_fqd_name_fqdn_witness :
  ∃ fqd_name,
    Params.get_fqd_name true (Some [110; 105; 99]) = Some (Some fqd_name)
    ∧ (fqd_name = [110; 105; 99] ∨ fqd_name = [110; 105; 99] ++ [46])
    ∧ last fqd_name = Some 46
    ∧ Params.get_fqd_name true (Some fqd_name) = Some (Some fqd_name).
Proof. apply (get_fqd_name_fqdn [110; 105; 99]). discriminate. Defined.

Lemma event_notify_first_working_witness :
  let zone := Notify.Reference.example_zone in
  let c := {| NotifyEvent.is_empty := false;
              NotifyEvent.apex_soa := Notify.Reference.example_soa |} in
  let slave a := {| Notify.addr := a; Notify.via := 0 |} in
  NotifyEvent.event_notify (E := Notify.Reference.environment)
    {| NotifyEvent.srv_tcp_remote_io_timeout := 10;
       NotifyEvent.notify := [[slave 2; slave 3; slave 1]] |}
    zone (Some c)
  = NotifyEvent.event_notify (E := Notify.Reference.environment)
      {| NotifyEvent.srv_tcp_remote_io_timeout := 10;
         NotifyEvent.notify := [[slave 2; slave 3]] |}
      zone (Some c).
Proof.
  cbv zeta.
  apply (event_notify_first_working (E := Notify.Reference.environment)
           10 Notify.Reference.example_zone
           {| NotifyEvent.is_empty := false;
              NotifyEvent.apex_soa := Notify.Reference.example_soa |}
           [] []
           [{| Notify.addr := 2; Notify.via := 0 |}]
           [{| Notify.addr := 1; Notify.via := 0 |}]
           {| Notify.addr := 3; Notify.via := 0 |}).
  vm_compute. reflexivity.
Defined.

Lemma udp_pktinfo_handle_frame_witness :
  match UdpHandler.udp_pktinfo_handle (UdpHandler.Reference.rx_msg 28)
          UdpHandler.Reference.tx_msg
          {[ 1%positive := UdpHandler.Reference.cmsg4;
             2%positive := UdpHandler.Reference.cmsg6 ]} with
  | Some (tx', mem') =>
    UdpHandler.msg_namelen tx' = 16
    ∧ mem' !! 2%positive = Some UdpHandler.Reference.cmsg6
  | None => False
  end.
Proof.
  destruct (UdpHandler.udp_pktinfo_handle _ _ _) as [[tx' mem']|] eqn:Hrun;
    [|vm_compute in Hrun; discriminate].
  destruct (udp_pktinfo_handle_frame _ _ _ _ _ Hrun) as (-> & _ & Hmem & _).
  split; [reflexivity|]. rewrite Hmem by (cbn; discriminate).
  vm_compute. reflexivity.
Defined.

Lemma udp_pktinfo_handle_idempotent_witness :
  match UdpHandler.udp_pktinfo_handle (UdpHandler.Reference.rx_msg 28)
          UdpHandler.Reference.tx_msg
          {[ 1%positive := UdpHandler.Reference.cmsg4 ]} with
  | Some (tx', mem') =>
    UdpHandler.udp_pktinfo_handle (UdpHandler.Reference.rx_msg 28) tx' mem'
    = Some (tx', mem')
  | None => False
  end.
Proof.
  destruct (UdpHandler.udp_pktinfo_handle _ _ _) as [[tx' mem']|] eqn:Hrun;
    [|vm_compute in Hrun; discriminate].
  exact (udp_pktinfo_handle_idempotent _ _ _ _ _ Hrun).
Defined.

Lemma ns_answer_request_destroys_witness :
  NameServerPackets.is_destroy
    <$> NameServer.trace (snd (NameServer.run_ns_answer_request
          (L := NameServer.Reference.libraries)
          NameServer.Reference.server (NameServer.Reference.query_for 1)
          NameServer.Reference.buffer))
  ≠ []
  ∧ NameServer.count NameServerPackets.is_destroy
      (NameServer.trace (snd (NameServer.run_ns_answer_request
         (L := NameServer.Reference.libraries)
         NameServer.Reference.server (NameServer.Reference.query_for 1)
         NameServer.Reference.buffer)))
    = 2%nat.
Proof.
  split; [vm_compute; discriminate|].
  destruct (NameServer.dnss_parse_query (Libraries := NameServer.Reference.libraries)
              (NameServer.Reference.query_for 1)) as [query|] eqn:Hq;
    [|vm_compute in Hq; discriminate].
  rewrite (ns_answer_request_destroys (L := NameServer.Reference.libraries)
             NameServer.Reference.server (NameServer.Reference.query_for 1)
             NameServer.Reference.buffer query 0 Hq).
  - reflexivity.
  - vm_compute in Hq. injection Hq as <-. cbn. lia.
  - vm_compute. reflexivity.
Defined.

Lemma udp_recvmmsg_handle_slots_witness :
  match UdpRecvmmsg.udp_recvmmsg_handle
          (api := UdpHandler.process_query_layer UdpHandler.Reference.answer)
          (codec := UdpHandler.Reference.codec)
          1 UdpHandler.Reference.context
          (snd (fst (UdpRecvmmsg.udp_recvmmsg_recv
                  (kernel := UdpRecvmmsgReference.kernel) 5
                  (fst UdpRecvmmsgReference.request)
                  (snd UdpRecvmmsgReference.request))))
          (snd (UdpRecvmmsg.udp_recvmmsg_recv
                  (kernel := UdpRecvmmsgReference.kernel) 5
                  (fst UdpRecvmmsgReference.request)
                  (snd UdpRecvmmsgReference.request))) with
  | Some (_, rq', _) =>
    ∃ mtx tx,
      UdpRecvmmsg.msgs_tx rq' !! 0%nat = Some mtx
      ∧ UdpRecvmmsg.iov_tx rq' !! 0%nat = Some tx
      ∧ UdpRecvmmsg.msg_len mtx
        = UdpRecvmmsg.to_unsigned (UdpHandler.iov_len tx)
  | None => False
  end.
Proof.
  destruct (UdpRecvmmsg.udp_recvmmsg_handle _ _ _ _)
    as [[[ctx' rq'] mem']|] eqn:Hrun; [|vm_compute in Hrun; discriminate].
  destruct (proj1 (udp_recvmmsg_handle_slots _ _ _ _ _ _ _ Hrun) 0%nat)
    as (mrx & mtx & tx & _ & Hm & Ht & Hl & _).
  - vm_compute. lia.
  - eauto.
Defined.

Lemma udp_recvmmsg_round_witness :
  match UdpRecvmmsg.udp_recvmmsg_handle
          (api := UdpHandler.process_query_layer UdpHandler.Reference.answer)
          (codec := UdpHandler.Reference.codec)
          1 UdpHandler.Reference.context
          (snd (fst (UdpRecvmmsg.udp_recvmmsg_recv
                  (kernel := UdpRecvmmsgReference.kernel) 5
                  (fst UdpRecvmmsgReference.request)
                  (snd UdpRecvmmsgReference.request))))
          (snd (UdpRecvmmsg.udp_recvmmsg_recv
                  (kernel := UdpRecvmmsgReference.kernel) 5
                  (fst UdpRecvmmsgReference.request)
                  (snd UdpRecvmmsgReference.request))) with
  | Some (_, rq2, _) =>
    ∃ sent rq3,
      UdpRecvmmsg.udp_recvmmsg_send rq2 = Some (sent, rq3)
      ∧ Z.of_nat (length sent) = 1
      ∧ UdpRecvmmsg.ready rq3 2
  | None => False
  end.
Proof.
  destruct (UdpRecvmmsg.udp_recvmmsg_handle _ _ _ _)
    as [[[ctx' rq2] mem2]|] eqn:Hrun; [|vm_compute in Hrun; discriminate].
  apply (udp_recvmmsg_round
           (api := UdpHandler.process_query_layer UdpHandler.Reference.answer)
           (codec := UdpHandler.Reference.codec)
           (kernel := UdpRecvmmsgReference.kernel)
           1 UdpHandler.Reference.context ctx' 5 2
           (fst UdpRecvmmsgReference.request)
           (snd (fst (UdpRecvmmsg.udp_recvmmsg_recv
                   (kernel := UdpRecvmmsgReference.kernel) 5
                   (fst UdpRecvmmsgReference.request)
                   (snd UdpRecvmmsgReference.request))))
           rq2
           (snd UdpRecvmmsgReference.request)
           (snd (UdpRecvmmsg.udp_recvmmsg_recv
                   (kernel := UdpRecvmmsgReference.kernel) 5
                   (fst UdpRecvmmsgReference.request)
                   (snd UdpRecvmmsgReference.request)))
           mem2 1).
  - apply udp_recvmmsg_init_ready.
  - vm_compute. reflexivity.
  - lia.
  - exact Hrun.
Defined.

(** ** More examples *)

(** The first, longer name wins over the second for the position, and
    the match is not unique. *)
Example best_param_order :
  Params.best_param (Some [97; 98]) 2
    (Some [[97; 98; 99]; [97; 98]; [120]]) = Some (1, Some true)
  ∧ Params.best_param (Some [97; 98]) 2
      (Some [[97; 98]; [97; 98; 99]]) = Some (0, Some false)
  ∧ Params.best_param (Some [97; 98]) 2 (Some [[120]])
    = Some (Params.KNOT_ENOTSUP, None).
Proof. vm_compute. repeat split. Qed.

(** The name before the string it is to be read in front of. *)
Example get_fqd_name_empty : Params.get_fqd_name true (Some []) = None.
Proof. reflexivity. Qed.

(** IXFR=2024, IXFR alone, A=1, and a serial that is too big. *)
Example params_parse_type_ixfr :
  Params.params_parse_type (library := ParamsReference.library)
    (Some [73; 88; 70; 82; 61; 50; 48; 50; 52]) (Some 0) (Some 0)
  = (Params.KNOT_EOK, Some 251, Some 2024)
  ∧ Params.params_parse_type (library := ParamsReference.library)
      (Some [73; 88; 70; 82]) (Some 0) (Some 0)
    = (Params.KNOT_EINVAL, Some 251, Some 0)
  ∧ Params.params_parse_type (library := ParamsReference.library)
      (Some [65; 61; 49]) (Some 0) (Some 0)
    = (Params.KNOT_EINVAL, Some 1, Some 0)
  ∧ Params.params_parse_type (library := ParamsReference.library)
      (Some [73; 88; 70; 82; 61; 52; 50; 57; 52; 57; 54; 55; 50; 57; 54])
      (Some 0) (Some 7)
    = (Params.KNOT_EINVAL, Some 251, Some 7).
Proof. vm_compute. repeat split. Qed.

(** 0, 5 and 9999999999 seconds, and a time that is no number. *)
Example params_parse_wait_clamps :
  Params.params_parse_wait (library := ParamsReference.library)
    (Some [48]) (Some 7) = (Params.KNOT_EOK, Some 1)
  ∧ Params.params_parse_wait (library := ParamsReference.library)
      (Some [53]) (Some 7) = (Params.KNOT_EOK, Some 5)
  ∧ Params.params_parse_wait (library := ParamsReference.library)
      (Some [57; 57; 57; 57; 57; 57; 57; 57; 57; 57]) (Some 7)
    = (Params.KNOT_EOK, Some 2147483)
  ∧ Params.params_parse_wait (library := ParamsReference.library)
      (Some [53; 120]) (Some 7) = (Params.KNOT_EINVAL, Some 7).
Proof. vm_compute. repeat split. Qed.

(** A remote that times out on its only address, one that refuses, one
    without an address. *)
Example event_notify_remotes :
  let slave a := {| Notify.addr := a; Notify.via := 0 |} in
  let c := {| NotifyEvent.is_empty := false;
              NotifyEvent.apex_soa := Notify.Reference.example_soa |} in
  fst (fst (NotifyEvent.event_notify (E := Notify.Reference.environment)
              {| NotifyEvent.srv_tcp_remote_io_timeout := 10;
                 NotifyEvent.notify := [[slave 2]] |}
              Notify.Reference.example_zone (Some c)))
  = NotifyEvent.KNOT_ERROR
  ∧ NotifyEvent.event_notify (E := Notify.Reference.environment)
      {| NotifyEvent.srv_tcp_remote_io_timeout := 10;
         NotifyEvent.notify := [[slave 1]; []] |}
      Notify.Reference.example_zone (Some c)
    = (Libknot.KNOT_EOK, Notify.Reference.example_zone,
       [Notify.LogWarningRcode 5]).
Proof. vm_compute. repeat split. Qed.

Lemma get_reverse_name_ipv4_witness :
  ParamsNames.get_reverse_name (H := ParamsNamesReference.inet) true
    (Some ParamsNamesReference.name4)
  = Some [49; 46; 50; 46; 48; 46; 49; 57; 50; 46;
          105; 110; 45; 97; 100; 100; 114; 46; 97; 114; 112; 97; 46].
Proof.
  apply (get_reverse_name_ipv4 (inet := ParamsNamesReference.inet)
           ParamsNamesReference.name4 192 0 2 1).
  reflexivity.
Defined.

Lemma get_reverse_name_ipv6_witness :
  ∃ r, ParamsNames.get_reverse_name (H := ParamsNamesReference.inet) true
         (Some ParamsNamesReference.name6) = Some r
       ∧ take 8 r = [49; 46; 48; 46; 48; 46; 48; 46]
       ∧ drop 48 r = [56; 46; 98; 46; 100; 46; 48; 46; 49; 46; 48; 46;
                      48; 46; 50; 46;
                      105; 112; 54; 46; 97; 114; 112; 97; 46].
Proof.
  destruct (get_reverse_name_ipv6 (inet := ParamsNamesReference.inet)
              ParamsNamesReference.name6
              [0x20; 0x01; 0x0d; 0xb8; 0; 0; 0; 0; 0; 0; 0; 0; 0; 0; 0; 1])
    as (r & Hrun & -> & _).
  - reflexivity.
  - reflexivity.
  - eexists. split; [exact Hrun|]. split; vm_compute; reflexivity.
Defined.

Lemma params_parse_tsig_format_witness :
  ParamsNames.params_parse_tsig (H := ParamsNamesReference.tsig) true
    (Some (ParamsNamesReference.hmac_sha256
             ++ 58 :: [75; 101; 121] ++ 58 :: [97; 81; 61; 61]))
    (Some {| ParamsNames.key_name := None;
             ParamsNames.key_algorithm := 0;
             ParamsNames.key_secret := [] |})
  = (Params.KNOT_EOK,
     Some {| ParamsNames.key_name := Some [107; 101; 121];
             ParamsNames.key_algorithm := 163;
             ParamsNames.key_secret := [97; 81; 61; 61] |}).
Proof.
  refine (proj1 (params_parse_tsig_format (tsig := ParamsNamesReference.tsig)
                   {| ParamsNames.key_name := None;
                      ParamsNames.key_algorithm := 0;
                      ParamsNames.key_secret := [] |}
                   ParamsNamesReference.hmac_sha256 [75; 101; 121]
                   [97; 81; 61; 61] eq_refl _ _)).
  - unfold ParamsNamesReference.hmac_sha256.
    rewrite !not_elem_of_cons. repeat (split; [discriminate|]).
    apply not_elem_of_nil.
  - rewrite !not_elem_of_cons. repeat (split; [discriminate|]).
    apply not_elem_of_nil.
Defined.

(** A secret that does not decode leaves the key named, so that the
    option cannot be given again. *)
Example params_parse_tsig_bad_secret :
  let kp0 := {| ParamsNames.key_name := None;
                ParamsNames.key_algorithm := 0;
                ParamsNames.key_secret := [] |} in
  let bad := ParamsNames.params_parse_tsig (H := ParamsNamesReference.tsig)
               true (Some [107; 58; 33]) (Some kp0) in
  bad = (Params.KNOT_EINVAL,
         Some {| ParamsNames.key_name := Some [107];
                 ParamsNames.key_algorithm := 157;
                 ParamsNames.key_secret := [] |})
  ∧ ParamsNames.params_parse_tsig (H := ParamsNamesReference.tsig)
      true (Some [107; 58; 97]) (snd bad)
    = (Params.KNOT_EINVAL, snd bad).
Proof. vm_compute. repeat split. Qed.

Lemma ns_answer_request_success_witness :
  fst (NameServer.run_ns_answer_request
         (L := NameServer.Reference.libraries)
         NameServer.Reference.server (NameServer.Reference.query_for 1)
         NameServer.Reference.buffer)
  = Return 0.
Proof.
  destruct (NameServer.dnss_parse_query
              (Libraries := NameServer.Reference.libraries)
              (NameServer.Reference.query_for 1)) as [query|] eqn:Hq;
    [|vm_compute in Hq; discriminate].
  destruct (NameServer.dnss_create_empty_packet
              (Libraries := NameServer.Reference.libraries))
    as [empty|] eqn:He; [|vm_compute in He; discriminate].
  destruct (NameServer.built_response (L := NameServer.Reference.libraries)
              NameServer.Reference.server query empty)
    as [res response] eqn:Hb.
  destruct (NameServer.dnss_wire_format
              (Libraries := NameServer.Reference.libraries)
              response NameServer.Reference.buffer) as [res1 o1] eqn:Hw.
  assert (Hres : res = 0 ∧ res1 = 0).
  { vm_compute in Hq. injection Hq as <-.
    vm_compute in He. injection He as <-.
    vm_compute in Hb. injection Hb as <- <-.
    vm_compute in Hw. injection Hw as <- _. split; reflexivity. }
  destruct Hres as [-> ->].
  refine (proj1 (ns_answer_request_success
                   (L := NameServer.Reference.libraries)
                   NameServer.Reference.server
                   (NameServer.Reference.query_for 1)
                   NameServer.Reference.buffer o1 query empty response
                   Hq _ He Hb Hw)).
  vm_compute in Hq. injection Hq as <-. cbn. lia.
Defined.
